(** * Decoder-only transformer: attention, blocks and weight tying

    A shallow embedding of [experiments/transformer_s.py] (the variant with
    the explicit function cache) and [experiments/transformer.py] (the
    variant that returns gradient closures), with the tensor library the
    two files call into modelled over exact real arithmetic.

    Tensors are nested lists: a vector is a list of reals, a matrix a list
    of rows, and a rank-3 tensor a list of matrices along the batch axis.
    Attention logits may hold the value minus infinity, so they live in
    their own type [score]. *)

From Stdlib Require Import String.
From Stdlib Require Import Reals Lra Lia Arith ZArith Bool List.
From Stdlib Require Import Sorted Permutation.
Import ListNotations.
Open Scope R_scope.

(* ================================================================== *)
(** * Part I: definitions *)
(* ================================================================== *)

(** Sequencing of steps that may raise: [None] stands for an error. *)
Notation "' p <- e ;; k" :=
  (match e with
   | Some p => k
   | None => None
   end)
  (at level 61, p pattern, e at next level, right associativity, only parsing).

(** ** The tensor backend *)

Module compyute.

Abbreviation vector := (list R).
Abbreviation matrix := (list (list R)).
Abbreviation tensor3 := (list (list (list R))).

(** An attention logit: a real number or minus infinity. *)
Inductive score : Type :=
| NegInf
| Fin (x : R).

Abbreviation smatrix := (list (list score)).
Abbreviation stensor3 := (list (list (list score))).

(** Elementwise combination of two lists of equal length. *)
Fixpoint zip_with {A B C : Type} (f : A -> B -> C) (a : list A) (b : list B) : list C :=
  match a, b with
  | x :: a', y :: b' => f x y :: zip_with f a' b'
  | _, _ => []
  end.

Fixpoint mapi_from {A B : Type} (i : nat) (f : nat -> A -> B) (l : list A) : list B :=
  match l with
  | [] => []
  | x :: l' => f i x :: mapi_from (S i) f l'
  end.

Definition mapi {A B : Type} (f : nat -> A -> B) (l : list A) : list B := mapi_from 0 f l.

Definition sum (v : vector) : R := fold_right Rplus 0 v.

Definition dot (a b : vector) : R := sum (zip_with Rmult a b).

Definition ncols {A : Type} (m : list (list A)) : nat :=
  match m with
  | [] => 0%nat
  | r :: _ => length r
  end.

Definition col (j : nat) (m : matrix) : vector := map (fun r => nth j r 0) m.

(** [m.T] for a matrix. *)
Definition transpose (m : matrix) : matrix := map (fun j => col j m) (seq 0 (ncols m)).

(** [a @ b] for two matrices. *)
Definition matmul (a b : matrix) : matrix :=
  map (fun r => map (fun j => dot r (col j b)) (seq 0 (ncols b))) a.

(** [x.T] on a rank-3 tensor swaps the last two axes. *)
Definition T (x : tensor3) : tensor3 := map transpose x.

(** [a @ b] on rank-3 tensors multiplies batch entry by batch entry. *)
Definition bmm (a b : tensor3) : tensor3 := zip_with matmul a b.

Definition map3 {A B : Type} (f : A -> B) (x : list (list (list A))) : list (list (list B)) :=
  map (map (map f)) x.

Definition mul_scalar (x : tensor3) (c : R) : tensor3 := map3 (fun a => a * c) x.
Definition div_scalar (x : tensor3) (c : R) : tensor3 := map3 (fun a => a / c) x.

Definition add (x y : tensor3) : tensor3 := zip_with (zip_with (zip_with Rplus)) x y.
Definition mul (x y : tensor3) : tensor3 := zip_with (zip_with (zip_with Rmult)) x y.

(** Sum of a finite logit and a mask entry. *)
Definition sadd (x : R) (m : score) : score :=
  match m with
  | NegInf => NegInf
  | Fin b => Fin (x + b)
  end.

(** [x += m] where the matrix [m] is broadcast over the batch axis. *)
Definition add_mask (x : tensor3) (m : smatrix) : stensor3 :=
  map (fun xb => zip_with (zip_with sadd) xb m) x.

Definition finite (x : tensor3) : stensor3 := map3 Fin x.

(** [m[:r, :c]]. *)
Definition slice2 {A : Type} (r c : nat) (m : list (list A)) : list (list A) :=
  map (firstn c) (firstn r m).

(** [full((rows, cols), v)]. *)
Definition full (shape : nat * nat) (v : score) : smatrix :=
  repeat (repeat v (snd shape)) (fst shape).

(** [triu(m, d)]: entries below the [d]-th diagonal are set to zero. *)
Definition triu (m : smatrix) (d : Z) : smatrix :=
  mapi (fun i row =>
          mapi (fun j x => if (d <=? Z.of_nat j - Z.of_nat i)%Z then x else Fin 0) row) m.

(** Maximum of a row of logits; minus infinity for a row with no finite entry. *)
Definition smax2 (a b : score) : score :=
  match a, b with
  | NegInf, _ => b
  | _, NegInf => a
  | Fin x, Fin y => Fin (Rmax x y)
  end.

Definition row_max (l : list score) : score := fold_right smax2 NegInf l.

(** [exp(x - m)] on logits.  A row whose maximum is minus infinity is
    not-a-number in floating point; this model has no such value and
    yields zero there. *)
Definition exp_shift (m x : score) : R :=
  match m, x with
  | Fin b, Fin a => exp (a - b)
  | _, _ => 0
  end.

(** Modelled from the spec: the library's softmax along the last axis,
    computed with max-subtraction: [e = exp(x - max(x)); y = e / sum(e)]. *)
Definition softmax_row (l : list score) : vector :=
  let e := map (exp_shift (row_max l)) l in
  map (fun a => a / sum e) e.

Definition softmax (x : stensor3) : tensor3 := map (map softmax_row) x.

(** Modelled from the spec: the gradient of softmax, the product of the
    incoming gradient with the full Jacobian, in the library's closed form
    [dx = y * (dy - sum(dy * y))] along the last axis. *)
Definition softmax_row_backward (y dy : vector) : vector :=
  let s := sum (zip_with Rmult dy y) in
  zip_with (fun yi dyi => yi * (dyi - s)) y dy.

Definition softmax_backward (y dy : tensor3) : tensor3 :=
  zip_with (zip_with softmax_row_backward) y dy.

(** [split(x, n)]: [n] equal contiguous chunks along the last axis. *)
Definition chunk {A : Type} (w h : nat) (r : list A) : list A := firstn w (skipn (h * w) r).

Definition width (x : tensor3) : nat :=
  match x with
  | [] => 0%nat
  | m :: _ => ncols m
  end.

Definition split (x : tensor3) (n : nat) : list tensor3 :=
  let w := (width x / n)%nat in
  map (fun h => map (map (chunk w h)) x) (seq 0 n).

(** [concat(xs)]: joins tensors along the last axis. *)
Fixpoint concat (xs : list tensor3) : tensor3 :=
  match xs with
  | [] => []
  | x :: rest =>
      match rest with
      | [] => x
      | _ => zip_with (zip_with (@app R)) x (concat rest)
      end
  end.

Definition madd (a b : matrix) : matrix := zip_with (zip_with Rplus) a b.

(** [x.sum(axis=0)]. *)
Definition sum_axis0 (x : tensor3) : matrix :=
  match x with
  | [] => []
  | m :: rest => fold_left madd rest m
  end.

(** Shapes, as boolean checks. *)
Definition is_matrix {A : Type} (r c : nat) (m : list (list A)) : bool :=
  (length m =? r)%nat && forallb (fun row => (length row =? c)%nat) m.

Definition has_shape (b s h : nat) (x : tensor3) : bool :=
  (length x =? b)%nat && forallb (is_matrix s h) x.

(** [x.shape[1]] of a rank-3 tensor. *)
Definition seq_len (x : tensor3) : nat :=
  match x with
  | [] => 0%nat
  | m :: _ => length m
  end.

(** The comparison [a < b] on reals, as a boolean. *)
Definition Rltb (a b : R) : bool := if Rlt_dec a b then true else false.

(** *** The function cache *)

(** Modelled from the spec: the library's [FunctionCache], per key a stack
    (last in, first out) of the values cached by forward calls and consumed
    by the matching backward calls.  Writing an attribute pushes, reading
    it pops.  The record keeps what every call writes.  Whether the
    library keeps it is decided by the mode of the module, outside
    [src/]: in inference mode no cache is made.  What is proved of the
    contents of a module's cache is therefore stated for modules in
    training mode. *)
Record FunctionCache : Type := mkCache {
  cache_q : list tensor3;
  cache_k : list tensor3;
  cache_v : list tensor3;
  cache_attn_w : list tensor3;
  cache_y : list tensor3;
  cache_dropout_map : list (option tensor3)
}.

Definition empty_cache : FunctionCache := mkCache [] [] [] [] [] [].

Definition push_y (c : FunctionCache) (y : tensor3) : FunctionCache :=
  mkCache (cache_q c) (cache_k c) (cache_v c) (cache_attn_w c) (y :: cache_y c)
          (cache_dropout_map c).

Definition pop_y (c : FunctionCache) : option (FunctionCache * tensor3) :=
  match cache_y c with
  | [] => None
  | y :: rest =>
      Some (mkCache (cache_q c) (cache_k c) (cache_v c) (cache_attn_w c) rest
                    (cache_dropout_map c), y)
  end.

Definition push_dropout_map (c : FunctionCache) (d : option tensor3) : FunctionCache :=
  mkCache (cache_q c) (cache_k c) (cache_v c) (cache_attn_w c) (cache_y c)
          (d :: cache_dropout_map c).

Definition pop_dropout_map (c : FunctionCache) : option (FunctionCache * option tensor3) :=
  match cache_dropout_map c with
  | [] => None
  | d :: rest =>
      Some (mkCache (cache_q c) (cache_k c) (cache_v c) (cache_attn_w c) (cache_y c) rest, d)
  end.

(** [cache.q, cache.k, cache.v, cache.attn_w = q, k, v, attn_w]. *)
Definition push_qkvw (c : FunctionCache) (q k v w : tensor3) : FunctionCache :=
  mkCache (q :: cache_q c) (k :: cache_k c) (v :: cache_v c) (w :: cache_attn_w c)
          (cache_y c) (cache_dropout_map c).

(** [q, k, v, attn_w = cache.q, cache.k, cache.v, cache.attn_w]. *)
Definition pop_qkvw (c : FunctionCache)
  : option (FunctionCache * (tensor3 * tensor3 * tensor3 * tensor3)) :=
  match cache_q c, cache_k c, cache_v c, cache_attn_w c with
  | q :: qs, k :: ks, v :: vs, w :: ws =>
      Some (mkCache qs ks vs ws (cache_y c) (cache_dropout_map c), (q, k, v, w))
  | _, _, _, _ => None
  end.

(** *** Cached functions *)

Definition FSoftmax_forward (c : FunctionCache) (x : stensor3) : FunctionCache * tensor3 :=
  let y := softmax x in
  (push_y c y, y).

Definition FSoftmax_backward (c : FunctionCache) (dy : tensor3)
  : option (FunctionCache * tensor3) :=
  match pop_y c with
  | Some (c', y) => Some (c', softmax_backward y dy)
  | None => None
  end.

(** Modelled from the spec: dropout multiplies by a sampled map whose
    entries are [0] for dropped and [1/(1-p)] for kept elements; it is the
    identity when [training] is false.  The sampled map [dmap] is an
    argument of the model. *)
Definition FDropout_forward (c : FunctionCache) (x : tensor3) (p : R) (training : bool)
           (dmap : tensor3) : FunctionCache * tensor3 :=
  if training then (push_dropout_map c (Some dmap), mul x dmap)
  else (push_dropout_map c None, x).

Definition FDropout_backward (c : FunctionCache) (dy : tensor3)
  : option (FunctionCache * tensor3) :=
  match pop_dropout_map c with
  | Some (c', Some dmap) => Some (c', mul dy dmap)
  | Some (c', None) => Some (c', dy)
  | None => None
  end.

(** *** Functions that return their gradient function

    The older functional interface used by [transformer.py]: a call
    returns the result and, on request, a closure computing the gradient. *)

Definition softmax_fn (x : stensor3) (return_grad_fn : bool)
  : tensor3 * option (tensor3 -> tensor3) :=
  let y := softmax x in
  (y, if return_grad_fn then Some (fun dy => softmax_backward y dy) else None).

Definition dropout_fn (x : tensor3) (p : R) (return_grad_fn : bool) (dmap : tensor3)
  : tensor3 * option (tensor3 -> tensor3) :=
  (mul x dmap, if return_grad_fn then Some (fun dy => mul dy dmap) else None).

(** Calling a gradient function that was requested. *)
Definition call {A : Type} (f : option (A -> A)) (x : A) : A :=
  match f with
  | Some g => g x
  | None => x
  end.

(** *** Errors raised by constructors *)

Inductive exn : Type :=
| ValueError (msg : string)
| ZeroDivisionError.

(** Python's [a % b] on integers: the sign follows the divisor, and a
    zero divisor raises. *)
Definition py_mod (a b : Z) : exn + Z :=
  if (b =? 0)%Z then inl ZeroDivisionError else inr (a mod b)%Z.

(** *** Modules

    The interface every library module offers: a forward and a backward
    pass over the module's own state (parameters, caches, random source).
    [None] stands for a raised error. *)
Class Layer (M : Type) : Type := {
  forward : M -> tensor3 -> option (M * tensor3);
  backward : M -> tensor3 -> option (M * tensor3)
}.

(** What the library's [Linear] offers besides the two passes: its
    constructor [Linear(in_channels, out_channels, bias, label)] and the
    in-place scaling of its weight, [lin.w *= c]. *)
Class LinearClass (Lin : Type) : Type := {
  Linear_layer :: Layer Lin;
  Linear : Z -> Z -> bool -> string -> Lin;
  scale_w : Lin -> R -> Lin
}.

(** *** Parameters and their storage *)

(** Modelled from the spec: a parameter is a tensor with a gradient
    buffer; modules hold references to parameters, so two modules may
    hold the same one.  Gradient contributions are accumulated onto the
    buffer (added to what is there), never assigned over it. *)

Record Param : Type := mkParam {
  data : matrix;
  grad : option matrix
}.

Definition heap := list Param.
Definition ref := nat.

Definition alloc (h : heap) (d : matrix) : heap * ref :=
  (h ++ [mkParam d None], length h).

Definition heap_update (h : heap) (r : ref) (f : Param -> Param) : option heap :=
  match nth_error h r with
  | Some p => Some (firstn r h ++ f p :: skipn (S r) h)
  | None => None
  end.

Definition set_data (h : heap) (r : ref) (d : matrix) : heap :=
  match heap_update h r (fun p => mkParam d (grad p)) with
  | Some h' => h'
  | None => h
  end.

Definition accumulate (g : option matrix) (dw : matrix) : option matrix :=
  match g with
  | None => Some dw
  | Some g0 => Some (madd g0 dw)
  end.

Definition update_parameter_grad (h : heap) (r : ref) (dw : matrix) : option heap :=
  heap_update h r (fun p => mkParam (data p) (accumulate (grad p) dw)).

Definition grad_at (h : heap) (r : ref) : option matrix :=
  match nth_error h r with
  | Some p => grad p
  | None => None
  end.

(** *** Embedding and linear layers over stored parameters *)

(** A tensor of rank 2 or 3, and integer indices of rank 1 or 2. *)
Inductive tensor : Type :=
| T2 (m : matrix)
| T3 (x : tensor3).

Inductive ids : Type :=
| I1 (l : list nat)
| I2 (l : list (list nat)).

(** The numeric kernels of the two layers, which this development does
    not look into. *)
Class Kernels : Type := {
  FEmbedding_forward : matrix -> ids -> tensor;
  FEmbedding_backward : ids -> tensor -> matrix;
  FLinear_forward : matrix -> option matrix -> tensor3 -> tensor3;
  FLinear_backward : matrix -> tensor3 -> tensor3 -> tensor3 * matrix * matrix
}.

Record Embedding : Type := mkEmbedding {
  emb_w : ref;
  emb_cache : list ids
}.

Definition Embedding_new (h : heap) (w : matrix) : heap * Embedding :=
  let '(h, r) := alloc h w in (h, mkEmbedding r []).

Definition Embedding_forward `{Kernels} (e : Embedding) (x : ids) (h : heap)
  : option (Embedding * tensor) :=
  match nth_error h (emb_w e) with
  | Some p => Some (mkEmbedding (emb_w e) (x :: emb_cache e), FEmbedding_forward (data p) x)
  | None => None
  end.

Definition Embedding_backward `{Kernels} (e : Embedding) (dy : tensor) (h : heap)
  : option (Embedding * heap) :=
  match emb_cache e with
  | [] => None
  | x :: rest =>
      match update_parameter_grad h (emb_w e) (FEmbedding_backward x dy) with
      | Some h' => Some (mkEmbedding (emb_w e) rest, h')
      | None => None
      end
  end.

Record LinearModule : Type := mkLinear {
  lin_w : ref;
  lin_b : option ref;
  lin_cache : list tensor3
}.

Definition Linear_new (h : heap) (w : matrix) (b : option matrix) : heap * LinearModule :=
  let '(h, rw) := alloc h w in
  match b with
  | Some b0 => let '(h, rb) := alloc h b0 in (h, mkLinear rw (Some rb) [])
  | None => (h, mkLinear rw None [])
  end.

Definition bias_data (h : heap) (b : option ref) : option matrix :=
  match b with
  | Some rb => option_map data (nth_error h rb)
  | None => None
  end.

Definition Linear_forward `{Kernels} (l : LinearModule) (x : tensor3) (h : heap)
  : option (LinearModule * tensor3) :=
  match nth_error h (lin_w l) with
  | Some p =>
      Some (mkLinear (lin_w l) (lin_b l) (x :: lin_cache l),
            FLinear_forward (data p) (bias_data h (lin_b l)) x)
  | None => None
  end.

Definition Linear_backward `{Kernels} (l : LinearModule) (dy : tensor3) (h : heap)
  : option (LinearModule * tensor3 * heap) :=
  match lin_cache l, nth_error h (lin_w l) with
  | x :: rest, Some p =>
      let '(dx, dw, db) := FLinear_backward (data p) x dy in
      match update_parameter_grad h (lin_w l) dw with
      | Some h1 =>
          match lin_b l with
          | Some rb =>
              match update_parameter_grad h1 rb db with
              | Some h2 => Some (mkLinear (lin_w l) (lin_b l) rest, dx, h2)
              | None => None
              end
          | None => Some (mkLinear (lin_w l) (lin_b l) rest, dx, h1)
          end
      | None => None
      end
  | _, _ => None
  end.

(** *** Containers *)

(** Modelled from the spec: [Sequential] runs its modules in order and
    their backward passes in reverse order; [Residual] wraps a sub-block
    [f] as [x + f(x)], and its backward adds the gradient that went
    through the sub-block to the one that took the identity shortcut. *)

Record Sequential (A B : Type) : Type := mkSequential {
  seq_first : A;
  seq_second : B
}.

Arguments mkSequential {A B}.
Arguments seq_first {A B}.
Arguments seq_second {A B}.

#[export] Instance Sequential_Layer {A B : Type} `{Layer A} `{Layer B} : Layer (Sequential A B) := {
  forward s x :=
    ('(a, y) <- forward (seq_first s) x ;;
     '(b, y) <- forward (seq_second s) y ;;
     Some (mkSequential a b, y));
  backward s dy :=
    ('(b, g) <- backward (seq_second s) dy ;;
     '(a, g) <- backward (seq_first s) g ;;
     Some (mkSequential a b, g))
}.

Record Residual (M : Type) : Type := mkResidual {
  residual_block : M
}.

Arguments mkResidual {M}.
Arguments residual_block {M}.

#[export] Instance Residual_Layer {M : Type} `{Layer M} : Layer (Residual M) := {
  forward r x :=
    ('(m, y) <- forward (residual_block r) x ;;
     Some (mkResidual m, add x y));
  backward r dy :=
    ('(m, g) <- backward (residual_block r) dy ;;
     Some (mkResidual m, add dy g))
}.

Definition zeros_like (x : tensor3) : tensor3 := map3 (fun _ => 0) x.

(** *** Addition with broadcasting

    [token_emb(x) + pos_emb(pos)] adds two tensors of different shapes.
    The array library aligns the axes from the last one and, axis by
    axis, wants the two lengths equal or one of them [1], whose entry is
    then repeated; any other pair of lengths raises.  A nested list with
    an axis of length zero does not carry the lengths of the axes
    inside; the comparison of those is then vacuous. *)

(** All the results of a list of fallible steps, or [None] if one fails. *)
Fixpoint sequence {A : Type} (l : list (option A)) : option (list A) :=
  match l with
  | [] => Some []
  | None :: _ => None
  | Some a :: rest =>
      match sequence rest with
      | Some r => Some (a :: r)
      | None => None
      end
  end.

(** One axis: [f] adds the entries, themselves tensors of one axis less. *)
Definition broadcast {A : Type} (f : A -> A -> option A) (a b : list A) : option (list A) :=
  if (length a =? length b)%nat then sequence (zip_with f a b)
  else
    match a, b with
    | [x], _ => sequence (map (f x) b)
    | _, [y] => sequence (map (fun x => f x y) a)
    | _, _ => None
    end.

Definition vadd_broadcast : vector -> vector -> option vector :=
  broadcast (fun a b => Some (a + b)).

Definition madd_broadcast : matrix -> matrix -> option matrix :=
  broadcast vadd_broadcast.

Definition add_broadcast : tensor3 -> tensor3 -> option tensor3 :=
  broadcast madd_broadcast.

(** Adding positional to token embeddings.  The token embeddings of a
    batch have three axes; positional embeddings of two axes get a
    leading axis of length [1].  [None] is the error the addition
    raises on shapes that do not broadcast. *)
Definition add_embeddings (tok pos : tensor) : option tensor3 :=
  match tok, pos with
  | T3 x, T2 p => add_broadcast x [p]
  | T3 x, T3 p => add_broadcast x p
  | _, _ => None
  end.

End compyute.

Import compyute.


(** ** [transformer_s.py]: attention with the explicit function cache *)

Module transformer_s.

(** [get_causal_mask(shape)]. *)
Definition get_causal_mask (shape : nat * nat) : smatrix :=
  triu (full shape NegInf) 1.

(** [FSDPAttention.forward].  [dmap] is the dropout map sampled by this
    call when dropout is active. *)
Definition FSDPAttention_forward (cache : FunctionCache) (q k v : tensor3)
           (mask : option smatrix) (dropout_p : R) (return_attn_w : bool) (dmap : tensor3)
  : FunctionCache * (tensor3 * option tensor3) :=
  let seq_len := seq_len q in
  let head_size := width q in
  let attn_w := div_scalar (bmm q (T k)) (sqrt (INR head_size)) in
  let attn_w :=
    match mask with
    | Some m => add_mask attn_w (slice2 seq_len seq_len m)
    | None => finite attn_w
    end in
  let '(cache, attn_w) := FSoftmax_forward cache attn_w in
  let '(cache, attn_w) := FDropout_forward cache attn_w dropout_p (Rltb 0 dropout_p) dmap in
  let y := bmm attn_w v in
  let cache := push_qkvw cache q k v attn_w in
  (cache, (y, if negb return_attn_w then None else Some attn_w)).

(** [FSDPAttention.backward]: [None] when a cached value is missing. *)
Definition FSDPAttention_backward (cache : FunctionCache) (dy : tensor3)
  : option (FunctionCache * (tensor3 * tensor3 * tensor3)) :=
  match pop_qkvw cache with
  | None => None
  | Some (cache, (q, k, v, attn_w)) =>
      let head_size := width q in
      let dattn_w := bmm dy (T v) in
      match FDropout_backward cache dattn_w with
      | None => None
      | Some (cache, dattn_w) =>
          match FSoftmax_backward cache dattn_w with
          | None => None
          | Some (cache, dsm) =>
              let dattn_w := div_scalar dsm (sqrt (INR head_size)) in
              let dq := bmm dattn_w k in
              let dk := bmm (T dattn_w) q in
              let dv := bmm (T attn_w) dy in
              Some (cache, (dq, dk, dv))
          end
      end
  end.

(** [sdp_attention]: the same forward on a cache that is thrown away. *)
Definition sdp_attention (q k v : tensor3) (mask : option smatrix) (dropout_p : R)
           (return_attn_w : bool) (dmap : tensor3) : tensor3 * option tensor3 :=
  snd (FSDPAttention_forward empty_cache q k v mask dropout_p return_attn_w dmap).

(** *** [MultiHeadAttention] *)

Record MultiHeadAttention (Lin : Type) : Type := mkMHA {
  n_heads : Z;
  mask : option smatrix;
  dropout_p : R;
  attn_w : list (option tensor3);
  query_proj : Lin;
  key_proj : Lin;
  value_proj : Lin;
  out_proj : Lin;
  (* attributes of the [Module] base class *)
  fcache : FunctionCache;
  is_training : bool;
  is_retaining_values : bool
}.

Arguments mkMHA {Lin}.
Arguments n_heads {Lin}.
Arguments mask {Lin}.
Arguments dropout_p {Lin}.
Arguments attn_w {Lin}.
Arguments query_proj {Lin}.
Arguments key_proj {Lin}.
Arguments value_proj {Lin}.
Arguments out_proj {Lin}.
Arguments fcache {Lin}.
Arguments is_training {Lin}.
Arguments is_retaining_values {Lin}.

(** [MultiHeadAttention.__init__].  A tensor is truthy, so [not mask]
    holds for [None] only.  A fresh module is in inference mode, retains
    no values and has an empty cache. *)
Definition MultiHeadAttention_init {Lin : Type} `{LinearClass Lin}
           (in_channels n_heads : Z) (mask : option smatrix) (dropout_p out_scale : R)
  : exn + MultiHeadAttention Lin :=
  match py_mod in_channels n_heads with
  | inl e => inl e
  | inr r =>
      if negb (r =? 0)%Z then
        inl (ValueError "Number of input channels must be divisible by n_heads.")
      else
        let query_proj := Linear in_channels in_channels false "QueryProj" in
        let key_proj := Linear in_channels in_channels false "KeyProj" in
        let value_proj := Linear in_channels in_channels false "ValueProj" in
        let out_proj := Linear in_channels in_channels true "OutProj" in
        let out_proj := scale_w out_proj out_scale in
        inr (mkMHA n_heads mask dropout_p [] query_proj key_proj value_proj out_proj
                   empty_cache false false)
  end.

(** The module after a pass has replaced its mutable parts. *)
Definition MultiHeadAttention_update {Lin : Type} (self : MultiHeadAttention Lin)
           (attn_w : list (option tensor3)) (query_proj key_proj value_proj out_proj : Lin)
           (fcache : FunctionCache) : MultiHeadAttention Lin :=
  mkMHA (n_heads self) (mask self) (dropout_p self) attn_w
        query_proj key_proj value_proj out_proj
        fcache (is_training self) (is_retaining_values self).

(** The loop over the heads in [MultiHeadAttention.forward].  [rng i] is
    the dropout map sampled by the call for head [i]. *)
Fixpoint forward_heads (fcache : FunctionCache) (mask : option smatrix) (dropout_p : R)
         (retain : bool) (rng : nat -> tensor3) (i : nat)
         (heads : list (tensor3 * (tensor3 * tensor3)))
         (y_heads : list tensor3) (attn_w : list (option tensor3))
  : FunctionCache * list tensor3 * list (option tensor3) :=
  match heads with
  | [] => (fcache, y_heads, attn_w)
  | (q_head, (k_head, v_head)) :: rest =>
      let '(fcache, (y_head, attn_w_head)) :=
        FSDPAttention_forward fcache q_head k_head v_head mask dropout_p retain (rng i) in
      forward_heads fcache mask dropout_p retain rng (S i) rest
                    (y_heads ++ [y_head]) (attn_w ++ [attn_w_head])
  end.

(** [MultiHeadAttention.forward]. *)
Definition MultiHeadAttention_forward {Lin : Type} `{Layer Lin}
           (self : MultiHeadAttention Lin) (x : tensor3) (rng : nat -> tensor3)
  : option (MultiHeadAttention Lin * tensor3) :=
  let dropout_p := if is_training self then dropout_p self else 0 in
  (* input projection for self-attention *)
  '(query_proj, q) <- forward (query_proj self) x ;;
  '(key_proj, k) <- forward (key_proj self) x ;;
  '(value_proj, v) <- forward (value_proj self) x ;;
  (* split projections for each head *)
  let q_heads := split q (Z.to_nat (n_heads self)) in
  let k_heads := split k (Z.to_nat (n_heads self)) in
  let v_heads := split v (Z.to_nat (n_heads self)) in
  (* multi head attention *)
  let '(fcache, y_heads, attn_w) :=
    forward_heads (fcache self) (mask self) dropout_p (is_retaining_values self) rng 0
                  (combine q_heads (combine k_heads v_heads)) [] (attn_w self) in
  let y := concat y_heads in
  (* output projection *)
  '(out_proj, y) <- forward (out_proj self) y ;;
  Some (MultiHeadAttention_update self attn_w query_proj key_proj value_proj out_proj fcache,
        y).

(** The loop over the heads in [MultiHeadAttention.backward]; the three
    lists grow by [append]. *)
Fixpoint backward_heads (fcache : FunctionCache) (dy_heads : list tensor3)
         (dq_heads dk_heads dv_heads : list tensor3)
  : option (FunctionCache * (list tensor3 * list tensor3 * list tensor3)) :=
  match dy_heads with
  | [] => Some (fcache, (dq_heads, dk_heads, dv_heads))
  | dy_head :: rest =>
      '(fcache, (dq_head, dk_head, dv_head)) <- FSDPAttention_backward fcache dy_head ;;
      backward_heads fcache rest (dq_heads ++ [dq_head]) (dk_heads ++ [dk_head])
                     (dv_heads ++ [dv_head])
  end.

(** [MultiHeadAttention.backward]. *)
Definition MultiHeadAttention_backward {Lin : Type} `{Layer Lin}
           (self : MultiHeadAttention Lin) (dy : tensor3)
  : option (MultiHeadAttention Lin * tensor3) :=
  (* output gradients *)
  '(out_proj, dy) <- backward (out_proj self) dy ;;
  (* split output gradients for each head *)
  let dy_heads := split dy (Z.to_nat (n_heads self)) in
  (* multi head attention gradients: reversed, because of cache order *)
  '(fcache, (dq_heads, dk_heads, dv_heads)) <-
    backward_heads (fcache self) (rev dy_heads) [] [] [] ;;
  (* merge heads *)
  let dq := concat (rev dq_heads) in
  let dk := concat (rev dk_heads) in
  let dv := concat (rev dv_heads) in
  (* input projection gradients *)
  '(query_proj, dx1) <- backward (query_proj self) dq ;;
  '(key_proj, dx2) <- backward (key_proj self) dk ;;
  '(value_proj, dx3) <- backward (value_proj self) dv ;;
  Some (MultiHeadAttention_update self (attn_w self) query_proj key_proj value_proj out_proj
                                  fcache,
        add (add dx1 dx2) dx3).

(** *** [TransformerBlock] *)

Record TransformerBlock (LN Attn Drop FF : Type) : Type := mkBlock {
  ln_1 : LN;
  attn : Attn;
  dropout_1 : Drop;
  ln_2 : LN;
  ffwd : FF;
  dropout_2 : Drop
}.

Arguments mkBlock {LN Attn Drop FF}.
Arguments ln_1 {LN Attn Drop FF}.
Arguments attn {LN Attn Drop FF}.
Arguments dropout_1 {LN Attn Drop FF}.
Arguments ln_2 {LN Attn Drop FF}.
Arguments ffwd {LN Attn Drop FF}.
Arguments dropout_2 {LN Attn Drop FF}.

(** [TransformerBlock.forward]. *)
Definition TransformerBlock_forward {LN Attn Drop FF : Type}
           `{Layer LN} `{Layer Attn} `{Layer Drop} `{Layer FF}
           (self : TransformerBlock LN Attn Drop FF) (x : tensor3)
  : option (TransformerBlock LN Attn Drop FF * tensor3) :=
  '(ln_1, y) <- forward (ln_1 self) x ;;
  '(attn, y) <- forward (attn self) y ;;
  '(dropout_1, y) <- forward (dropout_1 self) y ;;
  let x := add x y in
  '(ln_2, y) <- forward (ln_2 self) x ;;
  '(ffwd, y) <- forward (ffwd self) y ;;
  '(dropout_2, y) <- forward (dropout_2 self) y ;;
  let x := add x y in
  Some (mkBlock ln_1 attn dropout_1 ln_2 ffwd dropout_2, x).

(** [TransformerBlock.backward]. *)
Definition TransformerBlock_backward {LN Attn Drop FF : Type}
           `{Layer LN} `{Layer Attn} `{Layer Drop} `{Layer FF}
           (self : TransformerBlock LN Attn Drop FF) (dy : tensor3)
  : option (TransformerBlock LN Attn Drop FF * tensor3) :=
  '(dropout_2, g) <- backward (dropout_2 self) dy ;;
  '(ffwd, g) <- backward (ffwd self) g ;;
  '(ln_2, g) <- backward (ln_2 self) g ;;
  let dy := add dy g in
  '(dropout_1, g) <- backward (dropout_1 self) dy ;;
  '(attn, g) <- backward (attn self) g ;;
  '(ln_1, g) <- backward (ln_1 self) g ;;
  let dy := add dy g in
  Some (mkBlock ln_1 attn dropout_1 ln_2 ffwd dropout_2, dy).

(** *** [Transformer] *)

Record Transformer (Blk LN : Type) : Type := mkTransformer {
  token_emb : Embedding;
  pos_emb : Embedding;
  blocks : list Blk;
  ln : LN;
  lm_head : LinearModule;
  pos : list (list nat)
}.

Arguments mkTransformer {Blk LN}.
Arguments token_emb {Blk LN}.
Arguments pos_emb {Blk LN}.
Arguments blocks {Blk LN}.
Arguments ln {Blk LN}.
Arguments lm_head {Blk LN}.
Arguments pos {Blk LN}.

(** [ModuleList(TransformerBlock(...) for _ in range(n_blocks))]: the
    constructor is called [n_blocks] times and the first error ends the
    construction. *)
Fixpoint build_blocks {Blk : Type} (new_block : nat -> exn + Blk) (i n : nat)
  : exn + list Blk :=
  match n with
  | O => inr []
  | S n' =>
      match new_block i with
      | inl e => inl e
      | inr b =>
          match build_blocks new_block (S i) n' with
          | inl e => inl e
          | inr bs => inr (b :: bs)
          end
      end
  end.

(** [Transformer.__init__], once the arithmetic on its arguments has
    returned (it is added in [transformer_s_build.Transformer_new]).
    [new_block i] is the [i]-th call of
    the [TransformerBlock] constructor on [block_kwargs], [new_ln] the layer normalisation
    it builds, and the matrices are the values its random initialisers
    draw. *)
Definition Transformer_init {Blk LN : Type} (h : heap)
           (n_blocks max_seq_len : Z) (new_block : nat -> exn + Blk) (new_ln : LN)
           (w_token w_pos w_token_normal w_pos_normal w_head b_head : matrix)
  : exn + (heap * Transformer Blk LN) :=
  (* embeddings *)
  let '(h, token_emb) := Embedding_new h w_token in
  let '(h, pos_emb) := Embedding_new h w_pos in
  let h := set_data h (emb_w token_emb) w_token_normal in
  let h := set_data h (emb_w pos_emb) w_pos_normal in
  (* transformer blocks *)
  match build_blocks new_block 0 (Z.to_nat n_blocks) with
  | inl e => inl e
  | inr blocks =>
      (* language model head *)
      let ln := new_ln in
      let '(h, lm_head) := Linear_new h w_head (Some b_head) in
      let lm_head := mkLinear (emb_w token_emb) (lin_b lm_head) (lin_cache lm_head) in
      let pos := [seq 0 (Z.to_nat max_seq_len)] in
      inr (h, mkTransformer token_emb pos_emb blocks ln lm_head pos)
  end.

(** [for block in self.blocks: x = block(x)]. *)
Fixpoint forward_blocks {Blk : Type} `{Layer Blk} (bs : list Blk) (x : tensor3)
  : option (list Blk * tensor3) :=
  match bs with
  | [] => Some ([], x)
  | b :: rest =>
      '(b, x) <- forward b x ;;
      '(rest, x) <- forward_blocks rest x ;;
      Some (b :: rest, x)
  end.

(** [for module in reversed(self.blocks): dy = module.backward(dy)], on
    the reversed list; the blocks come back in their original order. *)
Fixpoint backward_blocks {Blk : Type} `{Layer Blk} (reversed : list Blk) (dy : tensor3)
  : option (list Blk * tensor3) :=
  match reversed with
  | [] => Some ([], dy)
  | b :: rest =>
      '(b, dy) <- backward b dy ;;
      '(rest, dy) <- backward_blocks rest dy ;;
      Some (rest ++ [b], dy)
  end.

(** [x.shape[-1]] of a rank-2 tensor of indices. *)
Definition last_dim (x : list (list nat)) : nat :=
  match x with
  | [] => 0%nat
  | r :: _ => length r
  end.

(** [Transformer.forward]. *)
Definition Transformer_forward {Blk LN : Type} `{Kernels} `{Layer Blk} `{Layer LN}
           (self : Transformer Blk LN) (x : list (list nat)) (h : heap)
  : option (Transformer Blk LN * tensor3) :=
  let pos_ids := map (firstn (last_dim x)) (pos self) in
  '(token_emb, tok) <- Embedding_forward (token_emb self) (I2 x) h ;;
  '(pos_emb, p) <- Embedding_forward (pos_emb self) (I2 pos_ids) h ;;
  'x <- add_embeddings tok p ;;
  '(blocks, x) <- forward_blocks (blocks self) x ;;
  '(ln, x) <- forward (ln self) x ;;
  '(lm_head, y) <- Linear_forward (lm_head self) x h ;;
  Some (mkTransformer token_emb pos_emb blocks ln lm_head (pos self), y).

(** [Transformer.backward]. *)
Definition Transformer_backward {Blk LN : Type} `{Kernels} `{Layer Blk} `{Layer LN}
           (self : Transformer Blk LN) (dy : tensor3) (h : heap)
  : option (Transformer Blk LN * heap) :=
  '(lm_head, dy, h) <- Linear_backward (lm_head self) dy h ;;
  '(ln, dy) <- backward (ln self) dy ;;
  '(blocks, dy) <- backward_blocks (rev (blocks self)) dy ;;
  '(token_emb, h) <- Embedding_backward (token_emb self) (T3 dy) h ;;
  '(pos_emb, h) <- Embedding_backward (pos_emb self) (T2 (sum_axis0 dy)) h ;;
  Some (mkTransformer token_emb pos_emb blocks ln lm_head (pos self), h).

(** *** [PositionalEncoding] *)

Record PositionalEncoding : Type := mkPE {
  max_seq_len : nat;
  embedding_dim : nat;
  encodings : matrix
}.

(** [arange(n, step=2)]. *)
Definition arange_step2 (n : nat) : vector :=
  map (fun i => INR (2 * i)) (seq 0 ((n + 1) / 2)).

(** [row[start::2] = vals] on one row, for [vals] of the right length. *)
Fixpoint set_strided (start : nat) (row vals : vector) : vector :=
  match row with
  | [] => []
  | x :: row' =>
      match start with
      | O =>
          match vals with
          | v :: vals' => v :: set_strided 1 row' vals'
          | [] => x :: row'
          end
      | S k => x :: set_strided k row' vals
      end
  end.

(** [PositionalEncoding.__init__].  The logarithm raises on a base that
    is not positive, the division on a zero embedding dimension, and the
    assignment to the odd columns on values that do not fit them (their
    number differs and is not one, which would broadcast). *)
Definition PositionalEncoding_init (max_seq_len embedding_dim : nat) (base : R)
  : exn + PositionalEncoding :=
  let encodings := repeat (repeat 0 embedding_dim) max_seq_len in
  let positions := map INR (seq 0 max_seq_len) in
  let emb_range := arange_step2 embedding_dim in
  if Rle_dec base 0 then inl (ValueError "math domain error")
  else if (embedding_dim =? 0)%nat then inl ZeroDivisionError
  else
    let div_term := map (fun e => exp (e * (- (Rpower.ln base / INR embedding_dim)))) emb_range in
    let sines := map (fun p => map (fun d => sin (p * d)) div_term) positions in
    let cosines := map (fun p => map (fun d => cos (p * d)) div_term) positions in
    let encodings := zip_with (set_strided 0) encodings sines in
    if negb ((length div_term =? embedding_dim / 2)%nat || (length div_term =? 1)%nat)
    then inl (ValueError "could not broadcast input array")
    else
      let encodings := zip_with (set_strided 1) encodings cosines in
      inr (mkPE max_seq_len embedding_dim encodings).

(** [PositionalEncoding.forward], on the shape of its input: [None] when
    the input has no axis 1. *)
Definition PositionalEncoding_forward (self : PositionalEncoding) (x_shape : list nat)
  : option matrix :=
  match x_shape with
  | _ :: s1 :: _ => Some (firstn s1 (encodings self))
  | _ => None
  end.

(** [PositionalEncoding.backward]. *)
Definition PositionalEncoding_backward (self : PositionalEncoding) (dy : tensor3)
  : PositionalEncoding * tensor3 :=
  (self, dy).

End transformer_s.

(** ** [transformer.py]: attention returning a gradient closure *)

Module transformer.

Definition grad_fn_t : Type := tensor3 -> tensor3 * tensor3 * tensor3.

(** [scaled_dot_product_attention]. *)
Definition scaled_dot_product_attention (q k v : tensor3) (mask : option smatrix)
           (dropout_p : R) (return_grad_fn : bool) (dmap : tensor3)
  : tensor3 * option grad_fn_t :=
  let scale_factor := Rpower (INR (width q)) (- / 2) in
  let qk := mul_scalar (bmm q (T k)) scale_factor in
  let qk :=
    match mask with
    | Some m => add_mask qk (slice2 (seq_len q) (seq_len q) m)
    | None => finite qk
    end in
  let '(attn_weights, sm_grad_fn) := softmax_fn qk return_grad_fn in
  let '(attn_weights, drouput_grad_fn) :=
    if Rltb 0 dropout_p then dropout_fn attn_weights dropout_p return_grad_fn dmap
    else (attn_weights, None) in
  let y := bmm attn_weights v in
  if return_grad_fn then
    let grad_fn (dy : tensor3) : tensor3 * tensor3 * tensor3 :=
      let dattn_weights := bmm dy (T v) in
      let dattn_weights :=
        if Rltb 0 dropout_p then call drouput_grad_fn dattn_weights else dattn_weights in
      let dqk := mul_scalar (call sm_grad_fn dattn_weights) scale_factor in
      let dq := bmm dqk k in
      let dk := bmm (T dqk) q in
      let dv := bmm (T attn_weights) dy in
      (dq, dk, dv) in
    (y, Some grad_fn)
  else (y, None).

(** What this version of the library offers for [Linear] and [Dropout]:
    the two passes, the constructors (the last argument is the training
    flag) and the replacement of a weight, [lin.w = Parameter(w)]. *)
Class LinearAPI (Lin : Type) : Type := {
  LinearAPI_layer :: Layer Lin;
  Linear : Z -> Z -> bool -> string -> bool -> Lin;
  set_w : Lin -> matrix -> Lin
}.

Class DropoutAPI (Drop : Type) : Type := {
  DropoutAPI_layer :: Layer Drop;
  Dropout : R -> bool -> Drop
}.

(** *** [MultiHeadAttention] *)

Record MultiHeadAttention (Lin Drop : Type) : Type := mkMHA {
  n_heads : Z;
  mask : option smatrix;
  dropout_p : R;
  query : Lin;
  key : Lin;
  value : Lin;
  out_proj : Lin;
  dropout : option Drop;
  (* attributes of the [Module] base class *)
  training : bool;
  (* the closure [_backward] set by the last training-mode forward, given
     by the list of head gradient functions it captured *)
  _backward : option (list (option grad_fn_t))
}.

Arguments mkMHA {Lin Drop}.
Arguments n_heads {Lin Drop}.
Arguments mask {Lin Drop}.
Arguments dropout_p {Lin Drop}.
Arguments query {Lin Drop}.
Arguments key {Lin Drop}.
Arguments value {Lin Drop}.
Arguments out_proj {Lin Drop}.
Arguments dropout {Lin Drop}.
Arguments training {Lin Drop}.
Arguments _backward {Lin Drop}.

(** [MultiHeadAttention.__init__]; [w] is the sampled weight of the
    output projection. *)
Definition MultiHeadAttention_init {Lin Drop : Type} `{LinearAPI Lin} `{DropoutAPI Drop}
           (in_channels n_heads : Z) (mask : option smatrix) (dropout_p : R) (bias : bool)
           (training : bool) (w : matrix)
  : exn + MultiHeadAttention Lin Drop :=
  match py_mod in_channels n_heads with
  | inl e => inl e
  | inr r =>
      if negb (r =? 0)%Z then
        inl (ValueError "Number of input channels must be divisible by number of heads.")
      else
        (* input projection *)
        let query := Linear in_channels in_channels bias "QueryProj" training in
        let key := Linear in_channels in_channels bias "KeyProj" training in
        let value := Linear in_channels in_channels bias "ValueProj" training in
        (* output projection *)
        let out_proj := Linear in_channels in_channels bias "OutProj" training in
        let out_proj := set_w out_proj w in
        (* optional dropout *)
        let dropout := if Rltb 0 dropout_p then Some (Dropout dropout_p training) else None in
        inr (mkMHA n_heads mask dropout_p query key value out_proj dropout training None)
  end.

Definition MultiHeadAttention_update {Lin Drop : Type} (self : MultiHeadAttention Lin Drop)
           (query key value out_proj : Lin) (dropout : option Drop)
           (_backward : option (list (option grad_fn_t))) : MultiHeadAttention Lin Drop :=
  mkMHA (n_heads self) (mask self) (dropout_p self) query key value out_proj dropout
        (training self) _backward.

(** The loop over the heads in [MultiHeadAttention.forward]. *)
Fixpoint forward_heads (mask : option smatrix) (sdp_dropout_p : R) (training : bool)
         (rng : nat -> tensor3) (i : nat) (heads : list (tensor3 * (tensor3 * tensor3)))
         (head_grad_functions : list (option grad_fn_t)) (ys : list tensor3)
  : list (option grad_fn_t) * list tensor3 :=
  match heads with
  | [] => (head_grad_functions, ys)
  | (q_head, (k_head, v_head)) :: rest =>
      let '(y_head, attn_grad_fn) :=
        scaled_dot_product_attention q_head k_head v_head mask sdp_dropout_p training (rng i) in
      forward_heads mask sdp_dropout_p training rng (S i) rest
                    (head_grad_functions ++ [attn_grad_fn]) (ys ++ [y_head])
  end.

(** Applying the optional dropout layer, in either direction. *)
Definition through_dropout {Drop : Type}
           (pass : Drop -> tensor3 -> option (Drop * tensor3))
           (dropout : option Drop) (y : tensor3) : option (option Drop * tensor3) :=
  match dropout with
  | Some d => '(d, y) <- pass d y ;; Some (Some d, y)
  | None => None
  end.

(** [MultiHeadAttention.forward]. *)
Definition MultiHeadAttention_forward {Lin Drop : Type} `{Layer Lin} `{Layer Drop}
           (self : MultiHeadAttention Lin Drop) (x : tensor3) (rng : nat -> tensor3)
  : option (MultiHeadAttention Lin Drop * tensor3) :=
  let sdp_dropout_p := if training self then dropout_p self else 0 in
  (* input projection (B, S, C_in) -> (B, S, C_in) *)
  '(query, q) <- forward (query self) x ;;
  '(key, k) <- forward (key self) x ;;
  '(value, v) <- forward (value self) x ;;
  (* split projections into heads *)
  let q_heads := split q (Z.to_nat (n_heads self)) in
  let k_heads := split k (Z.to_nat (n_heads self)) in
  let v_heads := split v (Z.to_nat (n_heads self)) in
  (* multi head attention *)
  let '(head_grad_functions, ys) :=
    forward_heads (mask self) sdp_dropout_p (training self) rng 0
                  (combine q_heads (combine k_heads v_heads)) [] [] in
  let y := concat ys in
  (* output projection *)
  '(out_proj, y) <- forward (out_proj self) y ;;
  '(dropout, y) <- (if Rltb 0 (dropout_p self) then through_dropout forward (dropout self) y
                    else Some (dropout self, y)) ;;
  let _backward := if training self then Some head_grad_functions else _backward self in
  Some (MultiHeadAttention_update self query key value out_proj dropout _backward, y).

(** The loop over the heads in [_backward]; the three lists grow by
    [append]. *)
Fixpoint backward_heads (calls : list (option grad_fn_t * tensor3))
         (dq_heads dk_heads dv_heads : list tensor3)
  : option (list tensor3 * list tensor3 * list tensor3) :=
  match calls with
  | [] => Some (dq_heads, dk_heads, dv_heads)
  | (Some grad_fn, dy_head) :: rest =>
      let '(dq_head, dk_head, dv_head) := grad_fn dy_head in
      backward_heads rest (dq_heads ++ [dq_head]) (dk_heads ++ [dk_head])
                     (dv_heads ++ [dv_head])
  | (None, _) :: _ => None
  end.

(** [MultiHeadAttention.backward]: runs the closure [_backward] set by
    the last training-mode forward. *)
Definition MultiHeadAttention_backward {Lin Drop : Type} `{Layer Lin} `{Layer Drop}
           (self : MultiHeadAttention Lin Drop) (dy : tensor3)
  : option (MultiHeadAttention Lin Drop * tensor3) :=
  match _backward self with
  | None => None
  | Some head_grad_functions =>
      '(dropout, dy) <- (if Rltb 0 (dropout_p self)
                         then through_dropout backward (dropout self) dy
                         else Some (dropout self, dy)) ;;
      '(out_proj, dy) <- backward (out_proj self) dy ;;
      let dy_splits := split dy (Z.to_nat (n_heads self)) in
      '(dq_heads, dk_heads, dv_heads) <-
        backward_heads (combine head_grad_functions dy_splits) [] [] [] ;;
      let dq := concat dq_heads in
      let dk := concat dk_heads in
      let dv := concat dv_heads in
      '(query, dx1) <- backward (query self) dq ;;
      '(key, dx2) <- backward (key self) dk ;;
      '(value, dx3) <- backward (value self) dv ;;
      Some (MultiHeadAttention_update self query key value out_proj dropout
                                      (_backward self),
            add (add dx1 dx2) dx3)
  end.

(** *** [TransformerBlock]

    [Sequential(Residual(Layernorm, MultiHeadAttention),
                Residual(Layernorm, FeedForward))], over the children
    built by [__init__]. *)

Definition TransformerBlock_t (LN Attn FF : Type) : Type :=
  Sequential (Residual (Sequential LN Attn)) (Residual (Sequential LN FF)).

Definition TransformerBlock {LN Attn FF : Type} (ln_1 : LN) (attn : Attn) (ln_2 : LN) (ffwd : FF)
  : TransformerBlock_t LN Attn FF :=
  let attention_block := mkResidual (mkSequential ln_1 attn) in
  let feedforward_block := mkResidual (mkSequential ln_2 ffwd) in
  mkSequential attention_block feedforward_block.

(** *** [Transformer] *)

Record Transformer (Blk LN : Type) : Type := mkTransformer {
  token_emb : Embedding;
  pos_emb : Embedding;
  blocks : list Blk;
  ln : LN;
  lm_head : LinearModule;
  (* the closure [_backward] set by the last forward, given by the
     variable [x] it captured *)
  Transformer_backward_closure : option tensor3
}.

Arguments mkTransformer {Blk LN}.
Arguments token_emb {Blk LN}.
Arguments pos_emb {Blk LN}.
Arguments blocks {Blk LN}.
Arguments ln {Blk LN}.
Arguments lm_head {Blk LN}.
Arguments Transformer_backward_closure {Blk LN}.

(** [Transformer.__init__], once the arithmetic on its arguments has
    returned (it is added in [transformer_build.Transformer_new]).
    [new_block i] is the [i]-th call of the
    [TransformerBlock] constructor on [block_kwargs], [new_ln] the layer
    normalisation it builds, and the matrices are the values its random
    initialisers draw. *)
Definition Transformer_init {Blk LN : Type} (h : heap)
           (n_layers : Z) (new_block : nat -> exn + Blk) (new_ln : LN)
           (w_token w_token_normal w_pos w_pos_normal w_head : matrix)
  : exn + (heap * Transformer Blk LN) :=
  (* embeddings *)
  let '(h, token_emb) := Embedding_new h w_token in
  let '(h, r) := alloc h w_token_normal in
  let token_emb := mkEmbedding r (emb_cache token_emb) in
  let '(h, pos_emb) := Embedding_new h w_pos in
  let '(h, r) := alloc h w_pos_normal in
  let pos_emb := mkEmbedding r (emb_cache pos_emb) in
  (* transformer blocks *)
  match transformer_s.build_blocks new_block 0 (Z.to_nat n_layers) with
  | inl e => inl e
  | inr blocks =>
      (* language model head *)
      let ln := new_ln in
      let '(h, lm_head) := Linear_new h w_head None in
      let lm_head := mkLinear (emb_w token_emb) (lin_b lm_head) (lin_cache lm_head) in
      inr (h, mkTransformer token_emb pos_emb blocks ln lm_head None)
  end.

(** [Transformer.forward]; it also sets the closure [_backward]. *)
Definition Transformer_forward {Blk LN : Type} `{Kernels} `{Layer Blk} `{Layer LN}
           (self : Transformer Blk LN) (x : list (list nat)) (h : heap)
  : option (Transformer Blk LN * tensor3) :=
  let pos := seq 0 (transformer_s.last_dim x) in
  '(token_emb, tok) <- Embedding_forward (token_emb self) (I2 x) h ;;
  '(pos_emb, p) <- Embedding_forward (pos_emb self) (I1 pos) h ;;
  'x <- add_embeddings tok p ;;
  '(blocks, x) <- transformer_s.forward_blocks (blocks self) x ;;
  '(ln, xn) <- forward (ln self) x ;;
  '(lm_head, y) <- Linear_forward (lm_head self) xn h ;;
  Some (mkTransformer token_emb pos_emb blocks ln lm_head (Some x), y).

(** [Transformer.backward]: runs the closure [_backward] set by the last
    forward; its result is a dummy tensor of zeros. *)
Definition Transformer_backward {Blk LN : Type} `{Kernels} `{Layer Blk} `{Layer LN}
           (self : Transformer Blk LN) (dy : tensor3) (h : heap)
  : option (Transformer Blk LN * tensor3 * heap) :=
  match Transformer_backward_closure self with
  | None => None
  | Some x =>
      '(lm_head, dy, h) <- Linear_backward (lm_head self) dy h ;;
      '(ln, dy) <- backward (ln self) dy ;;
      '(blocks, dy) <- transformer_s.backward_blocks (rev (blocks self)) dy ;;
      '(token_emb, h) <- Embedding_backward (token_emb self) (T3 dy) h ;;
      '(pos_emb, h) <- Embedding_backward (pos_emb self) (T3 dy) h ;;
      Some (mkTransformer token_emb pos_emb blocks ln lm_head (Some x), zeros_like x, h)
  end.

End transformer.

(* ================================================================== *)
(** * Part II: lemmas and theorems *)
(* ================================================================== *)

(** ** Lists and rows *)

Section ListFacts.

Context {A B C : Type}.

Lemma zip_with_length (f : A -> B -> C) (a : list A) (b : list B) :
  length (zip_with f a b) = Nat.min (length a) (length b).
Proof.
  revert b; induction a as [|x a IH]; intros [|y b]; simpl; auto.
Qed.

Lemma zip_with_firstn_r (f : A -> B -> C) (a : list A) (b : list B) :
  zip_with f a b = zip_with f a (firstn (length a) b).
Proof.
  revert b; induction a as [|x a IH]; intros [|y b]; simpl; auto.
  now rewrite <- IH.
Qed.

Lemma zip_with_app (f : A -> B -> C) (a1 a2 : list A) (b1 b2 : list B) :
  length a1 = length b1 ->
  zip_with f (a1 ++ a2) (b1 ++ b2) = zip_with f a1 b1 ++ zip_with f a2 b2.
Proof.
  revert b1; induction a1 as [|x a1 IH]; intros [|y b1] Hl; simpl in *; try discriminate; auto.
  f_equal; apply IH; lia.
Qed.

Lemma firstn_zip_with (f : A -> B -> C) (n : nat) (a : list A) (b : list B) :
  firstn n (zip_with f a b) = zip_with f (firstn n a) (firstn n b).
Proof.
  revert a b; induction n as [|n IH]; intros [|x a] [|y b]; simpl; auto.
  now rewrite IH.
Qed.

Lemma mapi_from_map_seq (f : nat -> A -> B) (k : nat) (l : list A) :
  mapi_from k f l = zip_with f (seq k (length l)) l.
Proof.
  revert k; induction l as [|x l IH]; intros k; simpl; auto.
  now rewrite IH.
Qed.

End ListFacts.

Lemma zip_with_repeat_r {A B C : Type} (f : A -> B -> C) (a : list A) (y : B) (n : nat) :
  length a = n -> zip_with f a (repeat y n) = map (fun x => f x y) a.
Proof.
  revert n; induction a as [|x a IH]; intros [|n] Hl; simpl in *; try discriminate; auto.
  f_equal; apply IH; lia.
Qed.

Lemma zip_with_seq_repeat {B C : Type} (f : nat -> B -> C) (k n : nat) (y : B) :
  zip_with f (seq k n) (repeat y n) = map (fun j => f j y) (seq k n).
Proof.
  apply zip_with_repeat_r. apply length_seq.
Qed.

Lemma firstn_seq (n s l : nat) : firstn n (seq s l) = seq s (Nat.min n l).
Proof.
  revert s l; induction n as [|n IH]; intros s [|l]; simpl; auto.
  now rewrite IH.
Qed.

Lemma sum_app (a b : vector) : compyute.sum (a ++ b) = compyute.sum a + compyute.sum b.
Proof.
  unfold compyute.sum; induction a as [|x a IH]; simpl; [lra | rewrite IH; lra].
Qed.

Lemma sum_repeat_0 (n : nat) : compyute.sum (repeat 0 n) = 0.
Proof.
  unfold compyute.sum; induction n as [|n IH]; simpl; [reflexivity | rewrite IH; lra].
Qed.

Lemma dot_zero_tail (a c : vector) (m : nat) : dot (a ++ repeat 0 m) c = dot a c.
Proof.
  unfold dot. revert c; induction a as [|x a IH]; intros c; simpl.
  - revert c; induction m as [|m IHm]; intros [|y c]; simpl; auto.
    rewrite IHm. unfold compyute.sum; simpl; lra.
  - destruct c as [|y c]; simpl; auto.
    unfold compyute.sum in *; simpl. now rewrite IH.
Qed.

Lemma dot_firstn (a c : vector) (n : nat) :
  (length a <= n)%nat -> dot a c = dot a (firstn n c).
Proof.
  intros Hn. unfold dot.
  rewrite (zip_with_firstn_r Rmult a c), (zip_with_firstn_r Rmult a (firstn n c)).
  now rewrite firstn_firstn, Nat.min_l.
Qed.

Lemma col_firstn (j n : nat) (m : matrix) : firstn n (col j m) = col j (firstn n m).
Proof.
  unfold col. now rewrite firstn_map.
Qed.

Lemma map_nth_seq {A : Type} (l : list A) (d : A) :
  map (fun i => nth i l d) (seq 0 (length l)) = l.
Proof.
  induction l as [|x l IH]; simpl; auto.
  f_equal. rewrite <- seq_shift, map_map. exact IH.
Qed.

Lemma is_matrix_spec {A : Type} (r c : nat) (m : list (list A)) :
  is_matrix r c m = true <-> length m = r /\ Forall (fun row => length row = c) m.
Proof.
  unfold is_matrix. rewrite andb_true_iff, Nat.eqb_eq, forallb_forall, Forall_forall.
  split; intros [H1 H2]; split; auto; intros x Hx; specialize (H2 x Hx);
    now apply Nat.eqb_eq.
Qed.

Lemma is_matrix_firstn {A : Type} (r c n : nat) (m : list (list A)) :
  is_matrix r c m = true -> is_matrix (Nat.min n r) c (firstn n m) = true.
Proof.
  rewrite !is_matrix_spec. intros [H1 H2]. split.
  - rewrite length_firstn. lia.
  - rewrite Forall_forall in *. intros x Hx. apply H2.
    rewrite <- (firstn_skipn n m). apply in_or_app; now left.
Qed.

(** ** Matrix products *)

Lemma col_transpose (k : matrix) (h j : nat) :
  Forall (fun row => length row = h) k -> (j < length k)%nat ->
  ncols k = h -> col j (transpose k) = nth j k [].
Proof.
  intros Hrows Hj Hc. unfold transpose, col. rewrite map_map, Hc.
  assert (Hlen : length (nth j k []) = h).
  { rewrite Forall_forall in Hrows. apply Hrows. now apply nth_In. }
  rewrite <- (map_nth_seq (nth j k []) 0) at 1. rewrite Hlen.
  apply map_ext. intros c.
  pose proof (map_nth (fun r : vector => nth c r 0) k [] j) as E.
  cbv beta in E. rewrite <- E. f_equal. destruct c; reflexivity.
Qed.

Lemma matmul_transpose (s h : nat) (q k : matrix) :
  is_matrix s h k = true -> (0 < h)%nat ->
  matmul q (transpose k) = map (fun r => map (dot r) k) q.
Proof.
  intros Hk Hh. apply is_matrix_spec in Hk. destruct Hk as [Hlen Hrows].
  unfold matmul. apply map_ext. intros r.
  destruct k as [|k0 k'].
  - reflexivity.
  - assert (Hc : ncols (k0 :: k') = h) by (inversion Hrows; subst; reflexivity).
    assert (Hn : ncols (transpose (k0 :: k')) = length (k0 :: k')).
    { unfold transpose. rewrite Hc. destruct h as [|h]; [lia|].
      cbn [seq map ncols]. unfold col. now rewrite length_map. }
    rewrite Hn.
    transitivity (map (dot r) (map (fun j => nth j (k0 :: k') []) (seq 0 (length (k0 :: k'))))).
    + rewrite map_map. apply map_ext_in. intros j Hj. apply in_seq in Hj.
      f_equal. apply col_transpose with (h := h); auto. lia.
    + now rewrite map_nth_seq.
Qed.

(** ** The causal mask *)

Definition causal_entry (i j : nat) : score :=
  if (1 <=? Z.of_nat j - Z.of_nat i)%Z then NegInf else Fin 0.

Lemma get_causal_mask_entries (a b : nat) :
  transformer_s.get_causal_mask (a, b) =
  map (fun i => map (causal_entry i) (seq 0 b)) (seq 0 a).
Proof.
  unfold transformer_s.get_causal_mask, triu, full, mapi; simpl fst; simpl snd.
  rewrite mapi_from_map_seq, repeat_length, zip_with_seq_repeat.
  apply map_ext. intros i.
  rewrite mapi_from_map_seq, repeat_length, zip_with_seq_repeat.
  reflexivity.
Qed.

Lemma causal_mask_slice (a b s : nat) :
  (s <= a)%nat -> (s <= b)%nat ->
  slice2 s s (transformer_s.get_causal_mask (a, b)) = transformer_s.get_causal_mask (s, s).
Proof.
  intros Ha Hb. rewrite !get_causal_mask_entries. unfold slice2.
  rewrite firstn_map, firstn_seq, Nat.min_l by lia. rewrite map_map.
  apply map_ext. intros i. now rewrite firstn_map, firstn_seq, Nat.min_l by lia.
Qed.

Lemma causal_row_split (i s : nat) :
  (i < s)%nat ->
  map (causal_entry i) (seq 0 s) = repeat (Fin 0) (S i) ++ repeat NegInf (s - S i).
Proof.
  intros Hi. replace s with (S i + (s - S i))%nat at 1 by lia.
  rewrite seq_app, map_app. f_equal.
  - transitivity (map (fun _ : nat => Fin 0) (seq 0 (S i))).
    + apply map_ext_in. intros j Hj. apply in_seq in Hj. unfold causal_entry.
      destruct (Z.leb_spec 1 (Z.of_nat j - Z.of_nat i)); [lia | reflexivity].
    + now rewrite map_const, length_seq.
  - transitivity (map (fun _ : nat => NegInf) (seq (0 + S i) (s - S i))).
    + apply map_ext_in. intros j Hj. apply in_seq in Hj. unfold causal_entry.
      destruct (Z.leb_spec 1 (Z.of_nat j - Z.of_nat i)); [reflexivity | lia].
    + now rewrite map_const, length_seq.
Qed.

Lemma zip_with_map {A A' B B' C : Type} (f : A' -> B' -> C) (g : A -> A') (h : B -> B')
      (a : list A) (b : list B) :
  zip_with f (map g a) (map h b) = zip_with (fun x y => f (g x) (h y)) a b.
Proof.
  revert b; induction a as [|x a IH]; intros [|y b]; simpl; auto.
  now rewrite IH.
Qed.

Lemma map_zip_with {A B C D : Type} (g : C -> D) (f : A -> B -> C) (a : list A) (b : list B) :
  map g (zip_with f a b) = zip_with (fun x y => g (f x y)) a b.
Proof.
  revert b; induction a as [|x a IH]; intros [|y b]; simpl; auto.
  now rewrite IH.
Qed.

Lemma zip_with_ext_in {A B C : Type} (f g : A -> B -> C) (a : list A) (b : list B) :
  (forall x y, In x a -> In y b -> f x y = g x y) -> zip_with f a b = zip_with g a b.
Proof.
  revert b; induction a as [|x a IH]; intros [|y b] H; simpl; auto.
  f_equal; [apply H; now left | apply IH; intros; apply H; now right].
Qed.

Lemma Forall_zip_with {A B C : Type} (P : C -> Prop) (f : A -> B -> C) (a : list A) (b : list B) :
  (forall x y, In x a -> In y b -> P (f x y)) -> Forall P (zip_with f a b).
Proof.
  revert b; induction a as [|x a IH]; intros [|y b] H; simpl; auto.
  constructor; [apply H; now left | apply IH; intros; apply H; now right].
Qed.

Lemma Forall_zip_with_l {A B : Type} (P : A -> Prop) (f : A -> B -> A) (a : list A) (b : list B) :
  Forall P a -> (forall x y, P x -> P (f x y)) -> Forall P (zip_with f a b).
Proof.
  intros Ha Hf. revert b; induction Ha as [|x a Hx Ha IH]; intros [|y b]; simpl; auto.
Qed.

(** ** Softmax on a row with a masked tail *)

Lemma row_max_masked_tail (u : list score) (m : nat) :
  row_max (u ++ repeat NegInf m) = row_max u.
Proof.
  unfold row_max. induction u as [|x u IH]; simpl.
  - induction m as [|m IHm]; simpl; auto.
  - now rewrite IH.
Qed.

Lemma softmax_row_masked_tail (u : list score) (m : nat) :
  softmax_row (u ++ repeat NegInf m) = softmax_row u ++ repeat 0 m.
Proof.
  unfold softmax_row. rewrite row_max_masked_tail, !map_app.
  assert (E : map (exp_shift (row_max u)) (repeat NegInf m) = repeat 0 m).
  { rewrite map_repeat. f_equal. now destruct (row_max u). }
  rewrite E, sum_app, sum_repeat_0, Rplus_0_r, map_repeat.
  do 2 f_equal. unfold Rdiv. apply Rmult_0_l.
Qed.

(** A row whose entries from position [n] on are zero. *)
Definition tail_zero (n : nat) (w : vector) : Prop :=
  forall j, (n <= j)%nat -> nth j w 0 = 0.

Lemma tail_zero_app (u : vector) (m n : nat) :
  (length u <= n)%nat -> tail_zero n (u ++ repeat 0 m).
Proof.
  intros Hu j Hj. rewrite app_nth2 by lia. apply nth_repeat.
Qed.

Lemma tail_zero_cons (n : nat) (x : R) (w : vector) :
  tail_zero (S n) (x :: w) -> tail_zero n w.
Proof.
  intros H j Hj. apply (H (S j)). lia.
Qed.

Lemma tail_zero_zip_mult (n : nat) (w d : vector) :
  tail_zero n w -> tail_zero n (zip_with Rmult w d).
Proof.
  revert w d; induction n as [|n IH]; intros w d H.
  - revert d H; induction w as [|x w IHw]; intros [|y d] H j Hj; simpl;
      try (destruct j; reflexivity).
    destruct j as [|j].
    + pose proof (H 0%nat Hj) as H0. simpl in H0. subst x. apply Rmult_0_l.
    + apply IHw; [|lia]. intros i Hi. apply (H (S i)). lia.
  - destruct w as [|x w], d as [|y d]; simpl; intros j Hj; try (destruct j; reflexivity).
    destruct j as [|j]; [lia|]. apply IH; [|lia]. eapply tail_zero_cons; eauto.
Qed.

Lemma dot_tail_zero (n : nat) (w c : vector) :
  tail_zero n w -> dot w c = dot w (firstn n c).
Proof.
  unfold dot. revert w c; induction n as [|n IH]; intros w c H.
  - simpl. replace (zip_with Rmult w []) with (@nil R) by (destruct w; reflexivity).
    revert c; induction w as [|x w IHw]; intros [|y c]; simpl; auto.
    pose proof (H 0%nat (le_n _)) as H0. simpl in H0. subst x.
    unfold compyute.sum in *; simpl. rewrite IHw.
    + simpl. lra.
    + intros i Hi. apply (H (S i)). lia.
  - destruct w as [|x w], c as [|y c]; simpl; auto.
    unfold compyute.sum in *; simpl. f_equal. apply IH. eapply tail_zero_cons; eauto.
Qed.

(** ** One batch entry of causal attention *)

Definition apply_drop (drop : option matrix) (w : matrix) : matrix :=
  match drop with
  | Some d => zip_with (zip_with Rmult) w d
  | None => w
  end.

Definition causal_weights (c : R) (s : nat) (q k : matrix) : matrix :=
  map softmax_row
      (zip_with (zip_with sadd) (map (map (fun a => a / c)) (matmul q (transpose k)))
                (transformer_s.get_causal_mask (s, s))).

Definition head_out (c : R) (s : nat) (drop : option matrix) (q k v : matrix) : matrix :=
  matmul (apply_drop drop (causal_weights c s q k)) v.

Lemma masked_row_canon (xrow : vector) (i s : nat) :
  length xrow = s -> (i < s)%nat ->
  zip_with sadd xrow (map (causal_entry i) (seq 0 s)) =
  map (fun x => Fin (x + 0)) (firstn (S i) xrow) ++ repeat NegInf (s - S i).
Proof.
  intros Hl Hi. rewrite causal_row_split by assumption.
  rewrite <- (firstn_skipn (S i) xrow) at 1.
  rewrite zip_with_app by (rewrite length_firstn, repeat_length; lia).
  f_equal.
  - apply zip_with_repeat_r. rewrite length_firstn. lia.
  - rewrite zip_with_repeat_r by (rewrite length_skipn; lia).
    cbn [sadd]. rewrite map_const, length_skipn. f_equal. lia.
Qed.

Definition canon_weight_row (c : R) (s : nat) (kn : matrix) (r : vector) (i : nat) : vector :=
  softmax_row (map (fun x => Fin (x + 0)) (map (fun a => a / c) (map (dot r) (firstn (S i) kn))))
  ++ repeat 0 (s - S i).

Lemma causal_weights_prefix (c : R) (s h n : nat) (q k : matrix) :
  is_matrix s h k = true -> (0 < h)%nat -> (n <= s)%nat ->
  firstn n (causal_weights c s q k) =
  zip_with (canon_weight_row c s (firstn n k)) (firstn n q) (seq 0 n).
Proof.
  intros Hk Hh Hn. unfold causal_weights.
  rewrite matmul_transpose with (s := s) (h := h) by assumption.
  rewrite get_causal_mask_entries.
  pose proof (proj1 (is_matrix_spec s h k) Hk) as [Hlen _].
  rewrite firstn_map, firstn_zip_with, !firstn_map, firstn_seq, Nat.min_l by lia.
  rewrite map_map, zip_with_map, map_zip_with.
  apply zip_with_ext_in. intros r i _ Hi. apply in_seq in Hi.
  rewrite masked_row_canon by (rewrite ?length_map; lia).
  rewrite softmax_row_masked_tail. unfold canon_weight_row.
  rewrite !firstn_map, firstn_firstn, Nat.min_l by lia. reflexivity.
Qed.

Lemma canon_weight_row_tail (c : R) (s n : nat) (kn : matrix) (r : vector) (i : nat) :
  (i < n)%nat -> tail_zero n (canon_weight_row c s kn r i).
Proof.
  intros Hi. unfold canon_weight_row. apply tail_zero_app.
  unfold softmax_row. rewrite !length_map, length_firstn. lia.
Qed.

Lemma ncols_is_matrix {A : Type} (s h : nat) (m : list (list A)) :
  is_matrix s h m = true -> (0 < s)%nat -> ncols m = h.
Proof.
  intros Hm Hs. apply is_matrix_spec in Hm. destruct Hm as [Hl Hr].
  destruct m as [|r m]; simpl in *; [lia | now inversion Hr].
Qed.

Lemma rows_times_prefix (n h : nat) (w v1 v2 : matrix) :
  Forall (tail_zero n) w -> firstn n v1 = firstn n v2 ->
  map (fun r => map (fun j => dot r (col j v1)) (seq 0 h)) w =
  map (fun r => map (fun j => dot r (col j v2)) (seq 0 h)) w.
Proof.
  intros Hw Hv. apply map_ext_in. intros r Hr. apply map_ext. intros j.
  rewrite Forall_forall in Hw.
  rewrite (dot_tail_zero n r (col j v1) (Hw r Hr)), (dot_tail_zero n r (col j v2) (Hw r Hr)).
  now rewrite !col_firstn, Hv.
Qed.

Lemma head_noninterference (c : R) (s h n : nat) (drop : option matrix)
      (q1 k1 v1 q2 k2 v2 : matrix) :
  is_matrix s h k1 = true -> is_matrix s h k2 = true ->
  is_matrix s h v1 = true -> is_matrix s h v2 = true ->
  (0 < h)%nat -> (n <= s)%nat ->
  firstn n q1 = firstn n q2 -> firstn n k1 = firstn n k2 -> firstn n v1 = firstn n v2 ->
  firstn n (head_out c s drop q1 k1 v1) = firstn n (head_out c s drop q2 k2 v2).
Proof.
  intros Hk1 Hk2 Hv1 Hv2 Hh Hn Eq Ek Ev.
  destruct (Nat.eq_dec s 0) as [->|Hs].
  { assert (n = 0%nat) by lia. subst n. reflexivity. }
  unfold head_out, matmul.
  rewrite (ncols_is_matrix s h v1 Hv1), (ncols_is_matrix s h v2 Hv2) by lia.
  rewrite !firstn_map.
  assert (Hw : forall k, Forall (tail_zero n)
                 (zip_with (canon_weight_row c s (firstn n k)) (firstn n q2) (seq 0 n))).
  { intros k. apply Forall_zip_with. intros r i _ Hi. apply in_seq in Hi.
    apply canon_weight_row_tail. lia. }
  destruct drop as [d|]; unfold apply_drop.
  - rewrite !firstn_zip_with.
    rewrite !causal_weights_prefix with (h := h) by assumption.
    rewrite Eq, Ek. apply rows_times_prefix with (n := n); [|assumption].
    apply Forall_zip_with_l; [apply Hw|]. intros x y Hx. now apply tail_zero_zip_mult.
  - rewrite !causal_weights_prefix with (h := h) by assumption.
    rewrite Eq, Ek. apply rows_times_prefix with (n := n); [apply Hw | assumption].
Qed.

Lemma firstn_min_le {A : Type} (n s : nat) (l : list A) :
  (length l <= s)%nat -> firstn n l = firstn (Nat.min n s) l.
Proof.
  intros Hl. destruct (Nat.le_ge_cases n s) as [H|H].
  - now rewrite Nat.min_l.
  - rewrite Nat.min_r by assumption. rewrite !firstn_all2 by lia. reflexivity.
Qed.

Lemma head_out_length (c : R) (s : nat) (drop : option matrix) (q k v : matrix) :
  (length (head_out c s drop q k v) <= s)%nat.
Proof.
  unfold head_out, matmul, apply_drop, causal_weights.
  rewrite get_causal_mask_entries, length_map.
  destruct drop; rewrite ?zip_with_length, ?length_map, ?zip_with_length, ?length_map, length_seq; lia.
Qed.

Lemma head_noninterference_any (c : R) (s h n : nat) (drop : option matrix)
      (q1 k1 v1 q2 k2 v2 : matrix) :
  is_matrix s h q1 = true -> is_matrix s h q2 = true ->
  is_matrix s h k1 = true -> is_matrix s h k2 = true ->
  is_matrix s h v1 = true -> is_matrix s h v2 = true ->
  (0 < h)%nat ->
  firstn n q1 = firstn n q2 -> firstn n k1 = firstn n k2 -> firstn n v1 = firstn n v2 ->
  firstn n (head_out c s drop q1 k1 v1) = firstn n (head_out c s drop q2 k2 v2).
Proof.
  intros Hq1 Hq2 Hk1 Hk2 Hv1 Hv2 Hh Eq Ek Ev.
  assert (L : forall m : matrix, is_matrix s h m = true -> (length m <= s)%nat).
  { intros m Hm. apply is_matrix_spec in Hm. lia. }
  rewrite (firstn_min_le n s (head_out c s drop q1 k1 v1)) by apply head_out_length.
  rewrite (firstn_min_le n s (head_out c s drop q2 k2 v2)) by apply head_out_length.
  rewrite (firstn_min_le n s q1), (firstn_min_le n s q2) in Eq by auto.
  rewrite (firstn_min_le n s k1), (firstn_min_le n s k2) in Ek by auto.
  rewrite (firstn_min_le n s v1), (firstn_min_le n s v2) in Ev by auto.
  apply head_noninterference with (h := h); auto. apply Nat.le_min_r.
Qed.

(** ** The attention output, batch entry by batch entry *)

Definition drop_stage (drop : option tensor3) (w : tensor3) : tensor3 :=
  match drop with
  | Some d => mul w d
  | None => w
  end.

Definition attention_out (scores : tensor3) (mask : option smatrix) (drop : option tensor3)
           (v : tensor3) : tensor3 :=
  bmm (drop_stage drop
         (softmax (match mask with
                   | Some m => add_mask scores m
                   | None => finite scores
                   end))) v.

Lemma FSDPAttention_forward_output cache q k v mask p ret dmap :
  fst (snd (transformer_s.FSDPAttention_forward cache q k v mask p ret dmap)) =
  attention_out (div_scalar (bmm q (T k)) (sqrt (INR (width q))))
                (option_map (slice2 (seq_len q) (seq_len q)) mask)
                (if Rltb 0 p then Some dmap else None) v.
Proof.
  unfold transformer_s.FSDPAttention_forward, attention_out, FSoftmax_forward, FDropout_forward.
  destruct mask, (Rltb 0 p); reflexivity.
Qed.

Lemma has_shape_cons (b s h : nat) (m : matrix) (x : tensor3) :
  has_shape (S b) s h (m :: x) = true <-> is_matrix s h m = true /\ has_shape b s h x = true.
Proof.
  unfold has_shape. simpl. rewrite !andb_true_iff. tauto.
Qed.

Lemma has_shape_inv (b s h : nat) (x : tensor3) :
  has_shape b s h x = true ->
  match b with
  | O => x = []
  | S b' => exists m x', x = m :: x' /\ is_matrix s h m = true /\ has_shape b' s h x' = true
  end.
Proof.
  intros H. destruct b as [|b], x as [|m x]; try (unfold has_shape in H; simpl in H; discriminate).
  - reflexivity.
  - apply has_shape_cons in H. exists m, x. tauto.
Qed.

Lemma has_shape_empty_rows (b h : nat) (x : tensor3) :
  has_shape b 0 h x = true -> x = repeat [] b.
Proof.
  revert x; induction b as [|b IH]; intros x H; apply has_shape_inv in H.
  - now subst.
  - destruct H as (m & x' & -> & Hm & Hx). simpl. f_equal; [|now apply IH].
    apply is_matrix_spec in Hm. destruct Hm as [Hl _]. now destruct m.
Qed.

Lemma batch_noninterference (c : R) (s h n : nat) :
  (0 < h)%nat ->
  forall (b : nat) (drop : option tensor3) (q1 k1 v1 q2 k2 v2 : tensor3),
    has_shape b s h q1 = true -> has_shape b s h k1 = true -> has_shape b s h v1 = true ->
    has_shape b s h q2 = true -> has_shape b s h k2 = true -> has_shape b s h v2 = true ->
    map (firstn n) q1 = map (firstn n) q2 ->
    map (firstn n) k1 = map (firstn n) k2 ->
    map (firstn n) v1 = map (firstn n) v2 ->
    map (firstn n)
        (attention_out (div_scalar (bmm q1 (T k1)) c)
                       (Some (transformer_s.get_causal_mask (s, s))) drop v1) =
    map (firstn n)
        (attention_out (div_scalar (bmm q2 (T k2)) c)
                       (Some (transformer_s.get_causal_mask (s, s))) drop v2).
Proof.
  intros Hh. induction b as [|b IH]; intros drop q1 k1 v1 q2 k2 v2 Hq1 Hk1 Hv1 Hq2 Hk2 Hv2 Eq Ek Ev.
  - apply has_shape_inv in Hq1, Hq2. subst. destruct drop; reflexivity.
  - apply has_shape_inv in Hq1, Hk1, Hv1, Hq2, Hk2, Hv2.
    destruct Hq1 as (Q1 & q1' & -> & HQ1 & Hq1). destruct Hk1 as (K1 & k1' & -> & HK1 & Hk1).
    destruct Hv1 as (V1 & v1' & -> & HV1 & Hv1). destruct Hq2 as (Q2 & q2' & -> & HQ2 & Hq2).
    destruct Hk2 as (K2 & k2' & -> & HK2 & Hk2). destruct Hv2 as (V2 & v2' & -> & HV2 & Hv2).
    simpl in Eq, Ek, Ev. injection Eq as Eq0 Eq. injection Ek as Ek0 Ek. injection Ev as Ev0 Ev.
    destruct drop as [[|D d]|].
    + reflexivity.
    + specialize (IH (Some d) q1' k1' v1' q2' k2' v2' Hq1 Hk1 Hv1 Hq2 Hk2 Hv2 Eq Ek Ev).
      unfold attention_out, drop_stage, softmax, add_mask, div_scalar, mul, bmm, T, map3 in *.
      cbn [map zip_with] in *. f_equal; [|exact IH].
      apply (head_noninterference_any c s h n (Some D)); assumption.
    + specialize (IH None q1' k1' v1' q2' k2' v2' Hq1 Hk1 Hv1 Hq2 Hk2 Hv2 Eq Ek Ev).
      unfold attention_out, drop_stage, softmax, add_mask, div_scalar, mul, bmm, T, map3 in *.
      cbn [map zip_with] in *. f_equal; [|exact IH].
      apply (head_noninterference_any c s h n None); assumption.
Qed.

(** C4.  Masking correctness: two inputs of the same shape that agree at
    every sequence position up to [t] give, under the causal mask (minus
    infinity strictly above the diagonal, zero elsewhere), attention
    outputs that agree at every position up to [t].  The mask may be
    larger than the sequence, and the sampled dropout map is the same in
    both runs. *)
Theorem causal_mask_noninterference
        (b s h t l1 l2 : nat) (cache1 cache2 : FunctionCache)
        (q1 k1 v1 q2 k2 v2 : tensor3) (dropout_p : R) (ret : bool) (dmap : tensor3) :
  has_shape b s h q1 = true -> has_shape b s h k1 = true -> has_shape b s h v1 = true ->
  has_shape b s h q2 = true -> has_shape b s h k2 = true -> has_shape b s h v2 = true ->
  (0 < h)%nat -> (s <= l1)%nat -> (s <= l2)%nat ->
  map (firstn (S t)) q1 = map (firstn (S t)) q2 ->
  map (firstn (S t)) k1 = map (firstn (S t)) k2 ->
  map (firstn (S t)) v1 = map (firstn (S t)) v2 ->
  let mask := Some (transformer_s.get_causal_mask (l1, l2)) in
  map (firstn (S t))
      (fst (snd (transformer_s.FSDPAttention_forward cache1 q1 k1 v1 mask dropout_p ret dmap))) =
  map (firstn (S t))
      (fst (snd (transformer_s.FSDPAttention_forward cache2 q2 k2 v2 mask dropout_p ret dmap))).
Proof.
  intros Hq1 Hk1 Hv1 Hq2 Hk2 Hv2 Hh Hl1 Hl2 Eq Ek Ev mask. subst mask.
  rewrite !FSDPAttention_forward_output. cbn [option_map].
  destruct b as [|b].
  - apply has_shape_inv in Hq1, Hq2. subst. destruct (Rltb 0 dropout_p); reflexivity.
  - assert (Hdim : forall q, has_shape (S b) s h q = true -> seq_len q = s /\ (s = 0%nat \/ width q = h)).
    { intros q Hq. apply has_shape_inv in Hq. destruct Hq as (m & q' & -> & Hm & _).
      simpl. pose proof (proj1 (is_matrix_spec _ _ _) Hm) as [Hl _]. split; [assumption|].
      destruct s; [now left | right; apply (ncols_is_matrix (S s) h); [assumption | lia]]. }
    destruct (Hdim q1 Hq1) as [S1 W1], (Hdim q2 Hq2) as [S2 W2].
    rewrite S1, S2.
    destruct (Nat.eq_dec s 0) as [->|Hs].
    + rewrite (has_shape_empty_rows _ _ _ Hq1), (has_shape_empty_rows _ _ _ Hk1),
        (has_shape_empty_rows _ _ _ Hv1), (has_shape_empty_rows _ _ _ Hq2),
        (has_shape_empty_rows _ _ _ Hk2), (has_shape_empty_rows _ _ _ Hv2).
      reflexivity.
    + destruct W1 as [W1|W1]; [contradiction|]. destruct W2 as [W2|W2]; [contradiction|].
      rewrite W1, W2, causal_mask_slice by assumption.
      apply batch_noninterference with (h := h) (b := S b); assumption.
Qed.

(* ================================================================== *)
(** * Part III: the claims *)
(* ================================================================== *)

(** ** Construction of multi-head attention *)

(** Divisibility as the constructors test it: [in_channels % n_heads]
    evaluates, and to zero. *)
Definition py_divisible (in_channels n_heads : Z) : Prop :=
  py_mod in_channels n_heads = inr 0%Z.

Lemma py_divisible_spec (a b : Z) : py_divisible a b <-> (b <> 0 /\ (b | a))%Z.
Proof.
  unfold py_divisible, py_mod. destruct (Z.eqb_spec b 0) as [->|Hb].
  - split; [discriminate | intros [H _]; now contradiction H].
  - rewrite <- Z.mod_divide by assumption. split.
    + intros H. injection H as H. now split.
    + intros [_ H]. now rewrite H.
Qed.

(** C8.  Construction of the multi-head attention module, in both
    variants, returns a module exactly when [in_channels % n_heads == 0]
    and an error, with no module at all, otherwise; the error is the
    configuration error (a [ValueError]) exactly when [n_heads] is not
    zero and does not divide [in_channels].  For [n_heads] different from
    zero the test is divisibility. *)
Theorem MultiHeadAttention_init_divisible
        {Lin Drop : Type} {LC : LinearClass Lin} {LA : transformer.LinearAPI Lin}
        {DA : transformer.DropoutAPI Drop}
        (in_channels n_heads : Z) (mask : option smatrix) (dropout_p out_scale : R)
        (bias training : bool) (w : matrix) :
  let built_s := transformer_s.MultiHeadAttention_init (Lin := Lin)
                   in_channels n_heads mask dropout_p out_scale in
  let built := transformer.MultiHeadAttention_init (Lin := Lin) (Drop := Drop)
                 in_channels n_heads mask dropout_p bias training w in
  ((exists m, built_s = inr m) <-> py_divisible in_channels n_heads) /\
  ((exists m, built = inr m) <-> py_divisible in_channels n_heads) /\
  ((exists e, built_s = inl e) <-> ~ py_divisible in_channels n_heads) /\
  ((exists e, built = inl e) <-> ~ py_divisible in_channels n_heads) /\
  ((exists msg, built_s = inl (ValueError msg)) <-> (n_heads <> 0 /\ ~ (n_heads | in_channels))%Z) /\
  ((exists msg, built = inl (ValueError msg)) <-> (n_heads <> 0 /\ ~ (n_heads | in_channels))%Z) /\
  (n_heads <> 0%Z -> (py_divisible in_channels n_heads <-> (n_heads | in_channels)%Z)).
Proof.
  intros built_s built. subst built_s built.
  unfold transformer_s.MultiHeadAttention_init, transformer.MultiHeadAttention_init.
  unfold py_divisible, py_mod.
  destruct (Z.eqb_spec n_heads 0) as [Hz|Hnz].
  - (* a zero divisor raises before the test *)
    split; [|split; [|split; [|split; [|split; [|split]]]]].
    + split; [intros [m H]; discriminate | discriminate].
    + split; [intros [m H]; discriminate | discriminate].
    + split; [intros _; discriminate | intros _; eexists; reflexivity].
    + split; [intros _; discriminate | intros _; eexists; reflexivity].
    + split; [intros [msg H]; discriminate | intros [H _]; contradiction].
    + split; [intros [msg H]; discriminate | intros [H _]; contradiction].
    + intros H; contradiction.
  - destruct (Z.eqb_spec (in_channels mod n_heads) 0) as [Hm|Hm]; cbn [negb].
    + (* the remainder is zero: the module is built *)
      split; [|split; [|split; [|split; [|split; [|split]]]]].
      * split; [intros _; now f_equal | intros _; eexists; reflexivity].
      * split; [intros _; now f_equal | intros _; eexists; reflexivity].
      * split; [intros [e H]; discriminate | intros H; exfalso; apply H; now f_equal].
      * split; [intros [e H]; discriminate | intros H; exfalso; apply H; now f_equal].
      * split; [intros [msg H]; discriminate
               | intros [_ H]; exfalso; apply H; now apply Z.mod_divide].
      * split; [intros [msg H]; discriminate
               | intros [_ H]; exfalso; apply H; now apply Z.mod_divide].
      * intros _. split; [intros _; now apply Z.mod_divide | intros _; now f_equal].
    + (* the remainder is not zero: the configuration error *)
      split; [|split; [|split; [|split; [|split; [|split]]]]].
      * split; [intros [m H]; discriminate | intros H; injection H as H; contradiction].
      * split; [intros [m H]; discriminate | intros H; injection H as H; contradiction].
      * split; [intros _ H; injection H as H; contradiction | intros _; eexists; reflexivity].
      * split; [intros _ H; injection H as H; contradiction | intros _; eexists; reflexivity].
      * split; [intros _; split; [assumption | intros D; apply Z.mod_divide in D; auto]
               | intros _; eexists; reflexivity].
      * split; [intros _; split; [assumption | intros D; apply Z.mod_divide in D; auto]
               | intros _; eexists; reflexivity].
      * intros _. split; [intros H; injection H as H; contradiction
                         | intros D; apply Z.mod_divide in D; [contradiction | assumption]].
Qed.

(** ** The retained attention weights of the cache variant *)

(** A layer to run the modules on: the identity, with no state. *)
Definition Identity_Layer : Layer unit :=
  {| forward := fun _ x => Some (tt, x);
     backward := fun _ dy => Some (tt, dy) |}.

(** A call of one of the two passes of a multi-head attention module. *)
Inductive mha_call : Type :=
| Forward (x : tensor3) (rng : nat -> tensor3)
| Backward (dy : tensor3).

Definition is_forward (c : mha_call) : bool :=
  match c with
  | Forward _ _ => true
  | Backward _ => false
  end.

(** A sequence of calls on one module, in any order. *)
Fixpoint run_calls {Lin : Type} `{Layer Lin} (self : transformer_s.MultiHeadAttention Lin)
         (calls : list mha_call) : option (transformer_s.MultiHeadAttention Lin) :=
  match calls with
  | [] => Some self
  | Forward x rng :: rest =>
      '(self, _) <- transformer_s.MultiHeadAttention_forward self x rng ;;
      run_calls self rest
  | Backward dy :: rest =>
      '(self, _) <- transformer_s.MultiHeadAttention_backward self dy ;;
      run_calls self rest
  end.

Lemma split_length (x : tensor3) (n : nat) : length (split x n) = n.
Proof.
  unfold split. now rewrite length_map, length_seq.
Qed.

Lemma FSDPAttention_forward_retained cache q k v mask p ret dmap :
  (ret = false ->
   snd (snd (transformer_s.FSDPAttention_forward cache q k v mask p ret dmap)) = None) /\
  (ret = true ->
   snd (snd (transformer_s.FSDPAttention_forward cache q k v mask p ret dmap)) <> None).
Proof.
  unfold transformer_s.FSDPAttention_forward, FSoftmax_forward, FDropout_forward.
  destruct mask, (Rltb 0 p), ret; cbn; split; intros; try discriminate; reflexivity.
Qed.

Lemma forward_heads_attn_w (mask : option smatrix) (p : R) (ret : bool) (rng : nat -> tensor3)
      (heads : list (tensor3 * (tensor3 * tensor3))) :
  forall (c : FunctionCache) (i : nat) (ys : list tensor3) (ws : list (option tensor3)),
  exists new,
    snd (transformer_s.forward_heads c mask p ret rng i heads ys ws) = ws ++ new /\
    length new = length heads /\
    (ret = false -> Forall (fun w => w = None) new) /\
    (ret = true -> Forall (fun w => w <> None) new).
Proof.
  induction heads as [|[q [k v]] rest IH]; intros c i ys ws.
  - exists []. simpl. rewrite app_nil_r. repeat split; constructor.
  - cbn [transformer_s.forward_heads].
    pose proof (FSDPAttention_forward_retained c q k v mask p ret (rng i)) as [R0 R1].
    destruct (transformer_s.FSDPAttention_forward c q k v mask p ret (rng i))
      as [c' [y w]] eqn:E.
    cbn [snd] in R0, R1.
    destruct (IH c' (S i) (ys ++ [y]) (ws ++ [w])) as (new & E1 & E2 & E3 & E4).
    exists (w :: new). rewrite E1, <- app_assoc. simpl.
    repeat split; auto; intros Hr; constructor; auto.
Qed.

Lemma MultiHeadAttention_forward_attn_w {Lin : Type} {L : Layer Lin}
      (self self' : transformer_s.MultiHeadAttention Lin) (x y : tensor3) (rng : nat -> tensor3) :
  transformer_s.MultiHeadAttention_forward self x rng = Some (self', y) ->
  transformer_s.n_heads self' = transformer_s.n_heads self /\
  exists new,
    transformer_s.attn_w self' = transformer_s.attn_w self ++ new /\
    length new = Z.to_nat (transformer_s.n_heads self) /\
    (transformer_s.is_retaining_values self = false -> Forall (fun w => w = None) new) /\
    (transformer_s.is_retaining_values self = true -> Forall (fun w => w <> None) new).
Proof.
  unfold transformer_s.MultiHeadAttention_forward. intros Hf.
  destruct (forward (transformer_s.query_proj self) x) as [[qp q]|]; [|discriminate].
  destruct (forward (transformer_s.key_proj self) x) as [[kp k]|]; [|discriminate].
  destruct (forward (transformer_s.value_proj self) x) as [[vp v]|]; [|discriminate].
  match type of Hf with
  | context [transformer_s.forward_heads ?c ?m ?p ?r ?g ?i ?hs ?ys ?ws] =>
      destruct (forward_heads_attn_w m p r g hs c i ys ws) as (new & E1 & E2 & E3 & E4);
      destruct (transformer_s.forward_heads c m p r g i hs ys ws) as [[c' ys'] ws'] eqn:E
  end.
  cbn [snd] in E1. subst ws'.
  destruct (forward (transformer_s.out_proj self) (concat ys')) as [[op o]|]; [|discriminate].
  injection Hf as <- <-. cbn. split; [reflexivity|].
  exists new. repeat split; auto.
  rewrite E2, length_combine, length_combine, !split_length. lia.
Qed.

Lemma MultiHeadAttention_backward_attn_w {Lin : Type} {L : Layer Lin}
      (self self' : transformer_s.MultiHeadAttention Lin) (dy dx : tensor3) :
  transformer_s.MultiHeadAttention_backward self dy = Some (self', dx) ->
  transformer_s.n_heads self' = transformer_s.n_heads self /\
  transformer_s.attn_w self' = transformer_s.attn_w self.
Proof.
  unfold transformer_s.MultiHeadAttention_backward. intros Hb.
  destruct (backward (transformer_s.out_proj self) dy) as [[op g]|]; [|discriminate].
  destruct (transformer_s.backward_heads _ _ _ _ _) as [[c [[dqs dks] dvs]]|]; [|discriminate].
  destruct (backward (transformer_s.query_proj self) _) as [[qp dx1]|]; [|discriminate].
  destruct (backward (transformer_s.key_proj self) _) as [[kp dx2]|]; [|discriminate].
  destruct (backward (transformer_s.value_proj self) _) as [[vp dx3]|]; [|discriminate].
  injection Hb as <- <-. cbn. split; reflexivity.
Qed.

(** C10.  In the variant with the explicit function cache, a forward call
    of the multi-head attention module appends exactly [n_heads] entries
    to [attn_w], all [None] unless values are retained and none [None]
    when they are; a backward call leaves [attn_w] as it is; so after any
    sequence of calls the list is the old one followed by [n_heads]
    entries per forward call: it only grows. *)
Theorem attn_w_only_grows {Lin : Type} {L : Layer Lin} :
  (forall (self self' : transformer_s.MultiHeadAttention Lin) x y rng,
      transformer_s.MultiHeadAttention_forward self x rng = Some (self', y) ->
      exists new,
        transformer_s.attn_w self' = transformer_s.attn_w self ++ new /\
        length new = Z.to_nat (transformer_s.n_heads self) /\
        (transformer_s.is_retaining_values self = false -> Forall (fun w => w = None) new) /\
        (transformer_s.is_retaining_values self = true -> Forall (fun w => w <> None) new)) /\
  (forall (self self' : transformer_s.MultiHeadAttention Lin) dy dx,
      transformer_s.MultiHeadAttention_backward self dy = Some (self', dx) ->
      transformer_s.attn_w self' = transformer_s.attn_w self) /\
  (forall (calls : list mha_call) (self self' : transformer_s.MultiHeadAttention Lin),
      run_calls self calls = Some self' ->
      exists new,
        transformer_s.attn_w self' = transformer_s.attn_w self ++ new /\
        length new =
        (length (filter is_forward calls) * Z.to_nat (transformer_s.n_heads self))%nat).
Proof.
  split; [|split].
  - intros self self' x y rng Hf.
    now destruct (MultiHeadAttention_forward_attn_w _ _ _ _ _ Hf) as [_ H].
  - intros self self' dy dx Hb.
    now destruct (MultiHeadAttention_backward_attn_w _ _ _ _ Hb) as [_ H].
  - induction calls as [|[x rng|dy] rest IH]; intros self self' Hr.
    + injection Hr as <-. exists []. now rewrite app_nil_r.
    + cbn [run_calls] in Hr.
      destruct (transformer_s.MultiHeadAttention_forward self x rng) as [[s1 y]|] eqn:Hf;
        [|discriminate].
      destruct (MultiHeadAttention_forward_attn_w _ _ _ _ _ Hf) as (Hn & new1 & E1 & L1 & _).
      destruct (IH s1 self' Hr) as (new2 & E2 & L2).
      exists (new1 ++ new2). rewrite E2, E1, <- app_assoc. split; [reflexivity|].
      rewrite length_app, L1, L2, Hn. cbn [filter is_forward length]. lia.
    + cbn [run_calls] in Hr.
      destruct (transformer_s.MultiHeadAttention_backward self dy) as [[s1 dx]|] eqn:Hb;
        [|discriminate].
      destruct (MultiHeadAttention_backward_attn_w _ _ _ _ Hb) as (Hn & E1).
      destruct (IH s1 self' Hr) as (new2 & E2 & L2).
      exists new2. rewrite E2, E1. split; [reflexivity|].
      rewrite L2, Hn. reflexivity.
Qed.

(** ** Scaled dot-product attention: the forward pass *)



Lemma Rltb_0_0 : Rltb 0 0 = false.
Proof.
  unfold Rltb. destruct (Rlt_dec 0 0) as [H|H]; [lra | reflexivity].
Qed.


Lemma Rpower_neg_half (x : R) : 0 < x -> Rpower x (- / 2) = / sqrt x.
Proof.
  intros Hx. rewrite Rpower_Ropp, Rpower_sqrt by assumption. reflexivity.
Qed.

Lemma mul_scalar_inv (x : tensor3) (c : R) : mul_scalar x (/ c) = div_scalar x c.
Proof.
  reflexivity.
Qed.

Lemma has_shape_dims (b s h : nat) (q : tensor3) :
  has_shape b s h q = true -> (0 < b)%nat -> (0 < s)%nat -> seq_len q = s /\ width q = h.
Proof.
  intros Hq Hb Hs. destruct b as [|b]; [lia|].
  apply has_shape_inv in Hq. destruct Hq as (m & q' & -> & Hm & _). simpl.
  split; [now apply is_matrix_spec in Hm | now apply (ncols_is_matrix s h)].
Qed.

Lemma has_shape_Forall (b s h : nat) (x : tensor3) :
  has_shape b s h x = true -> Forall (fun m => is_matrix s h m = true) x.
Proof.
  unfold has_shape. rewrite andb_true_iff, forallb_forall, Forall_forall. tauto.
Qed.









(** ** Scaled dot-product attention: the backward pass *)

(** The softmax output and the attention weights (after dropout) of a
    forward pass, as the specification words them. *)
Definition spec_probs (q k : tensor3) (mask : option smatrix) : tensor3 :=
  let scores := div_scalar (bmm q (T k)) (sqrt (INR (width q))) in
  softmax (match mask with
           | Some m => add_mask scores (slice2 (seq_len q) (seq_len q) m)
           | None => finite scores
           end).

Definition spec_weights (q k : tensor3) (mask : option smatrix) (drop : option tensor3)
  : tensor3 :=
  match drop with
  | Some d => mul (spec_probs q k mask) d
  | None => spec_probs q k mask
  end.

(** The backward pass in the words of the specification. *)
Definition spec_attention_grads (q k v : tensor3) (mask : option smatrix)
           (drop : option tensor3) (d_output : tensor3) : tensor3 * tensor3 * tensor3 :=
  let d_attn_weights := bmm d_output (T v) in
  (* undo dropout *)
  let d_attn_weights :=
    match drop with
    | Some d => mul d_attn_weights d
    | None => d_attn_weights
    end in
  (* undo softmax, rescale *)
  let d_scores :=
    div_scalar (softmax_backward (spec_probs q k mask) d_attn_weights)
               (sqrt (INR (width q))) in
  let d_q := bmm d_scores k in
  let d_k := bmm (T d_scores) q in
  let d_v := bmm (T (spec_weights q k mask drop)) d_output in
  (d_q, d_k, d_v).

(** The Jacobian of softmax at the output row [y]: entry [(j, i)] is the
    derivative of output [j] in input [i]. *)
Definition softmax_jacobian (y : vector) (j i : nat) : R :=
  nth j y 0 * ((if (j =? i)%nat then 1 else 0) - nth i y 0).

(** The product of a gradient row with the full Jacobian. *)
Definition vector_jacobian_product (y dy : vector) : vector :=
  map (fun i => dot dy (map (fun j => softmax_jacobian y j i) (seq 0 (length y))))
      (seq 0 (length y)).

Definition bigsum (f : nat -> R) (n : nat) : R := compyute.sum (map f (seq 0 n)).

Lemma bigsum_S (f : nat -> R) (n : nat) : bigsum f (S n) = bigsum f n + f n.
Proof.
  unfold bigsum. rewrite seq_S, map_app, sum_app. simpl. unfold compyute.sum. simpl. lra.
Qed.

Lemma bigsum_ext (f g : nat -> R) (n : nat) :
  (forall j, (j < n)%nat -> f j = g j) -> bigsum f n = bigsum g n.
Proof.
  intros H. unfold bigsum. f_equal. apply map_ext_in. intros j Hj.
  apply in_seq in Hj. apply H. lia.
Qed.

Lemma bigsum_linear (f g : nat -> R) (c : R) (n : nat) :
  bigsum (fun j => f j - c * g j) n = bigsum f n - c * bigsum g n.
Proof.
  induction n as [|n IH].
  - unfold bigsum, compyute.sum. simpl. lra.
  - rewrite !bigsum_S, IH. lra.
Qed.

Lemma bigsum_delta (g : nat -> R) (i n : nat) :
  bigsum (fun j => g j * (if (j =? i)%nat then 1 else 0)) n = if (i <? n)%nat then g i else 0.
Proof.
  induction n as [|n IH].
  - reflexivity.
  - rewrite bigsum_S, IH.
    destruct (Nat.eqb_spec n i) as [->|Hne].
    + rewrite Nat.ltb_irrefl. replace (i <? S i)%nat with true by (symmetry; apply Nat.ltb_lt; lia).
      lra.
    + destruct (Nat.ltb_spec i n), (Nat.ltb_spec i (S n)); try lia; lra.
Qed.

Lemma dot_as_bigsum (a b : vector) :
  length a = length b -> dot a b = bigsum (fun j => nth j a 0 * nth j b 0) (length a).
Proof.
  revert b; induction a as [|x a IH]; intros [|y b] Hl; simpl in Hl; try discriminate.
  - reflexivity.
  - unfold dot, bigsum in *. cbn [zip_with length seq map]. rewrite <- seq_shift, map_map.
    unfold compyute.sum in *. cbn [fold_right nth]. f_equal. apply IH. lia.
Qed.

Lemma nth_map_seq (f : nat -> R) (n j : nat) :
  (j < n)%nat -> nth j (map f (seq 0 n)) 0 = f j.
Proof.
  intros Hj. rewrite nth_indep with (d' := f 0%nat) by (now rewrite length_map, length_seq).
  rewrite map_nth, seq_nth by assumption. reflexivity.
Qed.

Lemma softmax_row_backward_is_vjp (y dy : vector) :
  length dy = length y -> softmax_row_backward y dy = vector_jacobian_product y dy.
Proof.
  intros Hl. unfold softmax_row_backward, vector_jacobian_product.
  set (s := compyute.sum (zip_with Rmult dy y)).
  assert (Hs : s = bigsum (fun j => nth j dy 0 * nth j y 0) (length y)).
  { subst s. fold (dot dy y). rewrite dot_as_bigsum by assumption. now rewrite Hl. }
  transitivity (map (fun i => nth i y 0 * (nth i dy 0 - s)) (seq 0 (length y))).
  - clear Hs. generalize s. clear s. intros s. revert dy Hl.
    induction y as [|a y IH]; intros [|d dy] Hl; simpl in Hl; try discriminate; [reflexivity|].
    cbn [zip_with length seq map nth]. f_equal.
    rewrite <- seq_shift, map_map. apply IH. lia.
  - apply map_ext_in. intros i Hi. apply in_seq in Hi.
    rewrite dot_as_bigsum by (now rewrite length_map, length_seq).
    rewrite Hl.
    rewrite bigsum_ext with
      (g := fun j => (nth j dy 0 * nth j y 0) * (if (j =? i)%nat then 1 else 0)
                     - nth i y 0 * (nth j dy 0 * nth j y 0)).
    + rewrite bigsum_linear, bigsum_delta, <- Hs.
      replace (i <? length y)%nat with true by (symmetry; apply Nat.ltb_lt; lia). lra.
    + intros j Hj. rewrite nth_map_seq by assumption. unfold softmax_jacobian. lra.
Qed.

(** C2.  For every output gradient and every cached forward state, the
    attention backward of both variants returns [(d_q, d_k, d_v)] with
    [d_attn_weights = d_output @ v^T], then the dropout map of the
    forward pass applied again, then the softmax gradient, which is the
    product with the full softmax Jacobian, scaled by
    [1/sqrt(head_size)], giving [d_scores]; then [d_q = d_scores @ k],
    [d_k = d_scores^T @ q] and [d_v = attention_weights^T @ d_output] on
    the weights after dropout.  In the cache variant the backward call
    consumes exactly what the forward call cached. *)
Theorem attention_backward_formula
        (b s h : nat) (q k v : tensor3) :
  has_shape b s h q = true -> (0 < b)%nat -> (0 < s)%nat -> (0 < h)%nat ->
  (forall cache mask p ret dmap dy,
      transformer_s.FSDPAttention_backward
        (fst (transformer_s.FSDPAttention_forward cache q k v mask p ret dmap)) dy =
      Some (cache,
            spec_attention_grads q k v mask (if Rltb 0 p then Some dmap else None) dy)) /\
  (forall mask p dmap,
      exists grad_fn,
        snd (transformer.scaled_dot_product_attention q k v mask p true dmap) = Some grad_fn /\
        forall dy,
          grad_fn dy =
          spec_attention_grads q k v mask (if Rltb 0 p then Some dmap else None) dy) /\
  (forall mask p dmap,
      snd (transformer.scaled_dot_product_attention q k v mask p false dmap) = None) /\
  (forall y dy : tensor3,
      softmax_backward y dy = zip_with (zip_with softmax_row_backward) y dy) /\
  (forall y dy : vector,
      length dy = length y -> softmax_row_backward y dy = vector_jacobian_product y dy).
Proof.
  intros Hq Hb Hs Hh.
  destruct (has_shape_dims b s h q Hq Hb Hs) as [Hseq Hw].
  split; [|split; [|split; [|split]]].
  - intros [cq ck cv cw cy cd] mask p ret dmap dy.
    unfold transformer_s.FSDPAttention_forward, transformer_s.FSDPAttention_backward,
      spec_attention_grads, spec_weights, spec_probs,
      FSoftmax_forward, FDropout_forward, FDropout_backward, FSoftmax_backward.
    destruct mask, (Rltb 0 p); reflexivity.
  - intros mask p dmap.
    unfold transformer.scaled_dot_product_attention, softmax_fn, dropout_fn.
    destruct (Rltb 0 p) eqn:Hp; eexists; (split; [reflexivity|]); intros dy;
      unfold spec_attention_grads, spec_weights, spec_probs, call;
      rewrite Hw, Rpower_neg_half by (apply lt_0_INR; lia);
      rewrite !mul_scalar_inv; destruct mask; reflexivity.
  - intros mask p dmap.
    unfold transformer.scaled_dot_product_attention, softmax_fn, dropout_fn.
    destruct (Rltb 0 p); reflexivity.
  - reflexivity.
  - apply softmax_row_backward_is_vjp.
Qed.

(** ** The transformer block *)

(** The output of a pass of a module, its new state left aside. *)
Definition output {M : Type} (pass : M -> tensor3 -> option (M * tensor3)) (m : M) (x : tensor3)
  : option tensor3 :=
  option_map snd (pass m x).

(** C7.  The block forward computes [x1 = x + Dropout(Attention(LayerNorm(x)))]
    and then [x2 = x1 + Dropout(FeedForward(LayerNorm(x1)))], and its
    backward returns, for each of the two residual sums, the incoming
    gradient plus the gradient that went back through the sub-block, the
    feed-forward sum first.  In [transformer_s.py] the two dropout layers
    belong to the block; in [transformer.py] the block is two residual
    containers around (Layernorm, MultiHeadAttention) and (Layernorm,
    FeedForward), and dropout is the last layer inside the attention child
    when its probability is positive. *)
Theorem TransformerBlock_residual
        {LN Attn Drop FF : Type} {L1 : Layer LN} {L2 : Layer Attn} {L3 : Layer Drop}
        {L4 : Layer FF} :
  (forall (self : transformer_s.TransformerBlock LN Attn Drop FF) (x : tensor3),
      output transformer_s.TransformerBlock_forward self x =
      ('a <- output forward (transformer_s.ln_1 self) x ;;
       'a <- output forward (transformer_s.attn self) a ;;
       'a <- output forward (transformer_s.dropout_1 self) a ;;
       let x1 := add x a in
       'f <- output forward (transformer_s.ln_2 self) x1 ;;
       'f <- output forward (transformer_s.ffwd self) f ;;
       'f <- output forward (transformer_s.dropout_2 self) f ;;
       Some (add x1 f))) /\
  (forall (self : transformer_s.TransformerBlock LN Attn Drop FF) (dy : tensor3),
      output transformer_s.TransformerBlock_backward self dy =
      ('g <- output backward (transformer_s.dropout_2 self) dy ;;
       'g <- output backward (transformer_s.ffwd self) g ;;
       'g <- output backward (transformer_s.ln_2 self) g ;;
       let dy1 := add dy g in
       'g <- output backward (transformer_s.dropout_1 self) dy1 ;;
       'g <- output backward (transformer_s.attn self) g ;;
       'g <- output backward (transformer_s.ln_1 self) g ;;
       Some (add dy1 g))) /\
  (forall (ln_1 : LN) (attn : Attn) (ln_2 : LN) (ffwd : FF) (x : tensor3),
      output forward (transformer.TransformerBlock ln_1 attn ln_2 ffwd) x =
      ('a <- output forward ln_1 x ;;
       'a <- output forward attn a ;;
       let x1 := add x a in
       'f <- output forward ln_2 x1 ;;
       'f <- output forward ffwd f ;;
       Some (add x1 f))) /\
  (forall (ln_1 : LN) (attn : Attn) (ln_2 : LN) (ffwd : FF) (dy : tensor3),
      output backward (transformer.TransformerBlock ln_1 attn ln_2 ffwd) dy =
      ('g <- output backward ffwd dy ;;
       'g <- output backward ln_2 g ;;
       let dy1 := add dy g in
       'g <- output backward attn dy1 ;;
       'g <- output backward ln_1 g ;;
       Some (add dy1 g))) /\
  (forall (self self' : transformer.MultiHeadAttention LN Drop) (x y : tensor3) rng,
      transformer.MultiHeadAttention_forward self x rng = Some (self', y) ->
      Rltb 0 (transformer.dropout_p self) = true ->
      exists d z, transformer.dropout self = Some d /\ output forward d z = Some y).
Proof.
  split; [|split; [|split; [|split]]].
  - intros self x. unfold output, transformer_s.TransformerBlock_forward.
    destruct (forward (transformer_s.ln_1 self) x) as [[? ?]|]; [|reflexivity]. cbn.
    destruct (forward (transformer_s.attn self) _) as [[? ?]|]; [|reflexivity]. cbn.
    destruct (forward (transformer_s.dropout_1 self) _) as [[? ?]|]; [|reflexivity]. cbn.
    destruct (forward (transformer_s.ln_2 self) _) as [[? ?]|]; [|reflexivity]. cbn.
    destruct (forward (transformer_s.ffwd self) _) as [[? ?]|]; [|reflexivity]. cbn.
    destruct (forward (transformer_s.dropout_2 self) _) as [[? ?]|]; reflexivity.
  - intros self dy. unfold output, transformer_s.TransformerBlock_backward.
    destruct (backward (transformer_s.dropout_2 self) dy) as [[? ?]|]; [|reflexivity]. cbn.
    destruct (backward (transformer_s.ffwd self) _) as [[? ?]|]; [|reflexivity]. cbn.
    destruct (backward (transformer_s.ln_2 self) _) as [[? ?]|]; [|reflexivity]. cbn.
    destruct (backward (transformer_s.dropout_1 self) _) as [[? ?]|]; [|reflexivity]. cbn.
    destruct (backward (transformer_s.attn self) _) as [[? ?]|]; [|reflexivity]. cbn.
    destruct (backward (transformer_s.ln_1 self) _) as [[? ?]|]; reflexivity.
  - intros ln_1 attn ln_2 ffwd x. unfold output, transformer.TransformerBlock. cbn.
    destruct (forward ln_1 x) as [[? ?]|]; [|reflexivity]. cbn.
    destruct (forward attn _) as [[? ?]|]; [|reflexivity]. cbn.
    destruct (forward ln_2 _) as [[? ?]|]; [|reflexivity]. cbn.
    destruct (forward ffwd _) as [[? ?]|]; reflexivity.
  - intros ln_1 attn ln_2 ffwd dy. unfold output, transformer.TransformerBlock. cbn.
    destruct (backward ffwd dy) as [[? ?]|]; [|reflexivity]. cbn.
    destruct (backward ln_2 _) as [[? ?]|]; [|reflexivity]. cbn.
    destruct (backward attn _) as [[? ?]|]; [|reflexivity]. cbn.
    destruct (backward ln_1 _) as [[? ?]|]; reflexivity.
  - intros self self' x y rng Hf Hp.
    unfold transformer.MultiHeadAttention_forward in Hf. rewrite Hp in Hf.
    destruct (forward (transformer.query self) x) as [[? ?]|]; [|discriminate].
    destruct (forward (transformer.key self) x) as [[? ?]|]; [|discriminate].
    destruct (forward (transformer.value self) x) as [[? ?]|]; [|discriminate].
    destruct (transformer.forward_heads _ _ _ _ _ _ _ _) as [fns ys].
    destruct (forward (transformer.out_proj self) _) as [[op z]|]; [|discriminate].
    unfold transformer.through_dropout in Hf.
    destruct (transformer.dropout self) as [d|]; [|discriminate].
    destruct (forward d z) as [[d' y']|] eqn:Hd; [|discriminate].
    injection Hf as _ <-. exists d, z. split; [reflexivity|].
    unfold output. now rewrite Hd.
Qed.

(** ** Multi-head attention: the backward pass *)

Definition dq_of (g : tensor3 * tensor3 * tensor3) : tensor3 := fst (fst g).
Definition dk_of (g : tensor3 * tensor3 * tensor3) : tensor3 := snd (fst g).
Definition dv_of (g : tensor3 * tensor3 * tensor3) : tensor3 := snd g.

(** The cache after the forward loop has run over the heads, head [i]
    first. *)
Fixpoint heads_cache (c : FunctionCache) (mask : option smatrix) (p : R)
         (rng : nat -> tensor3) (i : nat) (heads : list (tensor3 * (tensor3 * tensor3)))
  : FunctionCache :=
  match heads with
  | [] => c
  | (q, (k, v)) :: rest =>
      heads_cache (fst (transformer_s.FSDPAttention_forward c q k v mask p false (rng i)))
                  mask p rng (S i) rest
  end.

(** The gradients of the heads, in head order: head [i] on its own chunk
    of the output gradient. *)
Fixpoint head_grads (mask : option smatrix) (p : R) (rng : nat -> tensor3) (i : nat)
         (heads : list (tensor3 * (tensor3 * tensor3))) (dys : list tensor3)
  : list (tensor3 * tensor3 * tensor3) :=
  match heads, dys with
  | (q, (k, v)) :: rest, dy :: dys' =>
      spec_attention_grads q k v mask (if Rltb 0 p then Some (rng i) else None) dy
      :: head_grads mask p rng (S i) rest dys'
  | _, _ => []
  end.

Lemma FSDPAttention_forward_cache c q k v mask p ret dmap :
  fst (transformer_s.FSDPAttention_forward c q k v mask p ret dmap) =
  fst (transformer_s.FSDPAttention_forward c q k v mask p false dmap).
Proof.
  unfold transformer_s.FSDPAttention_forward, FSoftmax_forward, FDropout_forward.
  destruct mask, (Rltb 0 p); reflexivity.
Qed.

Lemma FSDPAttention_backward_forward c q k v mask p ret dmap dy :
  transformer_s.FSDPAttention_backward
    (fst (transformer_s.FSDPAttention_forward c q k v mask p ret dmap)) dy =
  Some (c, spec_attention_grads q k v mask (if Rltb 0 p then Some dmap else None) dy).
Proof.
  destruct c as [cq ck cv cw cy cd].
  unfold transformer_s.FSDPAttention_forward, transformer_s.FSDPAttention_backward,
    spec_attention_grads, spec_weights, spec_probs,
    FSoftmax_forward, FDropout_forward, FDropout_backward, FSoftmax_backward.
  destruct mask, (Rltb 0 p); reflexivity.
Qed.

Lemma forward_heads_cache mask p ret rng heads :
  forall c i ys ws,
    fst (fst (transformer_s.forward_heads c mask p ret rng i heads ys ws)) =
    heads_cache c mask p rng i heads.
Proof.
  induction heads as [|[q [k v]] rest IH]; intros c i ys ws; [reflexivity|].
  cbn [transformer_s.forward_heads heads_cache].
  rewrite <- (FSDPAttention_forward_cache c q k v mask p ret (rng i)).
  destruct (transformer_s.FSDPAttention_forward c q k v mask p ret (rng i)) as [c' [y w]].
  apply IH.
Qed.

Lemma backward_heads_app (l1 l2 : list tensor3) :
  forall c aq ak av,
    transformer_s.backward_heads c (l1 ++ l2) aq ak av =
    match transformer_s.backward_heads c l1 aq ak av with
    | Some (c', (aq', ak', av')) => transformer_s.backward_heads c' l2 aq' ak' av'
    | None => None
    end.
Proof.
  induction l1 as [|dy l1 IH]; intros c aq ak av; [reflexivity|].
  cbn [app transformer_s.backward_heads].
  destruct (transformer_s.FSDPAttention_backward c dy) as [[c' [[dq dk] dv]]|]; [|reflexivity].
  apply IH.
Qed.

(** The backward loop over the reversed chunks empties what the forward
    loop cached, last head first, and leaves each list of gradients in
    the reverse of the head order. *)
Lemma backward_heads_reversed mask p rng heads :
  forall c i dys aq ak av,
    length dys = length heads ->
    transformer_s.backward_heads (heads_cache c mask p rng i heads) (rev dys) aq ak av =
    Some (c, (aq ++ rev (map dq_of (head_grads mask p rng i heads dys)),
              ak ++ rev (map dk_of (head_grads mask p rng i heads dys)),
              av ++ rev (map dv_of (head_grads mask p rng i heads dys)))).
Proof.
  induction heads as [|[q [k v]] rest IH]; intros c i [|dy dys] aq ak av Hl;
    simpl in Hl; try discriminate.
  - simpl. now rewrite !app_nil_r.
  - cbn [rev heads_cache head_grads map]. rewrite backward_heads_app.
    rewrite IH by lia. cbn [transformer_s.backward_heads].
    rewrite FSDPAttention_backward_forward.
    destruct (spec_attention_grads q k v mask _ dy) as [[dq dk] dv].
    cbn [dq_of dk_of dv_of fst snd]. now rewrite <- !app_assoc.
Qed.

Lemma MultiHeadAttention_forward_cache {Lin : Type} {L : Layer Lin}
      (self self1 : transformer_s.MultiHeadAttention Lin) (x y q k v : tensor3)
      (rng : nat -> tensor3) :
  transformer_s.MultiHeadAttention_forward self x rng = Some (self1, y) ->
  output forward (transformer_s.query_proj self) x = Some q ->
  output forward (transformer_s.key_proj self) x = Some k ->
  output forward (transformer_s.value_proj self) x = Some v ->
  transformer_s.n_heads self1 = transformer_s.n_heads self /\
  transformer_s.fcache self1 =
  heads_cache (transformer_s.fcache self) (transformer_s.mask self)
              (if transformer_s.is_training self then transformer_s.dropout_p self else 0)
              rng 0
              (combine (split q (Z.to_nat (transformer_s.n_heads self)))
                       (combine (split k (Z.to_nat (transformer_s.n_heads self)))
                                (split v (Z.to_nat (transformer_s.n_heads self))))).
Proof.
  unfold transformer_s.MultiHeadAttention_forward, output. intros Hf Hq Hk Hv.
  destruct (forward (transformer_s.query_proj self) x) as [[qp q']|]; [|discriminate].
  destruct (forward (transformer_s.key_proj self) x) as [[kp k']|]; [|discriminate].
  destruct (forward (transformer_s.value_proj self) x) as [[vp v']|]; [|discriminate].
  cbn in Hq, Hk, Hv. injection Hq as ->. injection Hk as ->. injection Hv as ->.
  match type of Hf with
  | context [transformer_s.forward_heads ?c ?m ?p ?r ?g ?i ?hs ?ys ?ws] =>
      pose proof (forward_heads_cache m p r g hs c i ys ws) as Hc;
      destruct (transformer_s.forward_heads c m p r g i hs ys ws) as [[c' ys'] ws']
  end.
  cbn [fst] in Hc.
  destruct (forward (transformer_s.out_proj self) (concat ys')) as [[op o]|]; [|discriminate].
  injection Hf as <- <-. cbn. split; [reflexivity | exact Hc].
Qed.

(** The gradient closures of the heads, in the order the forward loop of
    [transformer.py] creates them. *)
Fixpoint head_closures (mask : option smatrix) (p : R) (training : bool)
         (rng : nat -> tensor3) (i : nat) (heads : list (tensor3 * (tensor3 * tensor3)))
  : list (option transformer.grad_fn_t) :=
  match heads with
  | [] => []
  | (q, (k, v)) :: rest =>
      snd (transformer.scaled_dot_product_attention q k v mask p training (rng i))
      :: head_closures mask p training rng (S i) rest
  end.

(** Closure [i] called on chunk [i], for every [i]. *)
Fixpoint call_heads (fns : list (option transformer.grad_fn_t)) (dys : list tensor3)
  : option (list (tensor3 * tensor3 * tensor3)) :=
  match fns, dys with
  | Some f :: fns', dy :: dys' => 'g <- call_heads fns' dys' ;; Some (f dy :: g)
  | None :: _, _ :: _ => None
  | _, _ => Some []
  end.

Lemma forward_heads_closures mask p tr rng heads :
  forall i fns ys,
    fst (transformer.forward_heads mask p tr rng i heads fns ys) =
    fns ++ head_closures mask p tr rng i heads.
Proof.
  induction heads as [|[q [k v]] rest IH]; intros i fns ys.
  - simpl. now rewrite app_nil_r.
  - cbn [transformer.forward_heads head_closures].
    destruct (transformer.scaled_dot_product_attention q k v mask p tr (rng i)) as [y f].
    rewrite IH, <- app_assoc. reflexivity.
Qed.

(** The backward loop of [transformer.py] calls the closures in the
    order they were created and leaves each list of gradients in head
    order. *)
Lemma backward_heads_in_order (fns : list (option transformer.grad_fn_t)) :
  forall dys aq ak av,
    transformer.backward_heads (combine fns dys) aq ak av =
    ('g <- call_heads fns dys ;;
     Some (aq ++ map dq_of g, ak ++ map dk_of g, av ++ map dv_of g)).
Proof.
  induction fns as [|[f|] fns IH]; intros [|dy dys] aq ak av;
    cbn [combine transformer.backward_heads call_heads map]; rewrite ?app_nil_r; try reflexivity.
  destruct (f dy) as [[dq dk] dv] eqn:E. rewrite IH.
  destruct (call_heads fns dys) as [g|]; [|reflexivity].
  cbn [map dq_of dk_of dv_of fst snd]. now rewrite <- !app_assoc.
Qed.

(** C3, variant by variant.  After a matching forward, the multi-head attention
    backward splits the gradient that comes back from the output
    projection into [n_heads] chunks, runs the attention backward of head
    [i] on chunk [i], concatenates the per-head q, k and v gradients in
    head order, and returns the sum of the three input-projection
    backward results.  In [transformer_s.py] the loop runs over the
    reversed chunks and pops the function cache, so the heads are served
    last first and each list is built in reverse and reversed again; in
    [transformer.py] the loop pairs the stored closures with the chunks
    and serves the heads first to last. *)
Theorem MultiHeadAttention_backward_heads
        {Lin Drop : Type} {L : Layer Lin} {D : Layer Drop} :
  (forall (self self1 : transformer_s.MultiHeadAttention Lin) (x y q k v : tensor3) rng,
      transformer_s.MultiHeadAttention_forward self x rng = Some (self1, y) ->
      output forward (transformer_s.query_proj self) x = Some q ->
      output forward (transformer_s.key_proj self) x = Some k ->
      output forward (transformer_s.value_proj self) x = Some v ->
      let n := Z.to_nat (transformer_s.n_heads self) in
      let heads := combine (split q n) (combine (split k n) (split v n)) in
      let p := if transformer_s.is_training self then transformer_s.dropout_p self else 0 in
      let grads := head_grads (transformer_s.mask self) p rng 0 heads in
      (forall g : tensor3,
          length (split g n) = n /\
          transformer_s.backward_heads (transformer_s.fcache self1) (rev (split g n)) [] [] [] =
          Some (transformer_s.fcache self,
                (rev (map dq_of (grads (split g n))),
                 rev (map dk_of (grads (split g n))),
                 rev (map dv_of (grads (split g n)))))) /\
      (forall dy : tensor3,
          output transformer_s.MultiHeadAttention_backward self1 dy =
          ('g <- output backward (transformer_s.out_proj self1) dy ;;
           'dx1 <- output backward (transformer_s.query_proj self1)
                          (concat (map dq_of (grads (split g n)))) ;;
           'dx2 <- output backward (transformer_s.key_proj self1)
                          (concat (map dk_of (grads (split g n)))) ;;
           'dx3 <- output backward (transformer_s.value_proj self1)
                          (concat (map dv_of (grads (split g n)))) ;;
           Some (add (add dx1 dx2) dx3)))) /\
  (forall (self self1 : transformer.MultiHeadAttention Lin Drop) (x y q k v : tensor3) rng,
      transformer.MultiHeadAttention_forward self x rng = Some (self1, y) ->
      transformer.training self = true ->
      output forward (transformer.query self) x = Some q ->
      output forward (transformer.key self) x = Some k ->
      output forward (transformer.value self) x = Some v ->
      let n := Z.to_nat (transformer.n_heads self) in
      let heads := combine (split q n) (combine (split k n) (split v n)) in
      let fns := head_closures (transformer.mask self) (transformer.dropout_p self) true
                               rng 0 heads in
      transformer._backward self1 = Some fns /\
      (forall g : tensor3,
          transformer.backward_heads (combine fns (split g n)) [] [] [] =
          ('r <- call_heads fns (split g n) ;;
           Some (map dq_of r, map dk_of r, map dv_of r))) /\
      (forall dy : tensor3,
          output transformer.MultiHeadAttention_backward self1 dy =
          ('g <- (if Rltb 0 (transformer.dropout_p self)
                  then option_map snd
                         (transformer.through_dropout backward (transformer.dropout self1) dy)
                  else Some dy) ;;
           'g <- output backward (transformer.out_proj self1) g ;;
           'r <- call_heads fns (split g n) ;;
           'dx1 <- output backward (transformer.query self1) (concat (map dq_of r)) ;;
           'dx2 <- output backward (transformer.key self1) (concat (map dk_of r)) ;;
           'dx3 <- output backward (transformer.value self1) (concat (map dv_of r)) ;;
           Some (add (add dx1 dx2) dx3)))).
Proof.
  split.
  - intros self self1 x y q k v rng Hf Hq Hk Hv n heads p grads.
    destruct (MultiHeadAttention_forward_cache _ _ _ _ _ _ _ _ Hf Hq Hk Hv) as [Hn Hc].
    fold n in Hc. fold heads in Hc. fold p in Hc.
    assert (Hloop : forall g,
               transformer_s.backward_heads (transformer_s.fcache self1)
                                            (rev (split g n)) [] [] [] =
               Some (transformer_s.fcache self,
                     (rev (map dq_of (grads (split g n))),
                      rev (map dk_of (grads (split g n))),
                      rev (map dv_of (grads (split g n)))))).
    { intros g. rewrite Hc. subst grads.
      rewrite backward_heads_reversed; [reflexivity|].
      subst heads. rewrite !length_combine, !split_length. lia. }
    split.
    + intros g. split; [apply split_length | apply Hloop].
    + intros dy. unfold output, transformer_s.MultiHeadAttention_backward.
      destruct (backward (transformer_s.out_proj self1) dy) as [[op g]|]; [|reflexivity].
      cbn [option_map snd]. rewrite Hn. fold n. rewrite Hloop, !rev_involutive.
      destruct (backward (transformer_s.query_proj self1) _) as [[? ?]|]; [|reflexivity].
      cbn [option_map snd].
      destruct (backward (transformer_s.key_proj self1) _) as [[? ?]|]; [|reflexivity].
      cbn [option_map snd].
      destruct (backward (transformer_s.value_proj self1) _) as [[? ?]|]; reflexivity.
  - intros self self1 x y q k v rng Hf Ht Hq Hk Hv n heads fns.
    assert (Hs : transformer._backward self1 = Some fns /\
                 transformer.n_heads self1 = transformer.n_heads self /\
                 transformer.dropout_p self1 = transformer.dropout_p self).
    { unfold transformer.MultiHeadAttention_forward, output in *. rewrite Ht in Hf.
      destruct (forward (transformer.query self) x) as [[qp q']|]; [|discriminate].
      destruct (forward (transformer.key self) x) as [[kp k']|]; [|discriminate].
      destruct (forward (transformer.value self) x) as [[vp v']|]; [|discriminate].
      cbn in Hq, Hk, Hv. injection Hq as ->. injection Hk as ->. injection Hv as ->.
      match type of Hf with
      | context [transformer.forward_heads ?m ?p ?t ?g ?i ?hs ?f0 ?ys] =>
          pose proof (forward_heads_closures m p t g hs i f0 ys) as Hc;
          destruct (transformer.forward_heads m p t g i hs f0 ys) as [fns' ys']
      end.
      cbn [fst app] in Hc.
      destruct (forward (transformer.out_proj self) (concat ys')) as [[op o]|]; [|discriminate].
      destruct (if Rltb 0 (transformer.dropout_p self)
                then transformer.through_dropout forward (transformer.dropout self) o
                else Some (transformer.dropout self, o)) as [[dr o']|]; [|discriminate].
      injection Hf as <- <-. cbn. repeat split. now rewrite Hc. }
    destruct Hs as (Hb & Hn & Hp).
    split; [exact Hb|]. split.
    + intros g. now rewrite backward_heads_in_order.
    + intros dy. unfold output, transformer.MultiHeadAttention_backward.
      rewrite Hb, Hn, Hp. fold n.
      destruct (Rltb 0 (transformer.dropout_p self)).
      * destruct (transformer.through_dropout backward (transformer.dropout self1) dy)
          as [[dr g0]|]; [|reflexivity].
        cbn [option_map snd].
        destruct (backward (transformer.out_proj self1) g0) as [[op g]|]; [|reflexivity].
        cbn [option_map snd]. rewrite backward_heads_in_order.
        destruct (call_heads fns (split g n)) as [r|]; [|reflexivity]. cbn [app].
        destruct (backward (transformer.query self1) _) as [[? ?]|]; [|reflexivity].
        cbn [option_map snd].
        destruct (backward (transformer.key self1) _) as [[? ?]|]; [|reflexivity].
        cbn [option_map snd].
        destruct (backward (transformer.value self1) _) as [[? ?]|]; reflexivity.
      * destruct (backward (transformer.out_proj self1) dy) as [[op g]|]; [|reflexivity].
        cbn [option_map snd]. rewrite backward_heads_in_order.
        destruct (call_heads fns (split g n)) as [r|]; [|reflexivity]. cbn [app].
        destruct (backward (transformer.query self1) _) as [[? ?]|]; [|reflexivity].
        cbn [option_map snd].
        destruct (backward (transformer.key self1) _) as [[? ?]|]; [|reflexivity].
        cbn [option_map snd].
        destruct (backward (transformer.value self1) _) as [[? ?]|]; reflexivity.
Qed.

(** A module of [transformer.py] with two heads, identity projections, an
    identity dropout layer and dropout probability one half, in training
    mode; and the dropout maps its two heads sample: head 0 keeps its
    weight (scaled by two), head 1 drops it. *)
Definition mha_two_heads : transformer.MultiHeadAttention unit unit :=
  transformer.mkMHA 2 None (/ 2) tt tt tt tt (Some tt) true None.

Definition two_maps (i : nat) : tensor3 :=
  match i with
  | O => [[[2]]]
  | _ => [[[0]]]
  end.

Lemma Rltb_0_half : Rltb 0 (/ 2) = true.
Proof.
  unfold Rltb. destruct (Rlt_dec 0 (/ 2)) as [H|H]; [reflexivity | lra].
Qed.

(** Evaluation of the list structure of a concrete run, the real numbers
    left as they are. *)
Ltac run :=
  cbv -[IZR INR exp sqrt Rpower Rltb Rmax Rplus Rmult Rminus Rdiv Rinv Ropp].

Ltac solve_exp :=
  match goal with
  | |- context [exp ?t] =>
      generalize (exp_pos t); generalize (exp t); intros; solve_exp
  | |- _ => try (field; lra); try lra
  end.

(** C3, counterexample.  On an input of one position and two channels,
    the backward loop of [transformer.py] serves head 0 first: the first
    value gradient it appends is head 0's (its kept weight 2 times its
    chunk 3), the second is head 1's (its dropped weight 0 times its
    chunk 5).  Served in reverse order, the list would start with head
    1's gradient. *)
Lemma heads_served_first_to_last :
  exists self1 y fns dq_heads dk_heads,
    @transformer.MultiHeadAttention_forward unit unit Identity_Layer Identity_Layer
      mha_two_heads [[[1; 2]]] two_maps = Some (self1, y) /\
    transformer._backward self1 = Some fns /\
    split [[[3; 5]]] 2 = [[[[3]]]; [[[5]]]] /\
    transformer.backward_heads (combine fns (split [[[3; 5]]] 2)) [] [] [] =
    Some (dq_heads, dk_heads, [[[[6]]]; [[[0]]]]) /\
    [[[[6]]]; [[[0]]]] <> rev [[[[6]]]; [[[0]]]].
Proof.
  do 5 eexists. split; [|split; [|split; [|split]]].
  - unfold transformer.MultiHeadAttention_forward, mha_two_heads.
    run. rewrite ?Rltb_0_half. run. reflexivity.
  - reflexivity.
  - reflexivity.
  - run. rewrite ?Rltb_0_half. run.
    apply f_equal. apply f_equal2; [reflexivity|].
    repeat f_equal; solve_exp.
  - simpl. intros H. injection H as H _. lra.
Qed.

(** ** Concrete runs *)


(** C2 on the same input: the backward call on the cache of the forward
    call. *)
Lemma attention_backward_formula_witness :
  transformer_s.FSDPAttention_backward
    (fst (transformer_s.FSDPAttention_forward
            empty_cache [[[1]; [2]]] [[[3]; [4]]] [[[5]; [6]]] None 0 false []))
    [[[7]; [8]]] =
  Some (empty_cache,
        spec_attention_grads [[[1]; [2]]] [[[3]; [4]]] [[[5]; [6]]] None
                             (if Rltb 0 0 then Some [] else None) [[[7]; [8]]]).
Proof.
  exact (proj1 (attention_backward_formula 1 2 1 [[[1]; [2]]] [[[3]; [4]]] [[[5]; [6]]]
                  eq_refl (le_n 1) (le_S 1 1 (le_n 1)) (le_n 1))
               empty_cache None 0 false [] [[[7]; [8]]]).
Defined.

(** C4 on two inputs that agree at position 0 and differ at position 1. *)
Lemma causal_mask_noninterference_witness :
  map (firstn 1)
      (fst (snd (transformer_s.FSDPAttention_forward
                   empty_cache [[[1]; [2]]] [[[3]; [4]]] [[[5]; [6]]]
                   (Some (transformer_s.get_causal_mask (3, 3)%nat)) 0 false []))) =
  map (firstn 1)
      (fst (snd (transformer_s.FSDPAttention_forward
                   empty_cache [[[1]; [7]]] [[[3]; [8]]] [[[5]; [9]]]
                   (Some (transformer_s.get_causal_mask (3, 3)%nat)) 0 false []))).
Proof.
  exact (causal_mask_noninterference 1 2 1 0 3 3 empty_cache empty_cache
           [[[1]; [2]]] [[[3]; [4]]] [[[5]; [6]]] [[[1]; [7]]] [[[3]; [8]]] [[[5]; [9]]]
           0 false []
           eq_refl eq_refl eq_refl eq_refl eq_refl eq_refl
           (le_n 1) (le_S 2 2 (le_n 2)) (le_S 2 2 (le_n 2))
           eq_refl eq_refl eq_refl).
Defined.

(** ** Stored parameters *)

Lemma heap_update_same (h h' : heap) (r : ref) (f : Param -> Param) :
  heap_update h r f = Some h' ->
  exists p, nth_error h r = Some p /\ nth_error h' r = Some (f p).
Proof.
  unfold heap_update. destruct (nth_error h r) as [p|] eqn:E; [|discriminate].
  intros H. injection H as <-. exists p. split; [reflexivity|].
  assert (Hr : (r < length h)%nat) by (apply nth_error_Some; congruence).
  rewrite nth_error_app2 by (rewrite length_firstn; lia).
  rewrite length_firstn, Nat.min_l, Nat.sub_diag by lia. reflexivity.
Qed.

Lemma heap_update_other (h h' : heap) (r r' : ref) (f : Param -> Param) :
  heap_update h r f = Some h' -> r' <> r -> nth_error h' r' = nth_error h r'.
Proof.
  unfold heap_update. destruct (nth_error h r) as [p|] eqn:E; [|discriminate].
  intros H Hne. injection H as <-.
  assert (Hr : (r < length h)%nat) by (apply nth_error_Some; congruence).
  destruct (Nat.lt_ge_cases r' r) as [Hlt|Hge].
  - rewrite nth_error_app1 by (rewrite length_firstn; lia).
    now rewrite nth_error_firstn, (proj2 (Nat.ltb_lt r' r) Hlt).
  - rewrite nth_error_app2 by (rewrite length_firstn; lia).
    rewrite length_firstn, Nat.min_l by lia.
    replace (r' - r)%nat with (S (r' - S r)) by lia.
    change (nth_error (skipn (S r) h) (r' - S r) = nth_error h r').
    rewrite nth_error_skipn. f_equal. lia.
Qed.

Lemma update_parameter_grad_same (h h' : heap) (r : ref) (dw : matrix) :
  update_parameter_grad h r dw = Some h' ->
  grad_at h' r = accumulate (grad_at h r) dw.
Proof.
  intros H. apply heap_update_same in H. destruct H as (p & E & E').
  unfold grad_at. now rewrite E, E'.
Qed.

Lemma update_parameter_grad_other (h h' : heap) (r r' : ref) (dw : matrix) :
  update_parameter_grad h r dw = Some h' -> r' <> r -> grad_at h' r' = grad_at h r'.
Proof.
  intros H Hne. unfold grad_at. now rewrite (heap_update_other _ _ _ _ _ H Hne).
Qed.

Lemma update_parameter_grad_data (h h' : heap) (r r' : ref) (dw : matrix) :
  update_parameter_grad h r dw = Some h' ->
  option_map data (nth_error h' r') = option_map data (nth_error h r').
Proof.
  intros H. destruct (Nat.eq_dec r' r) as [->|Hne].
  - apply heap_update_same in H. destruct H as (p & E & E'). now rewrite E, E'.
  - now rewrite (heap_update_other _ _ _ _ _ H Hne).
Qed.

Lemma heap_update_length (h h' : heap) (r : ref) (f : Param -> Param) :
  heap_update h r f = Some h' -> length h' = length h.
Proof.
  unfold heap_update. destruct (nth_error h r) as [p|] eqn:E; [|discriminate].
  intros H. injection H as <-.
  assert (Hr : (r < length h)%nat) by (apply nth_error_Some; congruence).
  change (length (firstn r h ++ [f p] ++ skipn (S r) h) = length h).
  rewrite !length_app, length_firstn, length_skipn. cbn [length]. lia.
Qed.

Lemma set_data_length (h : heap) (r : ref) (d : matrix) : length (set_data h r d) = length h.
Proof.
  unfold set_data. destruct (heap_update h r _) as [h'|] eqn:E; [|reflexivity].
  now apply heap_update_length in E.
Qed.

(** ** Weight tying *)

(** The language-model head reads and writes the parameter of the token
    embedding, and no other parameter of the three layers is that one. *)
Definition tied_refs (token_emb pos_emb : Embedding) (lm_head : LinearModule) : Prop :=
  lin_w lm_head = emb_w token_emb /\
  emb_w pos_emb <> emb_w token_emb /\
  lin_b lm_head <> Some (emb_w token_emb) /\
  lin_b lm_head <> Some (emb_w pos_emb).

Lemma Linear_backward_inv {K : Kernels} (l l' : LinearModule) (dy dx : tensor3) (h h' : heap) :
  Linear_backward l dy h = Some (l', dx, h') ->
  exists x p dw db,
    hd_error (lin_cache l) = Some x /\
    nth_error h (lin_w l) = Some p /\
    FLinear_backward (data p) x dy = (dx, dw, db) /\
    lin_w l' = lin_w l /\ lin_b l' = lin_b l /\
    (lin_b l <> Some (lin_w l) -> grad_at h' (lin_w l) = accumulate (grad_at h (lin_w l)) dw) /\
    (forall r, r <> lin_w l -> lin_b l <> Some r -> grad_at h' r = grad_at h r).
Proof.
  unfold Linear_backward. intros H.
  destruct (lin_cache l) as [|x rest]; [discriminate|].
  destruct (nth_error h (lin_w l)) as [p|] eqn:Ep; [|discriminate].
  destruct (FLinear_backward (data p) x dy) as [[dx0 dw] db] eqn:Ek.
  destruct (update_parameter_grad h (lin_w l) dw) as [h1|] eqn:E1; [|discriminate].
  exists x, p, dw, db.
  destruct (lin_b l) as [rb|] eqn:Eb.
  - destruct (update_parameter_grad h1 rb db) as [h2|] eqn:E2; [|discriminate].
    injection H as <- <- <-. cbn. repeat split; auto.
    + intros Hne.
      rewrite (update_parameter_grad_other _ _ _ _ _ E2) by congruence.
      now apply update_parameter_grad_same.
    + intros r Hr Hb.
      rewrite (update_parameter_grad_other _ _ _ _ _ E2) by congruence.
      now apply (update_parameter_grad_other _ _ _ _ _ E1).
  - injection H as <- <- <-. cbn. repeat split; auto.
    + intros _. now apply update_parameter_grad_same.
    + intros r Hr _. now apply (update_parameter_grad_other _ _ _ _ _ E1).
Qed.

Lemma Embedding_backward_inv {K : Kernels} (e e' : Embedding) (dy : tensor) (h h' : heap) :
  Embedding_backward e dy h = Some (e', h') ->
  exists x,
    hd_error (emb_cache e) = Some x /\
    emb_w e' = emb_w e /\
    update_parameter_grad h (emb_w e) (FEmbedding_backward x dy) = Some h'.
Proof.
  unfold Embedding_backward. intros H.
  destruct (emb_cache e) as [|x rest]; [discriminate|].
  destruct (update_parameter_grad h (emb_w e) _) as [h1|] eqn:E; [|discriminate].
  injection H as <- <-. exists x. repeat split; assumption.
Qed.

Lemma tied_gradient {K : Kernels} (tok pos te' pe' : Embedding) (head l' : LinearModule)
      (dy dx g : tensor3) (argpos : tensor) (h h1 h2 h3 : heap) :
  tied_refs tok pos head ->
  Linear_backward head dy h = Some (l', dx, h1) ->
  Embedding_backward tok (T3 g) h1 = Some (te', h2) ->
  Embedding_backward pos argpos h2 = Some (pe', h3) ->
  exists x p dw db ids,
    hd_error (lin_cache head) = Some x /\
    nth_error h (emb_w tok) = Some p /\
    FLinear_backward (data p) x dy = (dx, dw, db) /\
    hd_error (emb_cache tok) = Some ids /\
    grad_at h1 (emb_w tok) = accumulate (grad_at h (emb_w tok)) dw /\
    grad_at h2 (emb_w tok) =
    accumulate (grad_at h1 (emb_w tok)) (FEmbedding_backward ids (T3 g)) /\
    grad_at h3 (emb_w tok) = grad_at h2 (emb_w tok) /\
    grad_at h3 (emb_w tok) =
    accumulate (accumulate (grad_at h (emb_w tok)) dw) (FEmbedding_backward ids (T3 g)) /\
    tied_refs te' pe' l'.
Proof.
  intros (Hw & Hpos & Hb1 & Hb2) Hl Ht Hp.
  apply Linear_backward_inv in Hl.
  destruct Hl as (x & p & dw & db & Hx & Hp0 & Hk & Hw' & Hb' & Hsame & _).
  apply Embedding_backward_inv in Ht. destruct Ht as (ids & Hids & Ht' & Hu).
  apply Embedding_backward_inv in Hp. destruct Hp as (ip & _ & Hp' & Hup).
  rewrite Hw in *.
  assert (G1 : grad_at h1 (emb_w tok) = accumulate (grad_at h (emb_w tok)) dw)
    by (apply Hsame; assumption).
  assert (G2 : grad_at h2 (emb_w tok) =
               accumulate (grad_at h1 (emb_w tok)) (FEmbedding_backward ids (T3 g)))
    by (apply (update_parameter_grad_same _ _ _ _ Hu)).
  assert (G3 : grad_at h3 (emb_w tok) = grad_at h2 (emb_w tok))
    by (apply (update_parameter_grad_other _ _ _ _ _ Hup); congruence).
  exists x, p, dw, db, ids.
  split; [assumption|]. split; [assumption|]. split; [assumption|]. split; [assumption|].
  split; [exact G1|]. split; [exact G2|]. split; [exact G3|].
  split; [now rewrite G3, G2, G1|].
  unfold tied_refs. repeat split; congruence.
Qed.

(** C5.  Construction of the top-level model leaves the language-model
    head and the token embedding holding one and the same stored
    parameter, in both variants; and with the two so tied, a backward
    pass leaves on that parameter the gradient it had, plus the head's
    contribution, plus the embedding's contribution: the contributions
    accumulate, starting from nothing they add up to their sum.  The
    head's contribution [dw] is the weight gradient of the linear kernel
    on the gradient [dy] the pass is called with; the embedding's
    contribution is the embedding kernel's value on [g], the gradient
    that the pass carries from the head through the norm and the blocks,
    last block first, and hands to the token embedding. *)
Theorem weight_tying {Blk LN : Type} {K : Kernels} {LB : Layer Blk} {LL : Layer LN} :
  (forall h n_blocks max_seq_len new_block new_ln w1 w2 w3 w4 w5 w6 h'
          (self : transformer_s.Transformer Blk LN),
      transformer_s.Transformer_init h n_blocks max_seq_len new_block new_ln
                                     w1 w2 w3 w4 w5 w6 = inr (h', self) ->
      tied_refs (transformer_s.token_emb self) (transformer_s.pos_emb self)
                (transformer_s.lm_head self) /\
      (emb_w (transformer_s.token_emb self) < length h')%nat) /\
  (forall h n_layers new_block new_ln w1 w2 w3 w4 w5 h'
          (self : transformer.Transformer Blk LN),
      transformer.Transformer_init h n_layers new_block new_ln w1 w2 w3 w4 w5 = inr (h', self) ->
      tied_refs (transformer.token_emb self) (transformer.pos_emb self)
                (transformer.lm_head self) /\
      (emb_w (transformer.token_emb self) < length h')%nat) /\
  (forall (self self' : transformer_s.Transformer Blk LN) dy h h',
      tied_refs (transformer_s.token_emb self) (transformer_s.pos_emb self)
                (transformer_s.lm_head self) ->
      transformer_s.Transformer_backward self dy h = Some (self', h') ->
      let r := emb_w (transformer_s.token_emb self) in
      exists x p dx dw db ids g h1 ln' g1 bs h2,
        hd_error (lin_cache (transformer_s.lm_head self)) = Some x /\
        nth_error h r = Some p /\
        FLinear_backward (data p) x dy = (dx, dw, db) /\
        hd_error (emb_cache (transformer_s.token_emb self)) = Some ids /\
        Linear_backward (transformer_s.lm_head self) dy h =
        Some (transformer_s.lm_head self', dx, h1) /\
        backward (transformer_s.ln self) dx = Some (ln', g1) /\
        transformer_s.backward_blocks (rev (transformer_s.blocks self)) g1 = Some (bs, g) /\
        Embedding_backward (transformer_s.token_emb self) (T3 g) h1 =
        Some (transformer_s.token_emb self', h2) /\
        Embedding_backward (transformer_s.pos_emb self) (T2 (sum_axis0 g)) h2 =
        Some (transformer_s.pos_emb self', h') /\
        grad_at h1 r = accumulate (grad_at h r) dw /\
        grad_at h2 r = accumulate (grad_at h1 r) (FEmbedding_backward ids (T3 g)) /\
        grad_at h' r = grad_at h2 r /\
        grad_at h' r =
        accumulate (accumulate (grad_at h r) dw) (FEmbedding_backward ids (T3 g)) /\
        (grad_at h r = None ->
         grad_at h' r = Some (madd dw (FEmbedding_backward ids (T3 g)))) /\
        tied_refs (transformer_s.token_emb self') (transformer_s.pos_emb self')
                  (transformer_s.lm_head self')) /\
  (forall (self self' : transformer.Transformer Blk LN) dy dummy h h',
      tied_refs (transformer.token_emb self) (transformer.pos_emb self)
                (transformer.lm_head self) ->
      transformer.Transformer_backward self dy h = Some (self', dummy, h') ->
      let r := emb_w (transformer.token_emb self) in
      exists x p dx dw db ids g h1 ln' g1 bs h2,
        hd_error (lin_cache (transformer.lm_head self)) = Some x /\
        nth_error h r = Some p /\
        FLinear_backward (data p) x dy = (dx, dw, db) /\
        hd_error (emb_cache (transformer.token_emb self)) = Some ids /\
        Linear_backward (transformer.lm_head self) dy h =
        Some (transformer.lm_head self', dx, h1) /\
        backward (transformer.ln self) dx = Some (ln', g1) /\
        transformer_s.backward_blocks (rev (transformer.blocks self)) g1 = Some (bs, g) /\
        Embedding_backward (transformer.token_emb self) (T3 g) h1 =
        Some (transformer.token_emb self', h2) /\
        Embedding_backward (transformer.pos_emb self) (T3 g) h2 =
        Some (transformer.pos_emb self', h') /\
        grad_at h1 r = accumulate (grad_at h r) dw /\
        grad_at h2 r = accumulate (grad_at h1 r) (FEmbedding_backward ids (T3 g)) /\
        grad_at h' r = grad_at h2 r /\
        grad_at h' r =
        accumulate (accumulate (grad_at h r) dw) (FEmbedding_backward ids (T3 g)) /\
        (grad_at h r = None ->
         grad_at h' r = Some (madd dw (FEmbedding_backward ids (T3 g)))) /\
        tied_refs (transformer.token_emb self') (transformer.pos_emb self')
                  (transformer.lm_head self')).
Proof.
  split; [|split; [|split]].
  - intros h n_blocks max_seq_len new_block new_ln w1 w2 w3 w4 w5 w6 h' self Hi.
    unfold transformer_s.Transformer_init, Embedding_new, Linear_new, alloc in Hi.
    destruct (transformer_s.build_blocks new_block 0 (Z.to_nat n_blocks)) as [e|bs];
      [discriminate|].
    injection Hi as <- <-. unfold tied_refs. cbn.
    rewrite !length_app, !set_data_length, !length_app. cbn [length].
    repeat split; try lia; try (intros H; injection H; lia).
  - intros h n_layers new_block new_ln w1 w2 w3 w4 w5 h' self Hi.
    unfold transformer.Transformer_init, Embedding_new, Linear_new, alloc in Hi.
    destruct (transformer_s.build_blocks new_block 0 (Z.to_nat n_layers)) as [e|bs];
      [discriminate|].
    injection Hi as <- <-. unfold tied_refs. cbn.
    rewrite !length_app. cbn [length].
    repeat split; try lia; try discriminate.
  - intros self self' dy h h' Ht Hb r.
    unfold transformer_s.Transformer_backward in Hb.
    destruct (Linear_backward (transformer_s.lm_head self) dy h) as [[[l' dx] h1]|] eqn:E1;
      [|discriminate].
    destruct (backward (transformer_s.ln self) dx) as [[ln' g1]|] eqn:En; [|discriminate].
    destruct (transformer_s.backward_blocks (rev (transformer_s.blocks self)) g1)
      as [[bs g]|] eqn:Eb; [|discriminate].
    destruct (Embedding_backward (transformer_s.token_emb self) (T3 g) h1)
      as [[te h2]|] eqn:E2; [|discriminate].
    destruct (Embedding_backward (transformer_s.pos_emb self) (T2 (sum_axis0 g)) h2)
      as [[pe h3]|] eqn:E3; [|discriminate].
    injection Hb as <- <-.
    destruct (tied_gradient _ _ _ _ _ _ _ _ _ _ _ _ _ _ Ht E1 E2 E3)
      as (x & p & dw & db & ids & H1 & H2 & H3 & H4 & H5 & H6 & H7 & H8 & H9).
    exists x, p, dx, dw, db, ids, g, h1, ln', g1, bs, h2.
    cbn [transformer_s.lm_head transformer_s.token_emb transformer_s.pos_emb].
    split; [exact H1|]. split; [exact H2|]. split; [exact H3|]. split; [exact H4|].
    do 5 (split; [first [reflexivity | eassumption]|]).
    split; [exact H5|]. split; [exact H6|]. split; [exact H7|]. split; [exact H8|].
    split; [|exact H9].
    intros Hn. subst r. rewrite H8, Hn. reflexivity.
  - intros self self' dy dummy h h' Ht Hb r.
    unfold transformer.Transformer_backward in Hb.
    destruct (transformer.Transformer_backward_closure self) as [x0|]; [|discriminate].
    destruct (Linear_backward (transformer.lm_head self) dy h) as [[[l' dx] h1]|] eqn:E1;
      [|discriminate].
    destruct (backward (transformer.ln self) dx) as [[ln' g1]|] eqn:En; [|discriminate].
    destruct (transformer_s.backward_blocks (rev (transformer.blocks self)) g1)
      as [[bs g]|] eqn:Eb; [|discriminate].
    destruct (Embedding_backward (transformer.token_emb self) (T3 g) h1)
      as [[te h2]|] eqn:E2; [|discriminate].
    destruct (Embedding_backward (transformer.pos_emb self) (T3 g) h2)
      as [[pe h3]|] eqn:E3; [|discriminate].
    injection Hb as <- <- <-.
    destruct (tied_gradient _ _ _ _ _ _ _ _ _ _ _ _ _ _ Ht E1 E2 E3)
      as (x & p & dw & db & ids & H1 & H2 & H3 & H4 & H5 & H6 & H7 & H8 & H9).
    exists x, p, dx, dw, db, ids, g, h1, ln', g1, bs, h2.
    cbn [transformer.lm_head transformer.token_emb transformer.pos_emb].
    split; [exact H1|]. split; [exact H2|]. split; [exact H3|]. split; [exact H4|].
    do 5 (split; [first [reflexivity | eassumption]|]).
    split; [exact H5|]. split; [exact H6|]. split; [exact H7|]. split; [exact H8|].
    split; [|exact H9].
    intros Hn. subst r. rewrite H8, Hn. reflexivity.
Qed.

(** ** The gradients that reach the two embeddings *)

(** C6, variant by variant.  In the backward pass of [transformer_s.py] the token
    embedding receives the gradient that comes out of the block stack and
    the positional embedding receives that gradient summed over the batch
    axis; in [transformer.py] both embeddings receive the gradient as it
    comes out of the block stack.  With the head tied to the token
    embedding, the gradient left on the positional parameter is what it
    was plus the embedding kernel's value on the tensor received. *)
Theorem embedding_gradients {Blk LN : Type} {K : Kernels} {LB : Layer Blk} {LL : Layer LN} :
  (forall (self self' : transformer_s.Transformer Blk LN) dy h h',
      transformer_s.Transformer_backward self dy h = Some (self', h') ->
      exists l' dx h1 ln' g1 bs g te h2,
        Linear_backward (transformer_s.lm_head self) dy h = Some (l', dx, h1) /\
        backward (transformer_s.ln self) dx = Some (ln', g1) /\
        transformer_s.backward_blocks (rev (transformer_s.blocks self)) g1 = Some (bs, g) /\
        Embedding_backward (transformer_s.token_emb self) (T3 g) h1 = Some (te, h2) /\
        Embedding_backward (transformer_s.pos_emb self) (T2 (sum_axis0 g)) h2 =
        Some (transformer_s.pos_emb self', h') /\
        (tied_refs (transformer_s.token_emb self) (transformer_s.pos_emb self)
                   (transformer_s.lm_head self) ->
         exists ids,
           hd_error (emb_cache (transformer_s.pos_emb self)) = Some ids /\
           grad_at h' (emb_w (transformer_s.pos_emb self)) =
           accumulate (grad_at h (emb_w (transformer_s.pos_emb self)))
                      (FEmbedding_backward ids (T2 (sum_axis0 g))))) /\
  (forall (self self' : transformer.Transformer Blk LN) dy dummy h h',
      transformer.Transformer_backward self dy h = Some (self', dummy, h') ->
      exists l' dx h1 ln' g1 bs g te h2,
        Linear_backward (transformer.lm_head self) dy h = Some (l', dx, h1) /\
        backward (transformer.ln self) dx = Some (ln', g1) /\
        transformer_s.backward_blocks (rev (transformer.blocks self)) g1 = Some (bs, g) /\
        Embedding_backward (transformer.token_emb self) (T3 g) h1 = Some (te, h2) /\
        Embedding_backward (transformer.pos_emb self) (T3 g) h2 =
        Some (transformer.pos_emb self', h') /\
        (tied_refs (transformer.token_emb self) (transformer.pos_emb self)
                   (transformer.lm_head self) ->
         exists ids,
           hd_error (emb_cache (transformer.pos_emb self)) = Some ids /\
           grad_at h' (emb_w (transformer.pos_emb self)) =
           accumulate (grad_at h (emb_w (transformer.pos_emb self)))
                      (FEmbedding_backward ids (T3 g)))).
Proof.
  assert (Hpos : forall (tok pos te pe : Embedding) (head l' : LinearModule)
                        (dy dx g : tensor3) (arg : tensor) (h h1 h2 h3 : heap),
             Linear_backward head dy h = Some (l', dx, h1) ->
             Embedding_backward tok (T3 g) h1 = Some (te, h2) ->
             Embedding_backward pos arg h2 = Some (pe, h3) ->
             tied_refs tok pos head ->
             exists ids,
               hd_error (emb_cache pos) = Some ids /\
               grad_at h3 (emb_w pos) =
               accumulate (grad_at h (emb_w pos)) (FEmbedding_backward ids arg)).
  { intros tok pos te pe head l' dy dx g arg h h1 h2 h3 Hl Ht Hp (Hw & Hne & Hb1 & Hb2).
    apply Linear_backward_inv in Hl.
    destruct Hl as (x & p & dw & db & _ & _ & _ & _ & _ & _ & Hoth).
    apply Embedding_backward_inv in Ht. destruct Ht as (it & _ & _ & Hu).
    apply Embedding_backward_inv in Hp. destruct Hp as (ip & Hip & _ & Hup).
    exists ip. split; [assumption|].
    rewrite (update_parameter_grad_same _ _ _ _ Hup).
    rewrite (update_parameter_grad_other _ _ _ _ _ Hu) by assumption.
    rewrite Hoth by congruence. reflexivity. }
  split.
  - intros self self' dy h h' Hb.
    unfold transformer_s.Transformer_backward in Hb.
    destruct (Linear_backward (transformer_s.lm_head self) dy h) as [[[l' dx] h1]|] eqn:E1;
      [|discriminate].
    destruct (backward (transformer_s.ln self) dx) as [[ln' g1]|] eqn:E2; [|discriminate].
    destruct (transformer_s.backward_blocks (rev (transformer_s.blocks self)) g1)
      as [[bs g]|] eqn:E3; [|discriminate].
    destruct (Embedding_backward (transformer_s.token_emb self) (T3 g) h1)
      as [[te h2]|] eqn:E4; [|discriminate].
    destruct (Embedding_backward (transformer_s.pos_emb self) (T2 (sum_axis0 g)) h2)
      as [[pe h3]|] eqn:E5; [|discriminate].
    injection Hb as <- <-.
    exists l', dx, h1, ln', g1, bs, g, te, h2. cbn.
    repeat (split; [reflexivity || assumption|]).
    intros Ht. eapply Hpos; eassumption.
  - intros self self' dy dummy h h' Hb.
    unfold transformer.Transformer_backward in Hb.
    destruct (transformer.Transformer_backward_closure self) as [x0|]; [|discriminate].
    destruct (Linear_backward (transformer.lm_head self) dy h) as [[[l' dx] h1]|] eqn:E1;
      [|discriminate].
    destruct (backward (transformer.ln self) dx) as [[ln' g1]|] eqn:E2; [|discriminate].
    destruct (transformer_s.backward_blocks (rev (transformer.blocks self)) g1)
      as [[bs g]|] eqn:E3; [|discriminate].
    destruct (Embedding_backward (transformer.token_emb self) (T3 g) h1)
      as [[te h2]|] eqn:E4; [|discriminate].
    destruct (Embedding_backward (transformer.pos_emb self) (T3 g) h2)
      as [[pe h3]|] eqn:E5; [|discriminate].
    injection Hb as <- <- <-.
    exists l', dx, h1, ln', g1, bs, g, te, h2. cbn.
    repeat (split; [reflexivity || assumption|]).
    intros Ht. eapply Hpos; eassumption.
Qed.

(** Kernels that record what they are given: the embedding gradient is
    the rows of the tensor received, one batch entry after the other, and
    the linear layer passes its gradient through. *)
Definition recording_kernels : Kernels :=
  {| FEmbedding_forward := fun _ _ => T3 [];
     FEmbedding_backward := fun _ dy =>
                              match dy with
                              | T2 m => m
                              | T3 x => List.concat x
                              end;
     FLinear_forward := fun _ _ x => x;
     FLinear_backward := fun _ _ dy => (dy, [], []) |}.

(** A model of [transformer.py] without blocks, after a forward pass on a
    batch of two sequences of one token. *)
Definition transformer_after_forward : transformer.Transformer unit unit :=
  transformer.mkTransformer
    (mkEmbedding 0%nat [I2 [[0%nat]; [0%nat]]])
    (mkEmbedding 1%nat [I1 [0%nat]])
    [] tt
    (mkLinear 0%nat None [[[[1]]; [[1]]]])
    (Some [[[0]]; [[0]]]).

(** C6, counterexample.  On a batch of two, the backward pass of
    [transformer.py] hands the positional embedding the two rows of the
    gradient, one per batch entry, not their sum. *)
Lemma pos_emb_receives_unsummed_gradient :
  exists self' dummy h',
    @transformer.Transformer_backward unit unit recording_kernels Identity_Layer Identity_Layer
      transformer_after_forward [[[1]]; [[2]]]
      [mkParam [[0]] None; mkParam [[0]] None] = Some (self', dummy, h') /\
    grad_at h' 1%nat = Some [[1]; [2]] /\
    @FEmbedding_backward recording_kernels (I1 [0%nat]) (T3 [[[1]]; [[2]]]) = [[1]; [2]] /\
    @FEmbedding_backward recording_kernels (I1 [0%nat]) (T2 (sum_axis0 [[[1]]; [[2]]])) =
    [[1 + 2]] /\
    [[1]; [2]] <> [[1 + 2]].
Proof.
  do 3 eexists. split; [|split; [|split; [|split]]].
  - run. reflexivity.
  - reflexivity.
  - reflexivity.
  - reflexivity.
  - discriminate.
Qed.

(** ** The sinusoidal positional encoding *)

Lemma set_strided_nil_vals (row : vector) : transformer_s.set_strided 0 row [] = row.
Proof.
  now destruct row.
Qed.

Lemma set_strided_length (row : vector) :
  forall start vals, length (transformer_s.set_strided start row vals) = length row.
Proof.
  induction row as [|x row IH]; intros start vals; [reflexivity|].
  destruct start as [|k]; cbn [transformer_s.set_strided].
  - destruct vals as [|v vals]; [reflexivity|]. cbn [length]. now rewrite IH.
  - cbn [length]. now rewrite IH.
Qed.

Lemma set_strided_0_even (i : nat) :
  forall row vals,
    (2 * i < length row)%nat -> (i < length vals)%nat ->
    nth (2 * i) (transformer_s.set_strided 0 row vals) 0 = nth i vals 0.
Proof.
  induction i as [|i IH]; intros row vals Hr Hv.
  - destruct row as [|x row], vals as [|v vals]; simpl in *; try lia. reflexivity.
  - replace (2 * S i)%nat with (S (S (2 * i))) in * by lia.
    destruct row as [|x [|y row]], vals as [|v vals]; simpl in Hr, Hv; try lia.
    cbn [transformer_s.set_strided nth]. apply IH; lia.
Qed.

Lemma set_strided_0_odd (i : nat) :
  forall row vals,
    nth (2 * i + 1) (transformer_s.set_strided 0 row vals) 0 = nth (2 * i + 1) row 0.
Proof.
  induction i as [|i IH]; intros row vals.
  - destruct row as [|x [|y row]], vals as [|v vals]; reflexivity.
  - replace (2 * S i + 1)%nat with (S (S (2 * i + 1))) by lia.
    destruct row as [|x [|y row]], vals as [|v vals]; try reflexivity.
    cbn [transformer_s.set_strided nth]. apply IH.
Qed.

Lemma set_strided_1_odd (i : nat) (row vals : vector) :
  (2 * i + 1 < length row)%nat -> (i < length vals)%nat ->
  nth (2 * i + 1) (transformer_s.set_strided 1 row vals) 0 = nth i vals 0.
Proof.
  intros Hr Hv. destruct row as [|x row]; simpl in Hr; [lia|].
  replace (2 * i + 1)%nat with (S (2 * i)) by lia.
  cbn [transformer_s.set_strided nth]. apply set_strided_0_even; lia.
Qed.

Lemma set_strided_1_even (i : nat) (row vals : vector) :
  nth (2 * i) (transformer_s.set_strided 1 row vals) 0 = nth (2 * i) row 0.
Proof.
  destruct row as [|x row]; [reflexivity|].
  destruct i as [|i]; [reflexivity|].
  replace (2 * S i)%nat with (S (2 * i + 1)) by lia.
  cbn [transformer_s.set_strided nth]. apply set_strided_0_odd.
Qed.

Lemma nth_zip_with {A B C : Type} (f : A -> B -> C) (a : list A) (b : list B)
      (da : A) (db : B) (dc : C) (p : nat) :
  (p < length a)%nat -> (p < length b)%nat ->
  nth p (zip_with f a b) dc = f (nth p a da) (nth p b db).
Proof.
  revert a b; induction p as [|p IH]; intros [|x a] [|y b] Ha Hb; simpl in *; try lia.
  - reflexivity.
  - apply IH; lia.
Qed.

Lemma nth_map_lt {A B : Type} (f : A -> B) (l : list A) (da : A) (db : B) (i : nat) :
  (i < length l)%nat -> nth i (map f l) db = f (nth i l da).
Proof.
  intros Hi. rewrite nth_indep with (d' := f da) by (now rewrite length_map).
  apply map_nth.
Qed.

Lemma positional_angle (p : R) (base x e : R) :
  0 < base -> e <> 0 ->
  p * exp (x * (- (ln base / e))) = p / Rpower base (x / e).
Proof.
  intros Hb He. unfold Rpower, Rdiv at 2.
  rewrite <- exp_Ropp. f_equal. f_equal. field. assumption.
Qed.

Lemma Forall_zip_with_gen {A B C : Type} (Q : A -> Prop) (P : C -> Prop) (f : A -> B -> C)
      (a : list A) (b : list B) :
  Forall Q a -> (forall x y, Q x -> P (f x y)) -> Forall P (zip_with f a b).
Proof.
  intros Ha Hf. revert b; induction Ha as [|x a Hx Ha IH]; intros [|y b]; simpl; auto.
Qed.

Lemma PositionalEncoding_init_table (L E : nat) (base : R) (pe : transformer_s.PositionalEncoding) :
  transformer_s.PositionalEncoding_init L E base = inr pe ->
  0 < base /\ E <> 0%nat /\
  transformer_s.max_seq_len pe = L /\ transformer_s.embedding_dim pe = E /\
  is_matrix L E (transformer_s.encodings pe) = true /\
  forall p i, (p < L)%nat ->
    ((2 * i < E)%nat ->
     nth (2 * i) (nth p (transformer_s.encodings pe) []) 0 =
     sin (INR p / Rpower base (INR (2 * i) / INR E))) /\
    ((2 * i + 1 < E)%nat ->
     nth (2 * i + 1) (nth p (transformer_s.encodings pe) []) 0 =
     cos (INR p / Rpower base (INR (2 * i) / INR E))).
Proof.
  unfold transformer_s.PositionalEncoding_init. intros H.
  destruct (Rle_dec base 0) as [Hb|Hb]; [discriminate|].
  destruct (Nat.eqb_spec E 0) as [HE|HE]; [discriminate|].
  match type of H with
  | (if negb ?c then _ else _) = _ => destruct c eqn:Hchk; cbn [negb] in H; [|discriminate]
  end.
  injection H as <-. cbn [transformer_s.max_seq_len transformer_s.embedding_dim
                          transformer_s.encodings].
  set (dt := map (fun e => exp (e * - (ln base / INR E))) (transformer_s.arange_step2 E)).
  set (positions := map INR (seq 0 L)).
  set (zeros := repeat (repeat 0 E) L).
  set (sines := map (fun p => map (fun d => sin (p * d)) dt) positions).
  set (cosines := map (fun p => map (fun d => cos (p * d)) dt) positions).
  assert (Hdt : length dt = ((E + 1) / 2)%nat).
  { subst dt. unfold transformer_s.arange_step2. now rewrite !length_map, length_seq. }
  assert (Hz : length zeros = L) by apply repeat_length.
  assert (Hs : length sines = L).
  { subst sines positions. now rewrite !length_map, length_seq. }
  assert (Hc : length cosines = L).
  { subst cosines positions. now rewrite !length_map, length_seq. }
  assert (HpL : length positions = L).
  { subst positions. now rewrite length_map, length_seq. }
  assert (Hx : length (zip_with (transformer_s.set_strided 0) zeros sines) = L).
  { rewrite zip_with_length. lia. }
  assert (Hrow : forall p d, (p < L)%nat -> nth p zeros d = repeat 0 E).
  { intros p d Hp. subst zeros.
    rewrite nth_indep with (d' := repeat 0 E) by (rewrite repeat_length; lia).
    apply nth_repeat. }
  assert (Hpos : forall p, (p < L)%nat -> nth p positions 0 = INR p).
  { intros p Hp. subst positions.
    rewrite nth_map_lt with (da := 0%nat) by (now rewrite length_seq).
    now rewrite seq_nth. }
  assert (Hd : forall i, (i < (E + 1) / 2)%nat ->
                         nth i dt 0 = exp (INR (2 * i) * - (ln base / INR E))).
  { intros i Hi. subst dt. unfold transformer_s.arange_step2.
    rewrite nth_map_lt with (da := 0) by (now rewrite length_map, length_seq).
    rewrite nth_map_lt with (da := 0%nat) by (now rewrite length_seq).
    now rewrite seq_nth. }
  assert (HEne : INR E <> 0) by (apply not_0_INR; assumption).
  assert (Hbpos : 0 < base) by lra.
  repeat split; auto.
  - apply is_matrix_spec. split.
    + rewrite zip_with_length. lia.
    + apply Forall_zip_with_gen with (Q := fun r => length r = E).
      * apply Forall_zip_with_gen with (Q := fun r => length r = E).
        -- subst zeros. apply Forall_forall. intros r Hr.
           apply repeat_spec in Hr. subst r. apply repeat_length.
        -- intros x y Hxl. now rewrite set_strided_length.
      * intros x y Hxl. now rewrite set_strided_length.
  - intros Hi.
    rewrite nth_zip_with with (da := []) (db := []) by lia.
    rewrite set_strided_1_even.
    rewrite nth_zip_with with (da := []) (db := []) by lia.
    assert (Hi2 : (i < (E + 1) / 2)%nat) by (apply (Nat.div_le_lower_bound (E + 1) 2 (S i)); lia).
    rewrite set_strided_0_even.
    + subst sines. rewrite nth_map_lt with (da := 0) by lia.
      rewrite nth_map_lt with (da := 0) by lia.
      rewrite Hpos, Hd by assumption. f_equal. now apply positional_angle.
    + rewrite Hrow, repeat_length by assumption. lia.
    + subst sines. rewrite nth_map_lt with (da := 0) by lia.
      rewrite length_map. lia.
  - intros Hi.
    rewrite nth_zip_with with (da := []) (db := []) by lia.
    assert (Hi2 : (i < (E + 1) / 2)%nat) by (apply (Nat.div_le_lower_bound (E + 1) 2 (S i)); lia).
    rewrite set_strided_1_odd.
    + subst cosines. rewrite nth_map_lt with (da := 0) by lia.
      rewrite nth_map_lt with (da := 0) by lia.
      rewrite Hpos, Hd by assumption. f_equal. now apply positional_angle.
    + rewrite nth_zip_with with (da := []) (db := []) by lia.
      rewrite set_strided_length, Hrow, repeat_length by assumption. lia.
    + subst cosines. rewrite nth_map_lt with (da := 0) by lia.
      rewrite length_map. lia.
Qed.

Lemma even_half (E : nat) : Nat.even E = true -> ((E + 1) / 2 = E / 2)%nat.
Proof.
  intros H. apply Nat.even_spec in H. destruct H as [k ->].
  transitivity k.
  - symmetry. apply Nat.div_unique with (r := 1%nat); lia.
  - apply Nat.div_unique with (r := 0%nat); lia.
Qed.

Lemma arange_step2_length (E : nat) :
  length (transformer_s.arange_step2 E) = ((E + 1) / 2)%nat.
Proof. unfold transformer_s.arange_step2. now rewrite length_map, length_seq. Qed.

(** The constructor returns for every positive base and every even,
    non-zero embedding dimension. *)
Lemma PositionalEncoding_init_total (L E : nat) (base : R) :
  0 < base -> E <> 0%nat -> Nat.even E = true ->
  exists pe, transformer_s.PositionalEncoding_init L E base = inr pe.
Proof.
  intros Hb HE Hev. unfold transformer_s.PositionalEncoding_init.
  destruct (Rle_dec base 0) as [Hle|_]; [lra|].
  destruct (Nat.eqb_spec E 0) as [H0|_]; [contradiction|].
  rewrite length_map, arange_step2_length, (even_half E Hev), Nat.eqb_refl.
  cbn [orb negb]. eexists. reflexivity.
Qed.

(** With an odd embedding dimension of three or more the assignment of the
    cosines to the odd columns does not broadcast and construction raises. *)
Lemma PositionalEncoding_init_odd (L E : nat) (base : R) :
  0 < base -> Nat.odd E = true -> (3 <= E)%nat ->
  transformer_s.PositionalEncoding_init L E base =
  inl (ValueError "could not broadcast input array").
Proof.
  intros Hb Hodd HE. unfold transformer_s.PositionalEncoding_init.
  destruct (Rle_dec base 0) as [Hle|_]; [lra|].
  destruct (Nat.eqb_spec E 0) as [H0|_]; [lia|].
  rewrite length_map, arange_step2_length.
  apply Nat.odd_spec in Hodd. destruct Hodd as [k ->].
  replace ((2 * k + 1 + 1) / 2)%nat with (S k)
    by (apply Nat.div_unique with (r := 0%nat); lia).
  replace ((2 * k + 1) / 2)%nat with k
    by (apply Nat.div_unique with (r := 1%nat); lia).
  destruct (Nat.eqb_spec (S k) k) as [H1|_]; [lia|].
  destruct (Nat.eqb_spec (S k) 1) as [H2|_]; [lia|].
  reflexivity.
Qed.

(** C9.  What [PositionalEncoding] of [transformer_s.py] computes.  For a
    positive base and an even, non-zero embedding dimension [E] the
    constructor returns a module whose table has [max_seq_len] rows of [E]
    entries, with entry [(p, 2i)] equal to [sin (p / base^(2i/E))] and entry
    [(p, 2i+1)] equal to [cos (p / base^(2i/E))].  [forward] returns the
    first [x.shape[1]] rows of the table, and raises when the input has
    fewer than two axes; [backward] returns its argument and leaves the
    module, and so the table, as it was. *)
Theorem PositionalEncoding_table :
  (forall (L E : nat) (base : R),
      0 < base -> E <> 0%nat -> Nat.even E = true ->
      exists pe,
        transformer_s.PositionalEncoding_init L E base = inr pe /\
        transformer_s.max_seq_len pe = L /\
        transformer_s.embedding_dim pe = E /\
        is_matrix L E (transformer_s.encodings pe) = true /\
        forall p i, (p < L)%nat -> (2 * i < E)%nat ->
          nth (2 * i) (nth p (transformer_s.encodings pe) []) 0 =
          sin (INR p / Rpower base (INR (2 * i) / INR E)) /\
          nth (2 * i + 1) (nth p (transformer_s.encodings pe) []) 0 =
          cos (INR p / Rpower base (INR (2 * i) / INR E))) /\
  (forall pe (b s : nat) (rest : list nat),
      transformer_s.PositionalEncoding_forward pe (b :: s :: rest) =
      Some (firstn s (transformer_s.encodings pe))) /\
  (forall pe (s : nat),
      transformer_s.PositionalEncoding_forward pe [s] = None /\
      transformer_s.PositionalEncoding_forward pe [] = None) /\
  (forall pe (dy : tensor3),
      transformer_s.PositionalEncoding_backward pe dy = (pe, dy)).
Proof.
  split; [|split; [|split]].
  - intros L E base Hb HE Hev.
    destruct (PositionalEncoding_init_total L E base Hb HE Hev) as [pe Hpe].
    exists pe. split; [exact Hpe|].
    destruct (PositionalEncoding_init_table L E base pe Hpe)
      as (_ & _ & HL & HEd & Hm & Hent).
    split; [exact HL|]. split; [exact HEd|]. split; [exact Hm|].
    intros p i Hp Hi. destruct (Hent p i Hp) as [Hsin Hcos]. split.
    + apply Hsin; exact Hi.
    + apply Hcos. apply Nat.even_spec in Hev. destruct Hev as [k ->]. lia.
  - reflexivity.
  - intros pe s. split; reflexivity.
  - reflexivity.
Qed.

(** C9, an input with two batch axes.  The input shape documented for the
    layer is [(B_1, ..., B_n, S)].  On an input of shape [(2, 3, 5)], whose
    sequence length is 5, [forward] returns three rows of the table: it
    slices by the second axis, which is the sequence axis only when there is
    one batch axis. *)
Lemma PositionalEncoding_forward_two_batch_axes :
  exists pe,
    transformer_s.PositionalEncoding_init 8 2 10000 = inr pe /\
    transformer_s.PositionalEncoding_forward pe [2; 3; 5]%nat =
    Some (firstn 3 (transformer_s.encodings pe)) /\
    length (firstn 3 (transformer_s.encodings pe)) = 3%nat.
Proof.
  destruct (PositionalEncoding_init_total 8 2 10000) as [pe Hpe];
    [lra | discriminate | reflexivity |].
  exists pe. split; [exact Hpe|]. split; [reflexivity|].
  destruct (PositionalEncoding_init_table 8 2 10000 pe Hpe)
    as (_ & _ & _ & _ & Hm & _).
  apply is_matrix_spec in Hm. destruct Hm as [Hlen _].
  rewrite length_firstn, Hlen. reflexivity.
Qed.

(** ** Concrete runs of the modules *)

(** Evaluation of a run in which dropout is inactive: the tests
    [dropout_p > 0] on probability 0 are decided as they come up. *)
Ltac run_inactive :=
  run;
  repeat (match goal with
          | |- context [Rltb 0 0] =>
              let E := fresh "E" in
              destruct (Rltb 0 0) eqn:E; [rewrite Rltb_0_0 in E; discriminate E|]; clear E
          end; run).

(** A module of [transformer_s.py] with two heads and identity
    projections, not training, retaining values. *)
Definition mha_retaining : transformer_s.MultiHeadAttention unit :=
  transformer_s.mkMHA 2 None 0 [] tt tt tt tt empty_cache false true.

Definition three_calls : list mha_call :=
  [Forward [[[1; 2]]] (fun _ => []); Backward [[[3; 5]]]; Forward [[[1; 2]]] (fun _ => [])].

Lemma three_calls_run :
  exists self', @run_calls unit Identity_Layer mha_retaining three_calls = Some self'.
Proof.
  run_inactive. eexists; reflexivity.
Qed.

Lemma mha_retaining_forward :
  exists r, @transformer_s.MultiHeadAttention_forward unit Identity_Layer
              mha_retaining [[[1; 2]]] (fun _ => []) = Some r.
Proof.
  run_inactive. eexists; reflexivity.
Qed.

(** C10 on a forward, a backward and a second forward call of a module
    with two heads: four entries are appended. *)
Lemma attn_w_only_grows_witness :
  exists self',
    @run_calls unit Identity_Layer mha_retaining three_calls = Some self' /\
    exists new,
      transformer_s.attn_w self' = transformer_s.attn_w mha_retaining ++ new /\
      length new = (2 * 2)%nat.
Proof.
  destruct three_calls_run as [self' H]. exists self'. split; [exact H|].
  exact (proj2 (proj2 (@attn_w_only_grows unit Identity_Layer))
               three_calls mha_retaining self' H).
Defined.

(** C3 on the module with two heads, after a forward call on one position
    of two channels: the backward loop of [transformer_s.py] empties the
    cache the forward loop filled, and the gradients it builds are the
    per-head gradients in head order. *)
Lemma MultiHeadAttention_backward_heads_witness :
  exists self1 y,
    @transformer_s.MultiHeadAttention_forward unit Identity_Layer
      mha_retaining [[[1; 2]]] (fun _ => []) = Some (self1, y) /\
    forall g : tensor3,
      let heads := combine (split [[[1; 2]]] 2)
                           (combine (split [[[1; 2]]] 2) (split [[[1; 2]]] 2)) in
      let grads := head_grads None 0 (fun _ => []) 0 heads in
      transformer_s.backward_heads (transformer_s.fcache self1) (rev (split g 2)) [] [] [] =
      Some (empty_cache,
            (rev (map dq_of (grads (split g 2))),
             rev (map dk_of (grads (split g 2))),
             rev (map dv_of (grads (split g 2))))).
Proof.
  destruct mha_retaining_forward as [[self1 y] H]. exists self1, y. split; [exact H|].
  intros g.
  exact (proj2 (proj1 (proj1 (@MultiHeadAttention_backward_heads unit unit
                                Identity_Layer Identity_Layer)
                             mha_retaining self1 [[[1; 2]]] y
                             [[[1; 2]]] [[[1; 2]]] [[[1; 2]]] (fun _ => [])
                             H eq_refl eq_refl eq_refl) g)).
Defined.

(** Kernels to run the top-level model on: the embedding looks its rows
    up, the linear layer passes its input through, and the weight
    gradients are the incoming gradient summed over the batch axis. *)
Definition lookup_kernels : Kernels :=
  {| FEmbedding_forward := fun w x =>
       match x with
       | I1 l => T2 (map (fun i => nth i w []) l)
       | I2 rows => T3 (map (map (fun i => nth i w [])) rows)
       end;
     FEmbedding_backward := fun _ dy =>
       match dy with
       | T2 m => m
       | T3 x => sum_axis0 x
       end;
     FLinear_forward := fun _ _ x => x;
     FLinear_backward := fun _ _ dy => (dy, sum_axis0 dy, []) |}.

(** The model of [transformer_s.py] without blocks that the body of the
    constructor builds on an empty store, with one token, one channel and
    four positions; and the store it leaves.  (With the arithmetic on its
    arguments the constructor refuses a model without blocks, see
    [transformer_s_build.Transformer_new].) *)
Definition tied_heap : heap :=
  [mkParam [[3]] None; mkParam [[4]] None; mkParam [[5]] None; mkParam [[6]] None].

Definition tied_model : transformer_s.Transformer unit unit :=
  transformer_s.mkTransformer (mkEmbedding 0%nat []) (mkEmbedding 1%nat []) [] tt
    (mkLinear 0%nat (Some 3%nat) []) [[0; 1; 2; 3]%nat].

(** The model after a forward pass on a batch of two sequences of one
    token. *)
Definition tied_model_forward : transformer_s.Transformer unit unit :=
  transformer_s.mkTransformer
    (mkEmbedding 0%nat [I2 [[0%nat]; [0%nat]]]) (mkEmbedding 1%nat [I2 [[0%nat]]]) [] tt
    (mkLinear 0%nat (Some 3%nat) [[[[3 + 4]]; [[3 + 4]]]]) [[0; 1; 2; 3]%nat].

Lemma tied_model_init :
  @transformer_s.Transformer_init unit unit [] 0 4 (fun _ => inr tt) tt
    [[1]] [[2]] [[3]] [[4]] [[5]] [[6]] = inr (tied_heap, tied_model).
Proof. reflexivity. Qed.

Lemma tied_model_forward_run :
  @transformer_s.Transformer_forward unit unit lookup_kernels Identity_Layer Identity_Layer
    tied_model [[0%nat]; [0%nat]] tied_heap =
  Some (tied_model_forward, [[[3 + 4]]; [[3 + 4]]]).
Proof. run. reflexivity. Qed.

Lemma tied_model_backward_run :
  exists r,
    @transformer_s.Transformer_backward unit unit lookup_kernels Identity_Layer Identity_Layer
      tied_model_forward [[[1]]; [[2]]] tied_heap = Some r.
Proof. run. eexists; reflexivity. Qed.

Lemma tied_model_refs :
  tied_refs (transformer_s.token_emb tied_model_forward)
            (transformer_s.pos_emb tied_model_forward)
            (transformer_s.lm_head tied_model_forward).
Proof.
  unfold tied_refs. cbn. repeat split; discriminate.
Qed.

(** C5 on the backward pass of that model, called with the gradient
    [[[[1]]; [[2]]]]: the gradient left on the shared parameter, which had
    none, is the head's contribution, that gradient summed over the
    batch, plus the token embedding's, the same sum, since norm and
    head pass the gradient through and there are no blocks. *)
Lemma weight_tying_witness :
  exists self' h',
    @transformer_s.Transformer_backward unit unit lookup_kernels Identity_Layer Identity_Layer
      tied_model_forward [[[1]]; [[2]]] tied_heap = Some (self', h') /\
    grad_at h' 0%nat = Some [[1 + 2 + (1 + 2)]].
Proof.
  destruct tied_model_backward_run as [[self' h'] H]. exists self', h'. split; [exact H|].
  destruct (proj1 (proj2 (proj2 (@weight_tying unit unit lookup_kernels
                                   Identity_Layer Identity_Layer)))
                  tied_model_forward self' [[[1]]; [[2]]] tied_heap h' tied_model_refs H)
    as (x & p & dx & dw & db & ids & g & h1 & ln' & g1 & bs & h2
        & _ & _ & Hl & _ & _ & Hn & Hb & _ & _ & _ & _ & _ & _ & Hg & _).
  cbn in Hl. injection Hl as <- <- _.
  cbn in Hn. injection Hn as _ <-.
  cbn in Hb. injection Hb as _ <-.
  exact (Hg eq_refl).
Defined.

(** C6 on the same backward pass: the gradient left on the positional
    parameter is the embedding kernel's value on the block-stack gradient
    summed over the batch axis. *)
Lemma embedding_gradients_witness :
  exists self' h',
    @transformer_s.Transformer_backward unit unit lookup_kernels Identity_Layer Identity_Layer
      tied_model_forward [[[1]]; [[2]]] tied_heap = Some (self', h') /\
    exists g ids,
      grad_at h' 1%nat =
      accumulate (grad_at tied_heap 1%nat)
                 (@FEmbedding_backward lookup_kernels ids (T2 (sum_axis0 g))).
Proof.
  destruct tied_model_backward_run as [[self' h'] H]. exists self', h'. split; [exact H|].
  destruct (proj1 (@embedding_gradients unit unit lookup_kernels Identity_Layer Identity_Layer)
                  tied_model_forward self' [[[1]]; [[2]]] tied_heap h' H)
    as (l' & dx & h1 & ln' & g1 & bs & g & te & h2 & _ & _ & _ & _ & _ & Hg).
  destruct (Hg tied_model_refs) as (ids & _ & Hgrad).
  exists g, ids. exact Hgrad.
Defined.

(* ================================================================== *)
(** * Part IV: further properties of the code *)
(* ================================================================== *)

(** ** [PositionalEncoding]: construction, table and slicing *)

Lemma PositionalEncoding_init_one (L : nat) (base : R) :
  0 < base -> exists pe, transformer_s.PositionalEncoding_init L 1 base = inr pe.
Proof.
  intros Hb. unfold transformer_s.PositionalEncoding_init.
  destruct (Rle_dec base 0) as [Hle|_]; [lra|].
  cbn [Nat.eqb]. rewrite length_map, arange_step2_length.
  change ((1 + 1) / 2)%nat with 1%nat. change (1 / 2)%nat with 0%nat.
  cbn [Nat.eqb orb negb]. eexists. reflexivity.
Qed.

(** X1.  The outcomes of [PositionalEncoding.__init__].  A base that is
    not positive makes [math.log] raise a [ValueError]; otherwise an
    embedding dimension of zero raises [ZeroDivisionError]; otherwise an
    odd embedding dimension of three or more raises a [ValueError], since
    the cosines, one column more than the odd columns of the table, do
    not broadcast.  The constructor returns exactly when the base is
    positive and the embedding dimension is even and not zero, or one. *)
Theorem PositionalEncoding_init_outcomes (L E : nat) (base : R) :
  (base <= 0 ->
   exists msg, transformer_s.PositionalEncoding_init L E base = inl (ValueError msg)) /\
  (0 < base -> E = 0%nat ->
   transformer_s.PositionalEncoding_init L E base = inl ZeroDivisionError) /\
  (0 < base -> Nat.odd E = true -> (3 <= E)%nat ->
   exists msg, transformer_s.PositionalEncoding_init L E base = inl (ValueError msg)) /\
  ((exists pe, transformer_s.PositionalEncoding_init L E base = inr pe) <->
   0 < base /\ E <> 0%nat /\ (Nat.even E = true \/ E = 1%nat)).
Proof.
  split; [|split; [|split; [|split]]].
  - intros Hb. unfold transformer_s.PositionalEncoding_init.
    destruct (Rle_dec base 0) as [_|Hn]; [|lra]. eexists. reflexivity.
  - intros Hb ->. unfold transformer_s.PositionalEncoding_init.
    destruct (Rle_dec base 0) as [Hle|_]; [lra|]. reflexivity.
  - intros Hb Ho HE. eexists. apply PositionalEncoding_init_odd; assumption.
  - intros [pe Hpe].
    destruct (PositionalEncoding_init_table L E base pe Hpe) as (Hb & HE & _).
    split; [exact Hb|]. split; [exact HE|].
    destruct (Nat.even E) eqn:Hev; [now left|right].
    destruct (le_lt_dec 3 E) as [H3|H3].
    + rewrite PositionalEncoding_init_odd in Hpe; [discriminate|assumption| |assumption].
      now rewrite <- Nat.negb_even, Hev.
    + destruct E as [|[|[|E]]]; [contradiction|reflexivity|discriminate|lia].
  - intros (Hb & HE & [Hev| ->]).
    + now apply PositionalEncoding_init_total.
    + now apply PositionalEncoding_init_one.
Qed.

Lemma half_cases (j : nat) : exists i, j = (2 * i)%nat \/ j = (2 * i + 1)%nat.
Proof.
  exists (j / 2)%nat. pose proof (Nat.div_mod_eq j 2) as H.
  pose proof (Nat.mod_upper_bound j 2) as Hm. lia.
Qed.

(** X2.  In the table of a constructed [PositionalEncoding] every entry
    lies in [[-1, 1]], and the row of position 0 holds 0 in its even and 1
    in its odd columns. *)
Theorem PositionalEncoding_entries_bounded (L E : nat) (base : R)
        (pe : transformer_s.PositionalEncoding) :
  transformer_s.PositionalEncoding_init L E base = inr pe ->
  (forall p j, (p < L)%nat -> (j < E)%nat ->
               -1 <= nth j (nth p (transformer_s.encodings pe) []) 0 <= 1) /\
  (forall i, (0 < L)%nat ->
             ((2 * i < E)%nat ->
              nth (2 * i) (nth 0 (transformer_s.encodings pe) []) 0 = 0) /\
             ((2 * i + 1 < E)%nat ->
              nth (2 * i + 1) (nth 0 (transformer_s.encodings pe) []) 0 = 1)).
Proof.
  intros Hpe.
  destruct (PositionalEncoding_init_table L E base pe Hpe) as (_ & _ & _ & _ & _ & Hent).
  split.
  - intros p j Hp Hj. destruct (half_cases j) as [i [-> | ->]].
    + rewrite (proj1 (Hent p i Hp) Hj). apply SIN_bound.
    + rewrite (proj2 (Hent p i Hp) Hj). apply COS_bound.
  - intros i HL. split; intros Hi.
    + rewrite (proj1 (Hent 0%nat i HL) Hi). cbn [INR].
      unfold Rdiv. rewrite Rmult_0_l. apply sin_0.
    + rewrite (proj2 (Hent 0%nat i HL) Hi). cbn [INR].
      unfold Rdiv. rewrite Rmult_0_l. apply cos_0.
Qed.

Lemma PositionalEncoding_entries_bounded_witness :
  exists pe,
    transformer_s.PositionalEncoding_init 8 2 10000 = inr pe /\
    (forall p j, (p < 8)%nat -> (j < 2)%nat ->
                 -1 <= nth j (nth p (transformer_s.encodings pe) []) 0 <= 1).
Proof.
  destruct (PositionalEncoding_init_total 8 2 10000) as [pe Hpe];
    [lra | discriminate | reflexivity |].
  exists pe. split; [exact Hpe|].
  exact (proj1 (PositionalEncoding_entries_bounded 8 2 10000 pe Hpe)).
Defined.

(** X3.  [PositionalEncoding.forward] never fails on a long sequence: on
    an input whose axis 1 has length [s] it returns the first
    [min s max_seq_len] rows of the table, each of [embedding_dim]
    entries, so for [s] above [max_seq_len] the result has fewer rows
    than the sequence has positions. *)
Theorem PositionalEncoding_forward_clips (L E : nat) (base : R)
        (pe : transformer_s.PositionalEncoding) (b s : nat) (rest : list nat) :
  transformer_s.PositionalEncoding_init L E base = inr pe ->
  exists rows,
    transformer_s.PositionalEncoding_forward pe (b :: s :: rest) = Some rows /\
    is_matrix (Nat.min s L) E rows = true /\
    (forall p, (p < Nat.min s L)%nat ->
               nth p rows [] = nth p (transformer_s.encodings pe) []) /\
    ((L < s)%nat -> rows = transformer_s.encodings pe).
Proof.
  intros Hpe.
  destruct (PositionalEncoding_init_table L E base pe Hpe) as (_ & _ & _ & _ & Hm & _).
  exists (firstn s (transformer_s.encodings pe)). split; [reflexivity|].
  pose proof Hm as Hm'. apply is_matrix_spec in Hm'. destruct Hm' as [Hlen Hrows].
  split; [|split].
  - now apply is_matrix_firstn.
  - intros p Hp. rewrite nth_firstn.
    destruct (Nat.ltb_spec p s) as [_|Hge]; [reflexivity | lia].
  - intros Hs. apply firstn_all2. lia.
Qed.

Lemma PositionalEncoding_forward_clips_witness :
  exists pe rows,
    transformer_s.PositionalEncoding_init 2 2 10000 = inr pe /\
    transformer_s.PositionalEncoding_forward pe [1; 5]%nat = Some rows /\
    is_matrix 2 2 rows = true.
Proof.
  destruct (PositionalEncoding_init_total 2 2 10000) as [pe Hpe];
    [lra | discriminate | reflexivity |].
  destruct (PositionalEncoding_forward_clips 2 2 10000 pe 1 5 [] Hpe)
    as (rows & Hf & Hm & _).
  exists pe, rows. split; [exact Hpe|]. split; [exact Hf | exact Hm].
Defined.

(** ** The causal mask and the functional attention call *)

(** X4.  [get_causal_mask((r, c))] has [r] rows of [c] entries; entry
    [(i, j)] is minus infinity when [j > i] and zero otherwise; and the
    leading [s x s] block of a causal mask with at least [s] rows and
    columns is the causal mask of size [s], which is what the attention
    functions rely on when they truncate the mask to the sequence. *)
Theorem get_causal_mask_entry (r c : nat) :
  is_matrix r c (transformer_s.get_causal_mask (r, c)) = true /\
  (forall i j, (i < r)%nat -> (j < c)%nat ->
               nth j (nth i (transformer_s.get_causal_mask (r, c)) []) (Fin 0) =
               if (i <? j)%nat then NegInf else Fin 0) /\
  (forall s, (s <= r)%nat -> (s <= c)%nat ->
             slice2 s s (transformer_s.get_causal_mask (r, c)) =
             transformer_s.get_causal_mask (s, s)).
Proof.
  split; [|split].
  - rewrite get_causal_mask_entries. apply is_matrix_spec. split.
    + now rewrite length_map, length_seq.
    + apply Forall_forall. intros row Hrow. apply in_map_iff in Hrow.
      destruct Hrow as (i & <- & _). now rewrite length_map, length_seq.
  - intros i j Hi Hj. rewrite get_causal_mask_entries.
    rewrite nth_map_lt with (da := 0%nat) by (now rewrite length_seq).
    rewrite nth_map_lt with (da := 0%nat) by (now rewrite length_seq).
    rewrite !seq_nth by assumption. cbn [Nat.add]. unfold causal_entry.
    destruct (Z.leb_spec 1 (Z.of_nat j - Z.of_nat i)), (Nat.ltb_spec i j);
      try reflexivity; lia.
  - intros s Hr Hc. now apply causal_mask_slice.
Qed.

Lemma FSDPAttention_forward_any_cache c1 c2 q k v mask p ret dmap :
  snd (transformer_s.FSDPAttention_forward c1 q k v mask p ret dmap) =
  snd (transformer_s.FSDPAttention_forward c2 q k v mask p ret dmap).
Proof.
  unfold transformer_s.FSDPAttention_forward, FSoftmax_forward, FDropout_forward.
  destruct (Rltb 0 p); reflexivity.
Qed.

(** X5.  [sdp_attention] returns what [FSDPAttention.forward] returns on
    any cache, whatever the cache holds: the output and the attention
    weights of a head do not depend on what earlier calls have cached.
    The weights are returned exactly when [return_attn_w] is set, and
    they are then the weights the output was computed from. *)
Theorem sdp_attention_any_cache (c : FunctionCache) (q k v : tensor3)
        (mask : option smatrix) (p : R) (ret : bool) (dmap : tensor3) :
  transformer_s.sdp_attention q k v mask p ret dmap =
  snd (transformer_s.FSDPAttention_forward c q k v mask p ret dmap) /\
  (snd (transformer_s.sdp_attention q k v mask p ret dmap) = None <-> ret = false) /\
  (forall w, snd (transformer_s.sdp_attention q k v mask p ret dmap) = Some w ->
             fst (transformer_s.sdp_attention q k v mask p ret dmap) = bmm w v).
Proof.
  split; [|split].
  - unfold transformer_s.sdp_attention. apply FSDPAttention_forward_any_cache.
  - unfold transformer_s.sdp_attention, transformer_s.FSDPAttention_forward,
      FSoftmax_forward, FDropout_forward.
    destruct (Rltb 0 p), ret; cbn; split; congruence.
  - unfold transformer_s.sdp_attention, transformer_s.FSDPAttention_forward,
      FSoftmax_forward, FDropout_forward.
    destruct (Rltb 0 p), ret; cbn; intros w Hw; try discriminate;
      injection Hw as <-; reflexivity.
Qed.

(** ** Construction of the models *)

(** *** The constructors of [transformer_s.py] *)

Module transformer_s_build.

Import transformer_s.

(** [1 / math.sqrt(x)] on an integer: [math.sqrt] raises on a negative
    argument, and the division raises on [0.0]. *)
Definition inv_sqrt (x : Z) : exn + R :=
  if (x <? 0)%Z then inl (ValueError "math domain error")
  else if (x =? 0)%Z then inl ZeroDivisionError
  else inr (1 / sqrt (IZR x)).

(** [FeedForward]. *)
Record FeedForward (Lin Act : Type) : Type := mkFeedForward {
  up_proj : Lin;
  act : Act;
  down_proj : Lin
}.

Arguments mkFeedForward {Lin Act}.
Arguments up_proj {Lin Act}.
Arguments act {Lin Act}.
Arguments down_proj {Lin Act}.

(** [FeedForward.__init__]; [ReLU] is the activation the library builds. *)
Definition FeedForward_init {Lin Act : Type} `{LinearClass Lin} (ReLU : Act)
           (in_channels h_channels : Z) (out_scale : R) : FeedForward Lin Act :=
  let up_proj := Linear in_channels h_channels true "Linear" in
  let act := ReLU in
  let down_proj := Linear h_channels in_channels true "Linear" in
  let down_proj := scale_w down_proj out_scale in
  mkFeedForward up_proj act down_proj.

(** [FeedForward.forward]. *)
Definition FeedForward_forward {Lin Act : Type} `{Layer Lin} `{Layer Act}
           (self : FeedForward Lin Act) (x : tensor3)
  : option (FeedForward Lin Act * tensor3) :=
  '(up_proj, x) <- forward (up_proj self) x ;;
  '(act, x) <- forward (act self) x ;;
  '(down_proj, x) <- forward (down_proj self) x ;;
  Some (mkFeedForward up_proj act down_proj, x).

(** [FeedForward.backward]; the up projection of the result is the one
    the backward call has updated. *)
Definition FeedForward_backward {Lin Act : Type} `{Layer Lin} `{Layer Act}
           (self : FeedForward Lin Act) (dy : tensor3)
  : option (FeedForward Lin Act * tensor3) :=
  '(down_proj, dy) <- backward (down_proj self) dy ;;
  '(act, dy) <- backward (act self) dy ;;
  '(up_proj, dy) <- backward (up_proj self) dy ;;
  Some (mkFeedForward up_proj act down_proj, dy).

(** [TransformerBlock.__init__]; [LayerNorm] and [Dropout] are the
    library's constructors. *)
Definition TransformerBlock_init {Lin LN Drop Act : Type} `{LinearClass Lin}
           (LayerNorm : Z -> LN) (Dropout : R -> Drop) (ReLU : Act)
           (in_channels ffwd_channels n_heads : Z) (out_scale : R)
           (mask : option smatrix) (dropout_p : R)
  : exn + TransformerBlock LN (MultiHeadAttention Lin) Drop (FeedForward Lin Act) :=
  let ln_1 := LayerNorm in_channels in
  match MultiHeadAttention_init in_channels n_heads mask dropout_p out_scale with
  | inl e => inl e
  | inr attn =>
      let dropout_1 := Dropout dropout_p in
      let ln_2 := LayerNorm in_channels in
      let ffwd := FeedForward_init ReLU in_channels ffwd_channels out_scale in
      let dropout_2 := Dropout dropout_p in
      inr (mkBlock ln_1 attn dropout_1 ln_2 ffwd dropout_2)
  end.

(** [Transformer.__init__] with the arithmetic on its arguments:
    [init_normal] takes the deviation [1 / math.sqrt(embedding_dim)] and
    the blocks the scale [1 / math.sqrt(2 * n_blocks)].  [normal std] is
    the pair of matrices [init_normal] draws, and [new_block out_scale i]
    the [i]-th call of the block constructor. *)
Definition Transformer_new {Blk LN : Type} (h : heap)
           (embedding_dim n_blocks max_seq_len : Z)
           (new_block : R -> nat -> exn + Blk) (new_ln : LN)
           (w_token w_pos : matrix) (normal : R -> matrix * matrix) (w_head b_head : matrix)
  : exn + (heap * Transformer Blk LN) :=
  match inv_sqrt embedding_dim with
  | inl e => inl e
  | inr std =>
      let '(w_token_normal, w_pos_normal) := normal std in
      match inv_sqrt (2 * n_blocks) with
      | inl e => inl e
      | inr out_scale =>
          Transformer_init h n_blocks max_seq_len (new_block out_scale) new_ln
                           w_token w_pos w_token_normal w_pos_normal w_head b_head
      end
  end.

End transformer_s_build.

Ltac idx :=
  cbn [Nat.add] in *; rewrite ?Nat.add_succ_r, ?Nat.add_0_r in *.

Lemma build_blocks_inr {Blk : Type} (f : nat -> exn + Blk) :
  forall n i bs,
    transformer_s.build_blocks f i n = inr bs <->
    length bs = n /\
    forall j, (j < n)%nat -> exists b, f (i + j)%nat = inr b /\ nth_error bs j = Some b.
Proof.
  induction n as [|n IH]; intros i bs; cbn [transformer_s.build_blocks].
  - split.
    + intros H. injection H as <-. split; [reflexivity | intros j Hj; lia].
    + intros [Hl _]. destruct bs; [reflexivity | discriminate].
  - assert (Hstep : forall b bs0,
               (length (b :: bs0) = S n /\
                forall j, (j < S n)%nat ->
                          exists b', f (i + j)%nat = inr b' /\ nth_error (b :: bs0) j = Some b') <->
               (f i = inr b /\ transformer_s.build_blocks f (S i) n = inr bs0)).
    { intros b bs0. rewrite IH. split.
      - intros [Hl H]. split; [|split].
        + destruct (H 0%nat) as (b' & Hb' & Hn'); [lia|]. idx. cbn in Hn'. congruence.
        + cbn in Hl. lia.
        + intros j Hj. destruct (H (S j)) as (b' & Hb' & Hn'); [lia|].
          exists b'. idx. split; [exact Hb' | exact Hn'].
      - intros (Hb & Hl & H). split; [cbn; lia|].
        intros [|j] Hj.
        + exists b. idx. split; [exact Hb | reflexivity].
        + destruct (H j) as (b' & Hb' & Hn'); [lia|].
          exists b'. idx. split; [exact Hb' | exact Hn']. }
    destruct bs as [|b0 bs0].
    + split; [|intros [Hl _]; discriminate].
      destruct (f i); [discriminate|].
      destruct (transformer_s.build_blocks f (S i) n); discriminate.
    + rewrite Hstep. destruct (f i) as [e|b].
      * split; [discriminate | intros [H _]; discriminate].
      * destruct (transformer_s.build_blocks f (S i) n) as [e|bs'].
        -- split; [discriminate | intros [_ H]; discriminate].
        -- split.
           ++ intros H. injection H as -> ->. split; reflexivity.
           ++ intros [H1 H2]. injection H1 as ->. injection H2 as ->. reflexivity.
Qed.

Lemma build_blocks_inl {Blk : Type} (f : nat -> exn + Blk) :
  forall n i e,
    transformer_s.build_blocks f i n = inl e <->
    exists j, (j < n)%nat /\ f (i + j)%nat = inl e /\
              forall j', (j' < j)%nat -> exists b, f (i + j')%nat = inr b.
Proof.
  induction n as [|n IH]; intros i e; cbn [transformer_s.build_blocks].
  - split; [discriminate | intros (j & Hj & _); lia].
  - assert (Hstep :
              (exists j, (j < S n)%nat /\ f (i + j)%nat = inl e /\
                         forall j', (j' < j)%nat -> exists b, f (i + j')%nat = inr b) <->
              (f i = inl e \/
               (exists b, f i = inr b) /\ transformer_s.build_blocks f (S i) n = inl e)).
    { rewrite IH. split.
      - intros ([|j] & Hj & He & Hbefore).
        + left. idx. exact He.
        + right. split.
          * destruct (Hbefore 0%nat) as [b Hb]; [lia|]. exists b. idx. exact Hb.
          * exists j. split; [lia|]. idx. split; [exact He|].
            intros j' Hj'. destruct (Hbefore (S j')) as [b Hb]; [lia|].
            exists b. idx. exact Hb.
      - intros [He | [[b Hb] (j & Hj & He & Hbefore)]].
        + exists 0%nat. idx. split; [lia|]. split; [exact He | intros j' Hj'; lia].
        + exists (S j). split; [lia|]. idx. split; [exact He|].
          intros [|j'] Hj'.
          * exists b. idx. exact Hb.
          * destruct (Hbefore j') as [b' Hb']; [lia|]. exists b'. idx. exact Hb'. }
    rewrite Hstep. destruct (f i) as [e0|b].
    + split.
      * intros H. injection H as ->. now left.
      * intros [H | [[b Hb] _]]; [injection H as ->; reflexivity | discriminate].
    + destruct (transformer_s.build_blocks f (S i) n) as [e1|bs'].
      * split.
        -- intros H. right. split; [eexists; reflexivity | exact H].
        -- intros [H | [_ H]]; [discriminate | exact H].
      * split; [discriminate|]. intros [H | [_ H]]; discriminate.
Qed.

Lemma Transformer_s_init_blocks {Blk LN : Type} (h : heap) (n_blocks max_seq_len : Z)
      (new_block : nat -> exn + Blk) (new_ln : LN)
      (w_token w_pos w_token_normal w_pos_normal w_head b_head : matrix) :
  match transformer_s.Transformer_init h n_blocks max_seq_len new_block new_ln
          w_token w_pos w_token_normal w_pos_normal w_head b_head with
  | inl e => transformer_s.build_blocks new_block 0 (Z.to_nat n_blocks) = inl e
  | inr (_, self) =>
      transformer_s.build_blocks new_block 0 (Z.to_nat n_blocks) =
      inr (transformer_s.blocks self) /\
      transformer_s.pos self = [seq 0 (Z.to_nat max_seq_len)]
  end.
Proof.
  unfold transformer_s.Transformer_init. cbn.
  destruct (transformer_s.build_blocks new_block 0 (Z.to_nat n_blocks)) as [e|bs].
  - reflexivity.
  - cbn. split; reflexivity.
Qed.

Lemma inv_sqrt_inr (x : Z) (s : R) :
  transformer_s_build.inv_sqrt x = inr s <-> (0 < x)%Z /\ s = 1 / sqrt (IZR x).
Proof.
  unfold transformer_s_build.inv_sqrt.
  destruct (Z.ltb_spec x 0); [split; [discriminate | lia]|].
  destruct (Z.eqb_spec x 0); [split; [discriminate | lia]|].
  split.
  - intros H'. injection H' as <-. split; [lia | reflexivity].
  - intros [_ ->]. reflexivity.
Qed.

Lemma inv_sqrt_pos (x : Z) :
  (0 < x)%Z -> transformer_s_build.inv_sqrt x = inr (1 / sqrt (IZR x)).
Proof.
  intros Hx. apply inv_sqrt_inr. split; [exact Hx | reflexivity].
Qed.

(** X6.  The outcomes of [Transformer.__init__] of [transformer_s.py],
    the constructors of the library taken to return.
    An embedding dimension that is not positive raises, as does a number
    of blocks that is not positive: [1 / math.sqrt(2 * n_blocks)] raises
    [ZeroDivisionError] for no blocks and a [ValueError] for a negative
    number, so a model without blocks cannot be built.  Otherwise the
    block constructor is called [n_blocks] times with the scale
    [1 / sqrt(2 * n_blocks)]; the first error it raises is the error of
    the construction, and when it raises none the model holds the
    [n_blocks] blocks in the order they were built and the positions
    [0 .. max_seq_len - 1]. *)
Theorem Transformer_s_new_outcomes {Blk LN : Type} (h : heap)
        (embedding_dim n_blocks max_seq_len : Z)
        (new_block : R -> nat -> exn + Blk) (new_ln : LN)
        (w_token w_pos : matrix) (normal : R -> matrix * matrix) (w_head b_head : matrix) :
  let built := transformer_s_build.Transformer_new h embedding_dim n_blocks max_seq_len
                 new_block new_ln w_token w_pos normal w_head b_head in
  let out_scale := 1 / sqrt (IZR (2 * n_blocks)) in
  ((embedding_dim <= 0)%Z -> exists e, built = inl e) /\
  ((0 < embedding_dim)%Z -> (n_blocks < 0)%Z -> exists msg, built = inl (ValueError msg)) /\
  ((0 < embedding_dim)%Z -> n_blocks = 0%Z -> built = inl ZeroDivisionError) /\
  (forall h' self,
      built = inr (h', self) ->
      (0 < embedding_dim)%Z /\ (0 < n_blocks)%Z /\
      length (transformer_s.blocks self) = Z.to_nat n_blocks /\
      (forall i, (i < Z.to_nat n_blocks)%nat ->
                 exists b, new_block out_scale i = inr b /\
                           nth_error (transformer_s.blocks self) i = Some b) /\
      transformer_s.pos self = [seq 0 (Z.to_nat max_seq_len)]) /\
  ((0 < embedding_dim)%Z -> (0 < n_blocks)%Z ->
   forall e,
     built = inl e <->
     exists i, (i < Z.to_nat n_blocks)%nat /\ new_block out_scale i = inl e /\
               forall j, (j < i)%nat -> exists b, new_block out_scale j = inr b).
Proof.
  intros built out_scale. subst built. unfold transformer_s_build.Transformer_new.
  split; [|split; [|split; [|split]]].
  - intros HE. unfold transformer_s_build.inv_sqrt at 1.
    destruct (Z.ltb_spec embedding_dim 0); [eexists; reflexivity|].
    destruct (Z.eqb_spec embedding_dim 0); [eexists; reflexivity | lia].
  - intros HE Hn. rewrite (inv_sqrt_pos embedding_dim HE).
    destruct (normal _) as [wt wp]. unfold transformer_s_build.inv_sqrt.
    destruct (Z.ltb_spec (2 * n_blocks) 0); [eexists; reflexivity | lia].
  - intros HE ->. rewrite (inv_sqrt_pos embedding_dim HE).
    destruct (normal _) as [wt wp]. reflexivity.
  - intros h' self Hb.
    destruct (transformer_s_build.inv_sqrt embedding_dim) as [e|std] eqn:Hstd; [discriminate|].
    apply inv_sqrt_inr in Hstd. destruct Hstd as [HE _].
    destruct (normal std) as [wt wp].
    destruct (transformer_s_build.inv_sqrt (2 * n_blocks)) as [e|sc] eqn:Hsc; [discriminate|].
    apply inv_sqrt_inr in Hsc. destruct Hsc as [Hn ->].
    match type of Hb with
    | ?t = _ =>
        match t with
        | transformer_s.Transformer_init ?a1 ?a2 ?a3 ?a4 ?a5 ?a6 ?a7 ?a8 ?a9 ?a10 ?a11 =>
            pose proof (Transformer_s_init_blocks a1 a2 a3 a4 a5 a6 a7 a8 a9 a10 a11) as Hi
        end
    end.
    rewrite Hb in Hi. destruct Hi as [Hbl Hpos].
    apply build_blocks_inr in Hbl. destruct Hbl as [Hlen Hall].
    split; [exact HE|]. split; [lia|]. split; [exact Hlen|]. split; [|exact Hpos].
    intros i Hi'. exact (Hall i Hi').
  - intros HE Hn e.
    rewrite (inv_sqrt_pos embedding_dim HE).
    destruct (normal _) as [wt wp].
    assert (Hn2 : (0 < 2 * n_blocks)%Z) by lia.
    rewrite (inv_sqrt_pos (2 * n_blocks) Hn2).
    fold out_scale.
    match goal with
    | |- ?t = _ <-> _ =>
        match t with
        | transformer_s.Transformer_init ?a1 ?a2 ?a3 ?a4 ?a5 ?a6 ?a7 ?a8 ?a9 ?a10 ?a11 =>
            pose proof (Transformer_s_init_blocks a1 a2 a3 a4 a5 a6 a7 a8 a9 a10 a11) as Hi;
            destruct (transformer_s.Transformer_init a1 a2 a3 a4 a5 a6 a7 a8 a9 a10 a11)
              as [e'|[h' self]]
        end
    end.
    + rewrite <- (build_blocks_inl (new_block out_scale) (Z.to_nat n_blocks) 0 e).
      rewrite Hi. split; intros H'; injection H' as ->; reflexivity.
    + destruct Hi as [Hi _].
      rewrite <- (build_blocks_inl (new_block out_scale) (Z.to_nat n_blocks) 0 e).
      rewrite Hi. split; discriminate.
Qed.

Lemma Transformer_s_new_pos {Blk LN : Type} (h : heap)
      (embedding_dim n_blocks max_seq_len : Z)
      (new_block : R -> nat -> exn + Blk) (new_ln : LN)
      (w_token w_pos : matrix) (normal : R -> matrix * matrix) (w_head b_head : matrix) :
  (0 < embedding_dim)%Z -> (0 < n_blocks)%Z ->
  transformer_s_build.Transformer_new h embedding_dim n_blocks max_seq_len
    new_block new_ln w_token w_pos normal w_head b_head =
  transformer_s.Transformer_init h n_blocks max_seq_len
    (new_block (1 / sqrt (IZR (2 * n_blocks)))) new_ln w_token w_pos
    (fst (normal (1 / sqrt (IZR embedding_dim))))
    (snd (normal (1 / sqrt (IZR embedding_dim)))) w_head b_head.
Proof.
  intros HE Hn. unfold transformer_s_build.Transformer_new.
  rewrite (inv_sqrt_pos embedding_dim HE).
  destruct (normal _) as [wt wp].
  assert (Hn2 : (0 < 2 * n_blocks)%Z) by lia.
  rewrite (inv_sqrt_pos (2 * n_blocks) Hn2). reflexivity.
Qed.

Lemma Transformer_s_new_inr {Blk LN : Type} (h : heap)
      (embedding_dim n_blocks max_seq_len : Z)
      (new_block : R -> nat -> exn + Blk) (new_ln : LN)
      (w_token w_pos : matrix) (normal : R -> matrix * matrix) (w_head b_head : matrix) r :
  transformer_s_build.Transformer_new h embedding_dim n_blocks max_seq_len
    new_block new_ln w_token w_pos normal w_head b_head = inr r ->
  (0 < embedding_dim)%Z /\ (0 < n_blocks)%Z.
Proof.
  unfold transformer_s_build.Transformer_new. intros Hb.
  destruct (transformer_s_build.inv_sqrt embedding_dim) as [e|std] eqn:Hstd; [discriminate|].
  apply inv_sqrt_inr in Hstd. destruct Hstd as [HE _].
  destruct (normal std) as [wt wp].
  destruct (transformer_s_build.inv_sqrt (2 * n_blocks)) as [e|sc] eqn:Hsc; [discriminate|].
  apply inv_sqrt_inr in Hsc. destruct Hsc as [Hn _]. split; [exact HE | lia].
Qed.

Lemma MultiHeadAttention_s_init_cases {Lin : Type} {LC : LinearClass Lin}
      (in_channels n_heads : Z) (mask : option smatrix) (dropout_p out_scale : R) :
  (n_heads = 0%Z /\
   transformer_s.MultiHeadAttention_init (Lin := Lin) in_channels n_heads mask dropout_p out_scale =
   inl ZeroDivisionError) \/
  (n_heads <> 0%Z /\ ~ (n_heads | in_channels)%Z /\
   exists msg,
     transformer_s.MultiHeadAttention_init (Lin := Lin) in_channels n_heads mask dropout_p
                                           out_scale = inl (ValueError msg)) \/
  (n_heads <> 0%Z /\ (n_heads | in_channels)%Z /\
   exists m,
     transformer_s.MultiHeadAttention_init (Lin := Lin) in_channels n_heads mask dropout_p
                                           out_scale = inr m).
Proof.
  unfold transformer_s.MultiHeadAttention_init, py_mod.
  destruct (Z.eqb_spec n_heads 0) as [Hz|Hnz]; [left; split; [exact Hz | reflexivity]|].
  right. destruct (Z.eqb_spec (in_channels mod n_heads) 0) as [Hm|Hm]; cbn [negb].
  - right. split; [exact Hnz|]. split; [now apply Z.mod_divide|]. eexists. reflexivity.
  - left. split; [exact Hnz|]. split.
    + intros D. apply Z.mod_divide in D; [contradiction | exact Hnz].
    + eexists. reflexivity.
Qed.

(** X7.  [Transformer.__init__] of [transformer_s.py] with the blocks it
    builds, each a [TransformerBlock] around a [MultiHeadAttention] on
    [embedding_dim] channels, the constructors of the library taken to
    return.  Construction succeeds exactly when the
    embedding dimension and the number of blocks are positive and the
    number of heads is not zero and divides the embedding dimension.  With
    positive dimension and number of blocks, a number of heads that does
    not divide the dimension raises the [ValueError] of the first block's
    attention module, and no heads at all raise [ZeroDivisionError]. *)
Theorem Transformer_s_new_divisible {Lin LN Drop Act : Type} {LC : LinearClass Lin}
        (LayerNorm : Z -> LN) (Dropout : R -> Drop) (ReLU : Act)
        (h : heap) (embedding_dim ffwd_channels n_heads n_blocks max_seq_len : Z)
        (mask : option smatrix) (dropout_p : R) (new_ln : LN)
        (w_token w_pos : matrix) (normal : R -> matrix * matrix) (w_head b_head : matrix) :
  let new_block := fun (out_scale : R) (_ : nat) =>
                     transformer_s_build.TransformerBlock_init (Lin := Lin)
                       LayerNorm Dropout ReLU embedding_dim ffwd_channels n_heads
                       out_scale mask dropout_p in
  let built := transformer_s_build.Transformer_new h embedding_dim n_blocks max_seq_len
                 new_block new_ln w_token w_pos normal w_head b_head in
  ((exists r, built = inr r) <->
   (0 < embedding_dim)%Z /\ (0 < n_blocks)%Z /\
   n_heads <> 0%Z /\ (n_heads | embedding_dim)%Z) /\
  ((0 < embedding_dim)%Z -> (0 < n_blocks)%Z ->
   n_heads <> 0%Z -> ~ (n_heads | embedding_dim)%Z ->
   exists msg, built = inl (ValueError msg)) /\
  ((0 < embedding_dim)%Z -> (0 < n_blocks)%Z -> n_heads = 0%Z ->
   built = inl ZeroDivisionError).
Proof.
  intros new_block built.
  assert (Hfirst : forall e sc,
             transformer_s.MultiHeadAttention_init (Lin := Lin) embedding_dim n_heads mask
                                                   dropout_p sc = inl e ->
             (0 < embedding_dim)%Z -> (0 < n_blocks)%Z ->
             sc = 1 / sqrt (IZR (2 * n_blocks)) ->
             built = inl e).
  { intros e sc He HE Hn ->. subst built.
    rewrite (Transformer_s_new_pos _ _ _ _ _ _ _ _ _ _ _ HE Hn).
    match goal with
    | |- ?t = _ =>
        match t with
        | transformer_s.Transformer_init ?a1 ?a2 ?a3 ?a4 ?a5 ?a6 ?a7 ?a8 ?a9 ?a10 ?a11 =>
            pose proof (Transformer_s_init_blocks a1 a2 a3 a4 a5 a6 a7 a8 a9 a10 a11) as Hi;
            destruct (transformer_s.Transformer_init a1 a2 a3 a4 a5 a6 a7 a8 a9 a10 a11)
              as [e'|[h' self]]
        end
    end.
    - assert (Hl : transformer_s.build_blocks (new_block (1 / sqrt (IZR (2 * n_blocks)))) 0
                     (Z.to_nat n_blocks) = inl e).
      { apply build_blocks_inl. exists 0%nat. split; [lia|]. split; [|intros j Hj; lia].
        cbn [Nat.add]. subst new_block. cbv beta.
        unfold transformer_s_build.TransformerBlock_init. now rewrite He. }
      congruence.
    - destruct Hi as [Hi _]. apply build_blocks_inr in Hi. destruct Hi as [_ Hall].
      destruct (Hall 0%nat) as (b & Hb & _); [lia|].
      cbn [Nat.add] in Hb. subst new_block. cbv beta in Hb.
      unfold transformer_s_build.TransformerBlock_init in Hb. rewrite He in Hb.
      discriminate. }
  split; [|split].
  - split.
    + intros [r Hr]. pose proof Hr as Hr'. subst built.
      apply Transformer_s_new_inr in Hr'. destruct Hr' as [HE Hn].
      split; [exact HE|]. split; [exact Hn|].
      destruct (MultiHeadAttention_s_init_cases (Lin := Lin) embedding_dim n_heads mask
                  dropout_p (1 / sqrt (IZR (2 * n_blocks))))
        as [[_ He] | [(_ & _ & msg & He) | (Hnz & Hd & _)]].
      * rewrite (Hfirst _ _ He HE Hn eq_refl) in Hr. discriminate.
      * rewrite (Hfirst _ _ He HE Hn eq_refl) in Hr. discriminate.
      * split; assumption.
    + intros (HE & Hn & Hnz & Hd). subst built.
      rewrite (Transformer_s_new_pos _ _ _ _ _ _ _ _ _ _ _ HE Hn).
      destruct (MultiHeadAttention_s_init_cases (Lin := Lin) embedding_dim n_heads mask
                  dropout_p (1 / sqrt (IZR (2 * n_blocks))))
        as [[Hz _] | [(_ & Hnd & _) | (_ & _ & m & Hm)]]; [contradiction | contradiction |].
      match goal with
      | |- exists r, ?t = inr r =>
          match t with
          | transformer_s.Transformer_init ?a1 ?a2 ?a3 ?a4 ?a5 ?a6 ?a7 ?a8 ?a9 ?a10 ?a11 =>
              pose proof (Transformer_s_init_blocks a1 a2 a3 a4 a5 a6 a7 a8 a9 a10 a11) as Hi;
              destruct (transformer_s.Transformer_init a1 a2 a3 a4 a5 a6 a7 a8 a9 a10 a11)
                as [e'|r]
          end
      end; [|eexists; reflexivity].
      apply build_blocks_inl in Hi. destruct Hi as (j & _ & Hj & _).
      subst new_block. cbv beta in Hj.
      unfold transformer_s_build.TransformerBlock_init in Hj. rewrite Hm in Hj.
      discriminate.
  - intros HE Hn Hnz Hnd.
    destruct (MultiHeadAttention_s_init_cases (Lin := Lin) embedding_dim n_heads mask
                dropout_p (1 / sqrt (IZR (2 * n_blocks))))
      as [[Hz _] | [(_ & _ & msg & He) | (_ & Hd & _)]]; [contradiction | | contradiction].
    exists msg. exact (Hfirst _ _ He HE Hn eq_refl).
  - intros HE Hn Hz.
    destruct (MultiHeadAttention_s_init_cases (Lin := Lin) embedding_dim n_heads mask
                dropout_p (1 / sqrt (IZR (2 * n_blocks))))
      as [[_ He] | [(Hnz & _) | (Hnz & _)]]; [|contradiction | contradiction].
    exact (Hfirst _ _ He HE Hn eq_refl).
Qed.

(** *** The constructors of [transformer.py] *)

Module transformer_build.

Import transformer.

(** The value of a Python arithmetic expression on numbers: a float, or
    a complex number. *)
Inductive pynum : Type :=
| PyFloat (x : R)
| PyComplex.

(** [0.02 * (2 * n_layers) ** -0.5] on an integer [n_layers]: zero to a
    negative power raises, and a negative integer to a fractional power
    is a complex number. *)
Definition out_proj_std (n_layers : Z) : exn + pynum :=
  if (2 * n_layers =? 0)%Z then inl ZeroDivisionError
  else if (2 * n_layers <? 0)%Z then inr PyComplex
  else inr (PyFloat (2 / 100 * Rpower (IZR (2 * n_layers)) (- / 2))).

(** The modules a [FeedForward] holds. *)
Inductive FeedForward_module (Lin Act Drop : Type) : Type :=
| FF_Linear (l : Lin)
| FF_Activation (a : Act)
| FF_Dropout (d : Drop).

Arguments FF_Linear {Lin Act Drop}.
Arguments FF_Activation {Lin Act Drop}.
Arguments FF_Dropout {Lin Act Drop}.

(** [FeedForward.__init__]: the list of modules handed to [Sequential].
    [activation] is the module [get_activation] builds and [w] the
    sampled weight of the output projection.  The conditional expression
    binds weaker than [+]: the list is [[lin, act, out_proj] + [drop]]
    when there is a dropout layer, and empty otherwise. *)
Definition FeedForward_init {Lin Act Drop : Type} `{LinearAPI Lin} `{DropoutAPI Drop}
           (in_channels h_channels : Z) (dropout_p : R) (activation : Act)
           (bias training : bool) (w : matrix)
  : list (FeedForward_module Lin Act Drop) :=
  let lin := Linear in_channels h_channels bias "Linear" training in
  let act := activation in
  let out_proj := Linear h_channels in_channels bias "OutProj" training in
  let out_proj := set_w out_proj w in
  let drop := if Rltb 0 dropout_p then Some (Dropout dropout_p training) else None in
  match drop with
  | Some d => [FF_Linear lin; FF_Activation act; FF_Linear out_proj] ++ [FF_Dropout d]
  | None => []
  end.

(** [TransformerBlock.__init__]: the attention module is built, and may
    raise, before the feed-forward module is. *)
Definition TransformerBlock_init {Lin LN Act Drop : Type} `{LinearAPI Lin} `{DropoutAPI Drop}
           (Layernorm : LN) (activation : Act)
           (in_channels feedforward_channels n_heads : Z) (mask : option smatrix)
           (dropout_p : R) (attention_bias feedforward_bias training : bool)
           (w_attn w_ffwd : matrix)
  : exn + TransformerBlock_t LN (MultiHeadAttention Lin Drop)
                             (list (FeedForward_module Lin Act Drop)) :=
  let ln_1 := Layernorm in
  match MultiHeadAttention_init in_channels n_heads mask dropout_p attention_bias
                                training w_attn with
  | inl e => inl e
  | inr attn =>
      let ln_2 := Layernorm in
      let ffwd := FeedForward_init in_channels feedforward_channels dropout_p activation
                                   feedforward_bias training w_ffwd in
      inr (TransformerBlock ln_1 attn ln_2 ffwd)
  end.

(** [Transformer.__init__] with the arithmetic on its arguments:
    [block_kwargs], with the deviation of the output projections, is
    evaluated first.  [new_block std i] is the [i]-th call of the block
    constructor. *)
Definition Transformer_new {Blk LN : Type} (h : heap) (n_layers : Z)
           (new_block : pynum -> nat -> exn + Blk) (new_ln : LN)
           (w_token w_token_normal w_pos w_pos_normal w_head : matrix)
  : exn + (heap * Transformer Blk LN) :=
  match out_proj_std n_layers with
  | inl e => inl e
  | inr std =>
      Transformer_init h n_layers (new_block std) new_ln
                       w_token w_token_normal w_pos w_pos_normal w_head
  end.

End transformer_build.

Lemma Rltb_true_iff (a b : R) : Rltb a b = true <-> a < b.
Proof.
  unfold Rltb. destruct (Rlt_dec a b) as [H|H]; split; auto; discriminate.
Qed.

Lemma Rltb_false_iff (a b : R) : Rltb a b = false <-> b <= a.
Proof.
  unfold Rltb. destruct (Rlt_dec a b) as [H|H]; split; auto; try discriminate; lra.
Qed.

(** X8.  The modules of the [FeedForward] of [transformer.py].  With a
    positive dropout probability they are the linear layer, the
    activation, the output projection and the dropout layer, in this
    order.  With a probability that is not positive, the default, the
    list is empty: the conditional expression that was to append the
    dropout layer discards the three other layers with it.  The module
    never consists of the three layers alone. *)
Theorem FeedForward_modules {Lin Act Drop : Type}
        {LA : transformer.LinearAPI Lin} {DA : transformer.DropoutAPI Drop}
        (in_channels h_channels : Z) (dropout_p : R) (activation : Act)
        (bias training : bool) (w : matrix) :
  let modules := transformer_build.FeedForward_init (Lin := Lin) (Drop := Drop)
                   in_channels h_channels dropout_p activation bias training w in
  (0 < dropout_p ->
   modules =
   [transformer_build.FF_Linear
      (transformer.Linear in_channels h_channels bias "Linear" training);
    transformer_build.FF_Activation activation;
    transformer_build.FF_Linear
      (transformer.set_w (transformer.Linear h_channels in_channels bias "OutProj" training) w);
    transformer_build.FF_Dropout (transformer.Dropout dropout_p training)]) /\
  (dropout_p <= 0 -> modules = []) /\
  length modules <> 3%nat.
Proof.
  intros modules. subst modules. unfold transformer_build.FeedForward_init.
  destruct (Rltb 0 dropout_p) eqn:Hp.
  - apply Rltb_true_iff in Hp. split; [|split].
    + intros _. reflexivity.
    + intros Hle. lra.
    + cbn. discriminate.
  - apply Rltb_false_iff in Hp. split; [|split].
    + intros Hlt. lra.
    + intros _. reflexivity.
    + cbn. discriminate.
Qed.

Lemma Transformer_init_blocks {Blk LN : Type} (h : heap) (n_layers : Z)
      (new_block : nat -> exn + Blk) (new_ln : LN)
      (w_token w_token_normal w_pos w_pos_normal w_head : matrix) :
  match transformer.Transformer_init h n_layers new_block new_ln
          w_token w_token_normal w_pos w_pos_normal w_head with
  | inl e => transformer_s.build_blocks new_block 0 (Z.to_nat n_layers) = inl e
  | inr (_, self) =>
      transformer_s.build_blocks new_block 0 (Z.to_nat n_layers) =
      inr (transformer.blocks self)
  end.
Proof.
  unfold transformer.Transformer_init. cbn.
  destruct (transformer_s.build_blocks new_block 0 (Z.to_nat n_layers)) as [e|bs];
    reflexivity.
Qed.

Lemma out_proj_std_cases (n_layers : Z) :
  (n_layers = 0%Z /\ transformer_build.out_proj_std n_layers = inl ZeroDivisionError) \/
  ((n_layers < 0)%Z /\
   transformer_build.out_proj_std n_layers = inr transformer_build.PyComplex) \/
  ((0 < n_layers)%Z /\
   transformer_build.out_proj_std n_layers =
   inr (transformer_build.PyFloat (2 / 100 * Rpower (IZR (2 * n_layers)) (- / 2)))).
Proof.
  unfold transformer_build.out_proj_std.
  destruct (Z.eqb_spec (2 * n_layers) 0); [left; split; [lia | reflexivity]|].
  destruct (Z.ltb_spec (2 * n_layers) 0); right; [left | right]; (split; [lia | reflexivity]).
Qed.

(** X9.  The outcomes of [Transformer.__init__] of [transformer.py], the
    constructors of the library taken to return.
    With no layers the deviation [0.02 * (2 * n_layers) ** -0.5] raises
    [ZeroDivisionError].  With a negative number of layers it is a
    complex number and nothing is raised: the block constructor is never
    called and the model is built without blocks.  With a positive number
    the block constructor is called [n_layers] times; the first error it
    raises is the error of the construction, and when it raises none the
    model holds the [n_layers] blocks in the order they were built. *)
Theorem Transformer_new_outcomes {Blk LN : Type} (h : heap) (n_layers : Z)
        (new_block : transformer_build.pynum -> nat -> exn + Blk) (new_ln : LN)
        (w_token w_token_normal w_pos w_pos_normal w_head : matrix) :
  let built := transformer_build.Transformer_new h n_layers new_block new_ln
                 w_token w_token_normal w_pos w_pos_normal w_head in
  let std := transformer_build.PyFloat (2 / 100 * Rpower (IZR (2 * n_layers)) (- / 2)) in
  (n_layers = 0%Z -> built = inl ZeroDivisionError) /\
  ((n_layers < 0)%Z ->
   exists h' self, built = inr (h', self) /\ transformer.blocks self = []) /\
  ((0 < n_layers)%Z ->
   (forall h' self,
       built = inr (h', self) ->
       length (transformer.blocks self) = Z.to_nat n_layers /\
       forall i, (i < Z.to_nat n_layers)%nat ->
                 exists b, new_block std i = inr b /\
                           nth_error (transformer.blocks self) i = Some b) /\
   (forall e,
       built = inl e <->
       exists i, (i < Z.to_nat n_layers)%nat /\ new_block std i = inl e /\
                 forall j, (j < i)%nat -> exists b, new_block std j = inr b)).
Proof.
  intros built std. subst built. unfold transformer_build.Transformer_new.
  destruct (out_proj_std_cases n_layers) as [[Hz ->] | [[Hneg ->] | [Hpos ->]]].
  - split; [reflexivity|]. split; intros; lia.
  - split; [lia|]. split; [|lia]. intros _.
    match goal with
    | |- exists h' self, ?t = _ /\ _ =>
        match t with
        | transformer.Transformer_init ?a1 ?a2 ?a3 ?a4 ?a5 ?a6 ?a7 ?a8 ?a9 =>
            pose proof (Transformer_init_blocks a1 a2 a3 a4 a5 a6 a7 a8 a9) as Hi;
            destruct (transformer.Transformer_init a1 a2 a3 a4 a5 a6 a7 a8 a9)
              as [e'|[h' self]]
        end
    end.
    + assert (Hz : Z.to_nat n_layers = 0%nat) by lia. rewrite Hz in Hi. discriminate.
    + assert (Hz : Z.to_nat n_layers = 0%nat) by lia. rewrite Hz in Hi.
      cbn in Hi. injection Hi as Hi.
      exists h', self. split; [reflexivity | now symmetry].
  - split; [lia|]. split; [lia|]. intros _. fold std.
    match goal with
    | |- context [transformer.Transformer_init ?a1 ?a2 ?a3 ?a4 ?a5 ?a6 ?a7 ?a8 ?a9] =>
        pose proof (Transformer_init_blocks a1 a2 a3 a4 a5 a6 a7 a8 a9) as Hi;
        destruct (transformer.Transformer_init a1 a2 a3 a4 a5 a6 a7 a8 a9)
          as [e'|[h' self]]
    end.
    + split; [intros h' self Hb; discriminate|]. intros e.
      rewrite <- (build_blocks_inl (new_block std) (Z.to_nat n_layers) 0 e).
      rewrite Hi. split; intros H'; injection H' as ->; reflexivity.
    + split.
      * intros h'' self' Hb. injection Hb as <- <-.
        apply build_blocks_inr in Hi. exact Hi.
      * intros e.
        rewrite <- (build_blocks_inl (new_block std) (Z.to_nat n_layers) 0 e).
        rewrite Hi. split; discriminate.
Qed.

Lemma MultiHeadAttention_init_cases {Lin Drop : Type}
      {LA : transformer.LinearAPI Lin} {DA : transformer.DropoutAPI Drop}
      (in_channels n_heads : Z) (mask : option smatrix) (dropout_p : R)
      (bias training : bool) (w : matrix) :
  (n_heads = 0%Z /\
   transformer.MultiHeadAttention_init (Lin := Lin) (Drop := Drop)
     in_channels n_heads mask dropout_p bias training w = inl ZeroDivisionError) \/
  (n_heads <> 0%Z /\ ~ (n_heads | in_channels)%Z /\
   exists msg,
     transformer.MultiHeadAttention_init (Lin := Lin) (Drop := Drop)
       in_channels n_heads mask dropout_p bias training w = inl (ValueError msg)) \/
  (n_heads <> 0%Z /\ (n_heads | in_channels)%Z /\
   exists m,
     transformer.MultiHeadAttention_init (Lin := Lin) (Drop := Drop)
       in_channels n_heads mask dropout_p bias training w = inr m).
Proof.
  unfold transformer.MultiHeadAttention_init, py_mod.
  destruct (Z.eqb_spec n_heads 0) as [Hz|Hnz]; [left; split; [exact Hz | reflexivity]|].
  right. destruct (Z.eqb_spec (in_channels mod n_heads) 0) as [Hm|Hm]; cbn [negb].
  - right. split; [exact Hnz|]. split; [now apply Z.mod_divide|]. eexists. reflexivity.
  - left. split; [exact Hnz|]. split.
    + intros D. apply Z.mod_divide in D; [contradiction | exact Hnz].
    + eexists. reflexivity.
Qed.

(** The feed-forward module of a block of [transformer.py]. *)
Definition block_ffwd {LN Attn FF : Type} (b : transformer.TransformerBlock_t LN Attn FF) : FF :=
  seq_second (residual_block (seq_second b)).

(** X10.  [Transformer.__init__] of [transformer.py] with the blocks it
    builds, the constructors of the library taken to return.  With a positive number of layers construction succeeds
    exactly when the number of heads is not zero and divides the
    embedding dimension; otherwise the first block's attention module
    raises, a [ValueError] or, without heads, [ZeroDivisionError].  With a
    negative number of layers it succeeds whatever the number of heads
    is.  And in a model built with a dropout probability that is not
    positive, the feed-forward module of every block holds no layer. *)
Theorem Transformer_new_divisible {Lin LN Act Drop : Type}
        {LA : transformer.LinearAPI Lin} {DA : transformer.DropoutAPI Drop}
        (Layernorm : LN) (activation : Act)
        (h : heap) (embedding_dim feedforward_channels n_heads n_layers : Z)
        (mask : option smatrix) (dropout_p : R)
        (attention_bias feedforward_bias training : bool)
        (uniform : transformer_build.pynum -> nat -> matrix * matrix) (new_ln : LN)
        (w_token w_token_normal w_pos w_pos_normal w_head : matrix) :
  let new_block := fun (std : transformer_build.pynum) (i : nat) =>
                     transformer_build.TransformerBlock_init (Lin := Lin) (Drop := Drop)
                       Layernorm activation embedding_dim feedforward_channels n_heads
                       mask dropout_p attention_bias feedforward_bias training
                       (fst (uniform std i)) (snd (uniform std i)) in
  let built := transformer_build.Transformer_new h n_layers new_block new_ln
                 w_token w_token_normal w_pos w_pos_normal w_head in
  ((0 < n_layers)%Z ->
   ((exists r, built = inr r) <-> n_heads <> 0%Z /\ (n_heads | embedding_dim)%Z) /\
   (n_heads <> 0%Z -> ~ (n_heads | embedding_dim)%Z ->
    exists msg, built = inl (ValueError msg)) /\
   (n_heads = 0%Z -> built = inl ZeroDivisionError)) /\
  ((n_layers < 0)%Z -> exists r, built = inr r) /\
  (forall h' self b,
      built = inr (h', self) -> dropout_p <= 0 -> In b (transformer.blocks self) ->
      block_ffwd b = []).
Proof.
  intros new_block built.
  assert (Hblock : forall std i,
             match transformer.MultiHeadAttention_init (Lin := Lin) (Drop := Drop)
                     embedding_dim n_heads mask dropout_p attention_bias training
                     (fst (uniform std i)) with
             | inl e => new_block std i = inl e
             | inr m => exists b, new_block std i = inr b /\
                                  (dropout_p <= 0 -> block_ffwd b = [])
             end).
  { intros std i. subst new_block. cbv beta.
    unfold transformer_build.TransformerBlock_init.
    destruct (transformer.MultiHeadAttention_init _ _ _ _ _ _ _) as [e|m]; [reflexivity|].
    eexists. split; [reflexivity|]. intros Hp.
    unfold block_ffwd, transformer.TransformerBlock. cbn.
    unfold transformer_build.FeedForward_init.
    apply Rltb_false_iff in Hp. rewrite Hp. reflexivity. }
  split; [|split].
  - intros Hn. subst built. unfold transformer_build.Transformer_new.
    destruct (out_proj_std_cases n_layers) as [[Hz _] | [[Hneg _] | [_ ->]]]; try lia.
    set (std := transformer_build.PyFloat _).
    match goal with
    | |- context [transformer.Transformer_init ?a1 ?a2 ?a3 ?a4 ?a5 ?a6 ?a7 ?a8 ?a9] =>
        pose proof (Transformer_init_blocks a1 a2 a3 a4 a5 a6 a7 a8 a9) as Hi;
        destruct (transformer.Transformer_init a1 a2 a3 a4 a5 a6 a7 a8 a9)
          as [e'|[h' self]]
    end.
    + apply build_blocks_inl in Hi. destruct Hi as (j & Hj & He & Hbefore).
      cbn [Nat.add] in He.
      assert (H0 : new_block std 0%nat = inl e').
      { pose proof (Hblock std j) as Hbj. pose proof (Hblock std 0%nat) as Hb0.
        destruct (MultiHeadAttention_init_cases (Lin := Lin) (Drop := Drop)
                    embedding_dim n_heads mask dropout_p attention_bias training
                    (fst (uniform std j)))
          as [[Hz Hj0] | [(Hnz & Hnd & msg & Hj0) | (Hnz & Hd & m & Hj0)]];
          rewrite Hj0 in Hbj.
        - destruct (MultiHeadAttention_init_cases (Lin := Lin) (Drop := Drop)
                      embedding_dim n_heads mask dropout_p attention_bias training
                      (fst (uniform std 0%nat)))
            as [[_ H0] | [(Hnz & _) | (Hnz & _)]]; try contradiction.
          rewrite H0 in Hb0. congruence.
        - destruct j as [|j]; [congruence|].
          destruct (Hbefore 0%nat) as [b Hb]; [lia|]. cbn [Nat.add] in Hb.
          destruct (MultiHeadAttention_init_cases (Lin := Lin) (Drop := Drop)
                      embedding_dim n_heads mask dropout_p attention_bias training
                      (fst (uniform std 0%nat)))
            as [[Hz _] | [(_ & _ & msg0 & H0) | (_ & Hd & _)]]; try contradiction.
          rewrite H0 in Hb0. congruence.
        - destruct Hbj as (b & Hb & _). congruence. }
      pose proof (Hblock std 0%nat) as Hb0.
      destruct (MultiHeadAttention_init_cases (Lin := Lin) (Drop := Drop)
                  embedding_dim n_heads mask dropout_p attention_bias training
                  (fst (uniform std 0%nat)))
        as [[Hz Hm] | [(Hnz & Hnd & msg & Hm) | (Hnz & Hd & m & Hm)]];
        rewrite Hm in Hb0.
      * assert (e' = ZeroDivisionError) by congruence. subst e'.
        split; [|split].
        -- split; [intros [r Hr]; discriminate | intros [Hnz _]; contradiction].
        -- intros Hnz. contradiction.
        -- intros _. reflexivity.
      * assert (e' = ValueError msg) by congruence. subst e'.
        split; [|split].
        -- split; [intros [r Hr]; discriminate | intros [_ Hd]; contradiction].
        -- intros _ _. exists msg. reflexivity.
        -- intros Hz. contradiction.
      * destruct Hb0 as (b & Hb & _). congruence.
    + apply build_blocks_inr in Hi. destruct Hi as [_ Hall].
      destruct (Hall 0%nat) as (b & Hb & _); [lia|]. cbn [Nat.add] in Hb.
      pose proof (Hblock std 0%nat) as Hb0.
      destruct (MultiHeadAttention_init_cases (Lin := Lin) (Drop := Drop)
                  embedding_dim n_heads mask dropout_p attention_bias training
                  (fst (uniform std 0%nat)))
        as [[Hz Hm] | [(Hnz & Hnd & msg & Hm) | (Hnz & Hd & m & Hm)]];
        rewrite Hm in Hb0; try congruence.
      split; [|split].
      * split; [intros _; split; assumption | intros _; eexists; reflexivity].
      * intros _ Hnd. contradiction.
      * intros Hz. contradiction.
  - intros Hn. subst built. unfold transformer_build.Transformer_new.
    destruct (out_proj_std_cases n_layers) as [[Hz _] | [[_ ->] | [Hpos _]]]; try lia.
    match goal with
    | |- context [transformer.Transformer_init ?a1 ?a2 ?a3 ?a4 ?a5 ?a6 ?a7 ?a8 ?a9] =>
        pose proof (Transformer_init_blocks a1 a2 a3 a4 a5 a6 a7 a8 a9) as Hi;
        destruct (transformer.Transformer_init a1 a2 a3 a4 a5 a6 a7 a8 a9)
          as [e'|r]
    end; [|eexists; reflexivity].
    assert (Hz : Z.to_nat n_layers = 0%nat) by lia. rewrite Hz in Hi. discriminate.
  - intros h' self b Hb Hp Hin. subst built. unfold transformer_build.Transformer_new in Hb.
    destruct (transformer_build.out_proj_std n_layers) as [e|std]; [discriminate|].
    match type of Hb with
    | ?t = _ =>
        match t with
        | transformer.Transformer_init ?a1 ?a2 ?a3 ?a4 ?a5 ?a6 ?a7 ?a8 ?a9 =>
            pose proof (Transformer_init_blocks a1 a2 a3 a4 a5 a6 a7 a8 a9) as Hi
        end
    end.
    rewrite Hb in Hi. apply build_blocks_inr in Hi. destruct Hi as [Hlen Hall].
    apply In_nth_error in Hin. destruct Hin as [i Hi].
    assert (Hlt : (i < Z.to_nat n_layers)%nat).
    { rewrite <- Hlen. apply nth_error_Some. congruence. }
    destruct (Hall i Hlt) as (b' & Hb' & Hn'). cbn [Nat.add] in Hb'.
    assert (b' = b) by congruence. subst b'.
    pose proof (Hblock std i) as Hbi.
    destruct (transformer.MultiHeadAttention_init _ _ _ _ _ _ _) as [e|m]; [congruence|].
    destruct Hbi as (b0 & Hb0 & Hff). assert (b0 = b) by congruence. subst b0.
    apply Hff. exact Hp.
Qed.

(** ** The stack of blocks *)

Lemma forward_blocks_app {Blk : Type} {L : Layer Blk} (bs1 bs2 : list Blk) :
  forall x,
    transformer_s.forward_blocks (bs1 ++ bs2) x =
    ('(b1, y) <- transformer_s.forward_blocks bs1 x ;;
     '(b2, z) <- transformer_s.forward_blocks bs2 y ;;
     Some (b1 ++ b2, z)).
Proof.
  induction bs1 as [|b bs1 IH]; intros x; cbn [app transformer_s.forward_blocks].
  - destruct (transformer_s.forward_blocks bs2 x) as [[b2 z]|]; reflexivity.
  - destruct (forward b x) as [[b' y]|]; [|reflexivity].
    rewrite IH.
    destruct (transformer_s.forward_blocks bs1 y) as [[b1 y1]|]; [|reflexivity].
    destruct (transformer_s.forward_blocks bs2 y1) as [[b2 z]|]; reflexivity.
Qed.

Lemma backward_blocks_app {Blk : Type} {L : Layer Blk} (r1 r2 : list Blk) :
  forall dy,
    transformer_s.backward_blocks (r1 ++ r2) dy =
    ('(b1, g) <- transformer_s.backward_blocks r1 dy ;;
     '(b2, g2) <- transformer_s.backward_blocks r2 g ;;
     Some (b2 ++ b1, g2)).
Proof.
  induction r1 as [|b r1 IH]; intros dy; cbn [app transformer_s.backward_blocks].
  - destruct (transformer_s.backward_blocks r2 dy) as [[b2 g2]|]; [|reflexivity].
    now rewrite app_nil_r.
  - destruct (backward b dy) as [[b' g]|]; [|reflexivity].
    rewrite IH.
    destruct (transformer_s.backward_blocks r1 g) as [[b1 g1]|]; [|reflexivity].
    destruct (transformer_s.backward_blocks r2 g1) as [[b2 g2]|]; [|reflexivity].
    now rewrite app_assoc.
Qed.

Lemma forward_blocks_length {Blk : Type} {L : Layer Blk} (bs : list Blk) :
  forall x bs' y,
    transformer_s.forward_blocks bs x = Some (bs', y) -> length bs' = length bs.
Proof.
  induction bs as [|b bs IH]; intros x bs' y; cbn [transformer_s.forward_blocks].
  - intros H. injection H as <- _. reflexivity.
  - destruct (forward b x) as [[b' y1]|]; [|discriminate].
    destruct (transformer_s.forward_blocks bs y1) as [[r z]|] eqn:Hr; [|discriminate].
    intros H. injection H as <- _. cbn. f_equal. eapply IH; eassumption.
Qed.

Lemma backward_blocks_length {Blk : Type} {L : Layer Blk} (rs : list Blk) :
  forall dy bs' g,
    transformer_s.backward_blocks rs dy = Some (bs', g) -> length bs' = length rs.
Proof.
  induction rs as [|b rs IH]; intros dy bs' g; cbn [transformer_s.backward_blocks].
  - intros H. injection H as <- _. reflexivity.
  - destruct (backward b dy) as [[b' g1]|]; [|discriminate].
    destruct (transformer_s.backward_blocks rs g1) as [[r z]|] eqn:Hr; [|discriminate].
    intros H. injection H as <- _. rewrite length_app. cbn.
    rewrite (IH _ _ _ Hr). lia.
Qed.

(** X11.  The loops over the blocks in the forward and backward passes
    of the top-level models.  The forward loop over two stacks of blocks,
    one after the other, is the forward loop over the first followed by
    the one over the second; the backward loop over the reversed list
    sends the gradient through the second stack first and through the
    first stack after it; either loop fails as soon as a block fails,
    returns as many blocks as it was given, and leaves its input
    unchanged when there are no blocks. *)
Theorem blocks_compose {Blk : Type} {L : Layer Blk} (bs1 bs2 : list Blk) :
  (forall x,
      output transformer_s.forward_blocks (bs1 ++ bs2) x =
      ('y <- output transformer_s.forward_blocks bs1 x ;;
       output transformer_s.forward_blocks bs2 y)) /\
  (forall dy,
      output transformer_s.backward_blocks (rev (bs1 ++ bs2)) dy =
      ('g <- output transformer_s.backward_blocks (rev bs2) dy ;;
       output transformer_s.backward_blocks (rev bs1) g)) /\
  (forall x bs' y,
      transformer_s.forward_blocks bs1 x = Some (bs', y) -> length bs' = length bs1) /\
  (forall dy bs' g,
      transformer_s.backward_blocks (rev bs1) dy = Some (bs', g) -> length bs' = length bs1) /\
  (forall x : tensor3,
      output transformer_s.forward_blocks (@nil Blk) x = Some x /\
      output transformer_s.backward_blocks (rev (@nil Blk)) x = Some x).
Proof.
  split; [|split; [|split; [|split]]].
  - intros x. unfold output. rewrite forward_blocks_app.
    destruct (transformer_s.forward_blocks bs1 x) as [[b1 y]|]; [|reflexivity].
    cbn [option_map snd].
    destruct (transformer_s.forward_blocks bs2 y) as [[b2 z]|]; reflexivity.
  - intros dy. unfold output. rewrite rev_app_distr, backward_blocks_app.
    destruct (transformer_s.backward_blocks (rev bs2) dy) as [[b2 g]|]; [|reflexivity].
    cbn [option_map snd].
    destruct (transformer_s.backward_blocks (rev bs1) g) as [[b1 g1]|]; reflexivity.
  - intros x bs' y. apply forward_blocks_length.
  - intros dy bs' g H. rewrite (backward_blocks_length _ _ _ _ H). apply length_rev.
  - intros x. split; reflexivity.
Qed.

(** ** The function cache of the multi-head attention module *)

(** How many values the cache holds under each of the four keys the
    attention function of [transformer_s.py] writes and reads itself:
    [q], [k], [v] and [attn_w]. *)
Definition cache_depth (c : FunctionCache) : list nat :=
  [length (cache_q c); length (cache_k c); length (cache_v c); length (cache_attn_w c)].

Lemma FSDPAttention_forward_depth c q k v mask p ret dmap :
  cache_depth (fst (transformer_s.FSDPAttention_forward c q k v mask p ret dmap)) =
  map S (cache_depth c).
Proof.
  unfold transformer_s.FSDPAttention_forward, FSoftmax_forward, FDropout_forward.
  destruct (Rltb 0 p); reflexivity.
Qed.

Lemma FSDPAttention_backward_depth c dy c' g :
  transformer_s.FSDPAttention_backward c dy = Some (c', g) ->
  cache_depth c = map S (cache_depth c').
Proof.
  unfold transformer_s.FSDPAttention_backward, pop_qkvw, FDropout_backward,
    pop_dropout_map, FSoftmax_backward, pop_y.
  destruct c as [[|q qs] [|k ks] [|v vs] [|w ws] [|y ys] [|d ds]]; cbn;
    try discriminate; try (destruct d; discriminate).
  destruct d; intros H; injection H as <- _; reflexivity.
Qed.

Lemma map_add_S (n : nat) (l : list nat) :
  map (fun d => (d + S n)%nat) l = map S (map (fun d => (d + n)%nat) l).
Proof.
  rewrite map_map. apply map_ext. intros d. lia.
Qed.

Lemma map_add_0 (l : list nat) : map (fun d => (d + 0)%nat) l = l.
Proof.
  rewrite <- (map_id l) at 2. apply map_ext. intros d. lia.
Qed.

Lemma forward_heads_depth mask p ret rng heads :
  forall c i ys ws,
    cache_depth (fst (fst (transformer_s.forward_heads c mask p ret rng i heads ys ws))) =
    map (fun d => (d + length heads)%nat) (cache_depth c).
Proof.
  induction heads as [|[q [k v]] rest IH]; intros c i ys ws.
  - cbn [transformer_s.forward_heads fst length]. now rewrite map_add_0.
  - cbn [transformer_s.forward_heads length].
    pose proof (FSDPAttention_forward_depth c q k v mask p ret (rng i)) as Hd.
    destruct (transformer_s.FSDPAttention_forward c q k v mask p ret (rng i)) as [c' [y w]].
    cbn [fst] in Hd. rewrite IH, Hd, map_map. apply map_ext. intros d. lia.
Qed.

Lemma backward_heads_depth dys :
  forall c aq ak av c' r,
    transformer_s.backward_heads c dys aq ak av = Some (c', r) ->
    cache_depth c = map (fun d => (d + length dys)%nat) (cache_depth c').
Proof.
  induction dys as [|dy dys IH]; intros c aq ak av c' r; cbn [transformer_s.backward_heads].
  - intros H. injection H as <- _. cbn [length]. now rewrite map_add_0.
  - destruct (transformer_s.FSDPAttention_backward c dy) as [[c1 [[dq dk] dv]]|] eqn:Hb;
      [|discriminate].
    intros H. apply IH in H. apply FSDPAttention_backward_depth in Hb.
    rewrite Hb, H, map_map. cbn [length]. apply map_ext. intros d. lia.
Qed.

Lemma MultiHeadAttention_backward_depth {Lin : Type} {L : Layer Lin}
      (self self' : transformer_s.MultiHeadAttention Lin) (dy dx : tensor3) :
  transformer_s.MultiHeadAttention_backward self dy = Some (self', dx) ->
  cache_depth (transformer_s.fcache self) =
  map (fun d => (d + Z.to_nat (transformer_s.n_heads self))%nat)
      (cache_depth (transformer_s.fcache self')).
Proof.
  unfold transformer_s.MultiHeadAttention_backward. intros Hb.
  destruct (backward (transformer_s.out_proj self) dy) as [[op g]|]; [|discriminate].
  destruct (transformer_s.backward_heads _ _ _ _ _) as [[c [[dqs dks] dvs]]|] eqn:Hh;
    [|discriminate].
  destruct (backward (transformer_s.query_proj self) _) as [[qp dx1]|]; [|discriminate].
  destruct (backward (transformer_s.key_proj self) _) as [[kp dx2]|]; [|discriminate].
  destruct (backward (transformer_s.value_proj self) _) as [[vp dx3]|]; [|discriminate].
  injection Hb as <- _. cbn [transformer_s.fcache transformer_s.MultiHeadAttention_update].
  apply backward_heads_depth in Hh. now rewrite length_rev, split_length in Hh.
Qed.

(** X12.  The function cache of the multi-head attention module of
    [transformer_s.py], in training mode, under the four keys the
    attention function writes: [q], [k], [v] and [attn_w].  A forward
    call of a module in training mode leaves [n_heads] more values under
    each of the four keys, one per head; a backward call that returns
    has taken [n_heads] values from under each.  So the two passes keep
    in step: after a forward call and its backward call the cache holds
    as many values as before. *)
Theorem MultiHeadAttention_cache_depth {Lin : Type} {L : Layer Lin} :
  (forall (self self' : transformer_s.MultiHeadAttention Lin) x y rng,
      transformer_s.is_training self = true ->
      transformer_s.MultiHeadAttention_forward self x rng = Some (self', y) ->
      cache_depth (transformer_s.fcache self') =
      map (fun d => (d + Z.to_nat (transformer_s.n_heads self))%nat)
          (cache_depth (transformer_s.fcache self))) /\
  (forall (self self' : transformer_s.MultiHeadAttention Lin) dy dx,
      transformer_s.is_training self = true ->
      transformer_s.MultiHeadAttention_backward self dy = Some (self', dx) ->
      cache_depth (transformer_s.fcache self) =
      map (fun d => (d + Z.to_nat (transformer_s.n_heads self))%nat)
          (cache_depth (transformer_s.fcache self'))) /\
  (forall (self s1 s2 : transformer_s.MultiHeadAttention Lin) x y rng dy dx,
      transformer_s.is_training self = true ->
      transformer_s.MultiHeadAttention_forward self x rng = Some (s1, y) ->
      transformer_s.MultiHeadAttention_backward s1 dy = Some (s2, dx) ->
      cache_depth (transformer_s.fcache s2) = cache_depth (transformer_s.fcache self)).
Proof.
  assert (Hfwd : forall (self self' : transformer_s.MultiHeadAttention Lin) x y rng,
             transformer_s.MultiHeadAttention_forward self x rng = Some (self', y) ->
             transformer_s.n_heads self' = transformer_s.n_heads self /\
             cache_depth (transformer_s.fcache self') =
             map (fun d => (d + Z.to_nat (transformer_s.n_heads self))%nat)
                 (cache_depth (transformer_s.fcache self))).
  { intros self self' x y rng Hf.
    unfold transformer_s.MultiHeadAttention_forward in Hf.
    destruct (forward (transformer_s.query_proj self) x) as [[qp q]|]; [|discriminate].
    destruct (forward (transformer_s.key_proj self) x) as [[kp k]|]; [|discriminate].
    destruct (forward (transformer_s.value_proj self) x) as [[vp v]|]; [|discriminate].
    match type of Hf with
    | context [transformer_s.forward_heads ?c ?m ?p ?r ?g ?i ?hs ?ys ?ws] =>
        pose proof (forward_heads_depth m p r g hs c i ys ws) as Hd;
        destruct (transformer_s.forward_heads c m p r g i hs ys ws) as [[c' ys'] ws']
    end.
    destruct (forward (transformer_s.out_proj self) _) as [[op o]|]; [|discriminate].
    injection Hf as <- _.
    cbn [transformer_s.fcache transformer_s.n_heads transformer_s.MultiHeadAttention_update].
    split; [reflexivity|].
    cbn [fst] in Hd. rewrite Hd.
    rewrite !length_combine, !split_length, !Nat.min_id. reflexivity. }
  split; [|split].
  - intros self self' x y rng _ Hf. now apply Hfwd in Hf.
  - intros self self' dy dx _. apply MultiHeadAttention_backward_depth.
  - intros self s1 s2 x y rng dy dx _ Hf Hb.
    apply Hfwd in Hf. destruct Hf as [Hn Hf].
    apply MultiHeadAttention_backward_depth in Hb. rewrite Hn, Hf in Hb.
    remember (Z.to_nat (transformer_s.n_heads self)) as n.
    unfold cache_depth in *. cbn [map] in Hb.
    injection Hb as H1 H2 H3 H4.
    f_equal; [lia|]. f_equal; [lia|]. f_equal; [lia|]. f_equal; lia.
Qed.

(** A module of [transformer_s.py] with two heads, in training mode with
    a dropout probability of zero, on layers that pass their input
    through. *)
Definition mha_training : transformer_s.MultiHeadAttention unit :=
  transformer_s.mkMHA 2 None 0 [] tt tt tt tt empty_cache true false.

Lemma mha_training_round_trip :
  exists s1 y s2 dx,
    @transformer_s.MultiHeadAttention_forward unit Identity_Layer
      mha_training [[[1; 2]]] (fun _ => []) = Some (s1, y) /\
    @transformer_s.MultiHeadAttention_backward unit Identity_Layer
      s1 [[[1; 1]]] = Some (s2, dx).
Proof.
  do 4 eexists. split.
  - run_inactive. reflexivity.
  - run_inactive. reflexivity.
Qed.

(** X12 on that module: a forward call on one position of two channels
    leaves two values under each key of the empty cache, and the backward
    call that follows leaves the cache empty again. *)
Lemma MultiHeadAttention_cache_depth_witness :
  exists s1 y s2 dx,
    @transformer_s.MultiHeadAttention_forward unit Identity_Layer
      mha_training [[[1; 2]]] (fun _ => []) = Some (s1, y) /\
    @transformer_s.MultiHeadAttention_backward unit Identity_Layer
      s1 [[[1; 1]]] = Some (s2, dx) /\
    cache_depth (transformer_s.fcache s1) = [2; 2; 2; 2]%nat /\
    cache_depth (transformer_s.fcache s2) = [0; 0; 0; 0]%nat.
Proof.
  destruct mha_training_round_trip as (s1 & y & s2 & dx & Hf & Hb).
  exists s1, y, s2, dx. split; [exact Hf|]. split; [exact Hb|]. split.
  - exact (proj1 (@MultiHeadAttention_cache_depth unit Identity_Layer)
                 mha_training s1 [[[1; 2]]] y (fun _ => []) eq_refl Hf).
  - exact (proj2 (proj2 (@MultiHeadAttention_cache_depth unit Identity_Layer))
                 mha_training s1 s2 [[[1; 2]]] y (fun _ => []) [[[1; 1]]] dx eq_refl Hf Hb).
Defined.

(** ** The gradient closures of the multi-head attention of [transformer.py] *)

Lemma scaled_dot_product_attention_grad_fn q k v mask p rgf dmap :
  snd (transformer.scaled_dot_product_attention q k v mask p rgf dmap) = None <-> rgf = false.
Proof.
  unfold transformer.scaled_dot_product_attention, softmax_fn, dropout_fn.
  destruct (Rltb 0 p), rgf; cbn; split; congruence.
Qed.

Lemma head_closures_spec mask p tr rng heads :
  forall i,
    length (head_closures mask p tr rng i heads) = length heads /\
    (tr = true -> Forall (fun f => f <> None) (head_closures mask p tr rng i heads)) /\
    (tr = false -> Forall (fun f => f = None) (head_closures mask p tr rng i heads)).
Proof.
  induction heads as [|[q [k v]] rest IH]; intros i; cbn [head_closures length].
  - repeat split; constructor.
  - destruct (IH (S i)) as (Hl & Ht & Hf). split; [now rewrite Hl|]. split.
    + intros Htr. constructor; [|now apply Ht].
      intros Hn. apply scaled_dot_product_attention_grad_fn in Hn. congruence.
    + intros Htr. constructor; [|now apply Hf].
      now apply scaled_dot_product_attention_grad_fn.
Qed.

(** X13.  The closure [_backward] of the multi-head attention module of
    [transformer.py].  A forward call in training mode stores one
    gradient function per head; a forward call outside training mode
    stores nothing and leaves [_backward] as it was, so that what a
    backward call would then run is the closure of the last forward call
    made in training mode, if there was one. *)
Theorem MultiHeadAttention_closure {Lin Drop : Type} {L : Layer Lin} {D : Layer Drop} :
  (forall (self self' : transformer.MultiHeadAttention Lin Drop) x y rng,
      transformer.training self = true ->
      transformer.MultiHeadAttention_forward self x rng = Some (self', y) ->
      exists fns,
        transformer._backward self' = Some fns /\
        length fns = Z.to_nat (transformer.n_heads self) /\
        Forall (fun f => f <> None) fns) /\
  (forall (self self' : transformer.MultiHeadAttention Lin Drop) x y rng,
      transformer.training self = false ->
      transformer.MultiHeadAttention_forward self x rng = Some (self', y) ->
      transformer._backward self' = transformer._backward self).
Proof.
  split; intros self self' x y rng Htr Hf;
    unfold transformer.MultiHeadAttention_forward in Hf;
    (destruct (forward (transformer.query self) x) as [[qp q]|]; [|discriminate]);
    (destruct (forward (transformer.key self) x) as [[kp k]|]; [|discriminate]);
    (destruct (forward (transformer.value self) x) as [[vp v]|]; [|discriminate]);
    match type of Hf with
    | context [transformer.forward_heads ?m ?p ?t ?g ?i ?hs ?f0 ?ys] =>
        pose proof (forward_heads_closures m p t g hs i f0 ys) as Hc;
        pose proof (head_closures_spec m p t g hs i) as Hs;
        destruct (transformer.forward_heads m p t g i hs f0 ys) as [fns' ys']
    end;
    (destruct (forward (transformer.out_proj self) (concat ys')) as [[op o]|]; [|discriminate]);
    (destruct (if Rltb 0 (transformer.dropout_p self)
               then transformer.through_dropout forward (transformer.dropout self) o
               else Some (transformer.dropout self, o)) as [[dr o']|]; [|discriminate]);
    injection Hf as <- _;
    cbn [transformer._backward transformer.MultiHeadAttention_update];
    rewrite Htr.
  - cbn [fst app] in Hc. subst fns'. destruct Hs as (Hl & Ht & _).
    eexists. split; [reflexivity|]. split.
    + rewrite Hl, !length_combine, !split_length, !Nat.min_id. reflexivity.
    + apply Ht. exact Htr.
  - reflexivity.
Qed.

(** ** The training scripts: windows over the encoded text *)

Module training_shakespeare.

(** [l[a:b]] for [0 <= a <= b]: a slice is clipped to the list. *)
Definition py_slice {A : Type} (l : list A) (a b : nat) : list A :=
  firstn (b - a) (skipn a l).

(** The library's [stack], as NumPy's: it raises on an empty list of
    rows and on rows of different lengths. *)
Definition stack {A : Type} (rows : list (list A)) : exn + list (list A) :=
  match rows with
  | [] => inl (ValueError "need at least one array to stack")
  | r :: rest =>
      if forallb (fun r' => (length r' =? length r)%nat) rest then inr rows
      else inl (ValueError "all input arrays must have the same shape")
  end.

(** [len(data_enc) // context_length]. *)
Definition n_windows (context_length : nat) (data_enc : list nat) : exn + nat :=
  if (context_length =? 0)%nat then inl ZeroDivisionError
  else inr (length data_enc / context_length)%nat.

(** [X]: the windows [data_enc[i * L : i * L + L]], stacked. *)
Definition X (context_length : nat) (data_enc : list nat) : exn + list (list nat) :=
  match n_windows context_length data_enc with
  | inl e => inl e
  | inr n =>
      stack (map (fun i => py_slice data_enc (i * context_length)
                                    (i * context_length + context_length))
                 (seq 0 n))
  end.

(** [y]: the windows [data_enc[i * L + 1 : i * L + L + 1]], stacked. *)
Definition y (context_length : nat) (data_enc : list nat) : exn + list (list nat) :=
  match n_windows context_length data_enc with
  | inl e => inl e
  | inr n =>
      stack (map (fun i => py_slice data_enc (i * context_length + 1)
                                    (i * context_length + context_length + 1))
                 (seq 0 n))
  end.

End training_shakespeare.

Lemma py_slice_length {A : Type} (l : list A) (a b : nat) :
  length (training_shakespeare.py_slice l a b) = Nat.min (b - a) (length l - a).
Proof.
  unfold training_shakespeare.py_slice. now rewrite length_firstn, length_skipn.
Qed.

Lemma py_slice_nth {A : Type} (l : list A) (a b j : nat) (d : A) :
  (j < b - a)%nat ->
  nth j (training_shakespeare.py_slice l a b) d = nth (a + j) l d.
Proof.
  intros Hj. unfold training_shakespeare.py_slice. rewrite nth_firstn.
  destruct (Nat.ltb_spec j (b - a)) as [_|Hge]; [|lia].
  apply nth_skipn.
Qed.

Lemma stack_rows {A : Type} (rows : list (list A)) (c : nat) :
  rows <> [] -> Forall (fun r => length r = c) rows ->
  training_shakespeare.stack rows = inr rows.
Proof.
  intros Hne Hall. destruct rows as [|r rest]; [contradiction|].
  cbn [training_shakespeare.stack].
  inversion Hall as [|r0 rest0 Hr Hrest]; subst.
  replace (forallb _ rest) with true; [reflexivity|].
  symmetry. apply forallb_forall. intros r' Hin. rewrite Forall_forall in Hrest.
  apply Nat.eqb_eq. now rewrite (Hrest r' Hin).
Qed.

Lemma stack_inr {A : Type} (rows out : list (list A)) :
  training_shakespeare.stack rows = inr out ->
  out = rows /\ rows <> [] /\
  Forall (fun r => length r = length (hd [] rows)) rows.
Proof.
  destruct rows as [|r rest]; cbn [training_shakespeare.stack]; [discriminate|].
  destruct (forallb _ rest) eqn:Hf; [|discriminate].
  intros H. injection H as <-. split; [reflexivity|]. split; [discriminate|].
  cbn [hd]. constructor; [reflexivity|].
  apply Forall_forall. intros r' Hin.
  rewrite forallb_forall in Hf. now apply Nat.eqb_eq, Hf.
Qed.

Lemma stack_ragged {A : Type} (r r' : list A) (rest : list (list A)) :
  In r' rest -> length r' <> length r ->
  exists msg, training_shakespeare.stack (r :: rest) = inl (ValueError msg).
Proof.
  intros Hin Hne. cbn [training_shakespeare.stack].
  destruct (forallb _ rest) eqn:Hf; [|eexists; reflexivity].
  rewrite forallb_forall in Hf. apply Hf, Nat.eqb_eq in Hin. contradiction.
Qed.

Lemma windows_rows (L off n : nat) (data : list nat) :
  (n * L + off <= length data)%nat ->
  let rows := map (fun i => training_shakespeare.py_slice data (i * L + off) (i * L + L + off))
                  (seq 0 n) in
  is_matrix n L rows = true /\
  forall i j, (i < n)%nat -> (j < L)%nat ->
              nth j (nth i rows []) 0%nat = nth (i * L + off + j) data 0%nat.
Proof.
  intros Hlen rows. subst rows. split.
  - apply is_matrix_spec. split; [now rewrite length_map, length_seq|].
    apply Forall_forall. intros r Hr. apply in_map_iff in Hr.
    destruct Hr as (i & <- & Hi). apply in_seq in Hi.
    rewrite py_slice_length. nia.
  - intros i j Hi Hj.
    rewrite nth_map_lt with (da := 0%nat) by (now rewrite length_seq).
    rewrite seq_nth by assumption. cbn [Nat.add].
    apply py_slice_nth. lia.
Qed.

(** X14.  The windows the training scripts cut from the encoded text,
    for a context length [L > 0] and [n = len(data) // L].  [X] is built
    exactly when the text has at least [L] tokens, and is then [n] rows of
    [L] tokens, row [i] holding tokens [i * L .. i * L + L - 1].  [y] is
    the text one token later: when [L] does not divide the length of the
    text it is [n] rows of [L] tokens with [y[i][j]] the token after
    [X[i][j]].  When [L] divides the length, the last window of [y] runs
    one token past the end and is a token short: with two or more windows
    [stack] raises, and with one window [y] has a row of [L - 1] tokens.
    On a text shorter than [L], [stack] raises for both. *)
Theorem training_windows (L : nat) (data : list nat) :
  (0 < L)%nat ->
  let n := (length data / L)%nat in
  ((L <= length data)%nat ->
   exists rows,
     training_shakespeare.X L data = inr rows /\ is_matrix n L rows = true /\
     forall i j, (i < n)%nat -> (j < L)%nat ->
                 nth j (nth i rows []) 0%nat = nth (i * L + j) data 0%nat) /\
  ((L <= length data)%nat -> (length data mod L <> 0)%nat ->
   exists rows,
     training_shakespeare.y L data = inr rows /\ is_matrix n L rows = true /\
     forall i j, (i < n)%nat -> (j < L)%nat ->
                 nth j (nth i rows []) 0%nat = nth (i * L + j + 1) data 0%nat) /\
  ((2 * L <= length data)%nat -> (length data mod L = 0)%nat ->
   exists msg, training_shakespeare.y L data = inl (ValueError msg)) /\
  (length data = L ->
   exists row, training_shakespeare.y L data = inr [row] /\ length row = (L - 1)%nat) /\
  ((length data < L)%nat ->
   (exists msg, training_shakespeare.X L data = inl (ValueError msg)) /\
   (exists msg, training_shakespeare.y L data = inl (ValueError msg))).
Proof.
  intros HL n.
  assert (HnL : (n * L <= length data)%nat).
  { subst n. rewrite Nat.mul_comm. apply Nat.Div0.mul_div_le. }
  pose proof (Nat.div_mod_eq (length data) L) as Hdm. fold n in Hdm.
  pose proof (Nat.mod_upper_bound (length data) L ltac:(lia)) as Hmod.
  assert (Hw : training_shakespeare.n_windows L data = inr n).
  { unfold training_shakespeare.n_windows.
    destruct (Nat.eqb_spec L 0); [lia | reflexivity]. }
  unfold training_shakespeare.X, training_shakespeare.y. rewrite Hw.
  split; [|split; [|split; [|split]]].
  - intros Hlen.
    assert (Hn : (0 < n)%nat) by nia.
    destruct (windows_rows L 0 n data ltac:(lia)) as [Hm Hent].
    eexists. split; [|split].
    + erewrite stack_rows with (c := L).
      * reflexivity.
      * destruct n; [lia | discriminate].
      * apply is_matrix_spec in Hm. destruct Hm as [_ Hm].
        erewrite map_ext; [exact Hm|]. intros i. cbv beta. f_equal; lia.
    + erewrite map_ext; [exact Hm|]. intros i. cbv beta. f_equal; lia.
    + intros i j Hi Hj.
      erewrite map_ext; [rewrite (Hent i j Hi Hj); f_equal; lia|].
      intros i'. cbv beta. f_equal; lia.
  - intros Hlen Hne.
    assert (Hn : (0 < n)%nat) by nia.
    destruct (windows_rows L 1 n data ltac:(nia)) as [Hm Hent].
    eexists. split; [|split].
    + erewrite stack_rows with (c := L).
      * reflexivity.
      * destruct n; [lia | discriminate].
      * apply is_matrix_spec in Hm. destruct Hm as [_ Hm].
        erewrite map_ext; [exact Hm|]. intros i. cbv beta. f_equal; lia.
    + erewrite map_ext; [exact Hm|]. intros i. cbv beta. f_equal; lia.
    + intros i j Hi Hj.
      erewrite map_ext; [rewrite (Hent i j Hi Hj); f_equal; lia|].
      intros i'. cbv beta. f_equal; lia.
  - intros Hlen Hz.
    assert (Hn : (2 <= n)%nat) by nia.
    destruct n as [|[|m]]; try lia.
    rewrite <- cons_seq. cbn [map].
    eapply stack_ragged with
      (r' := training_shakespeare.py_slice data (S m * L + 1) (S m * L + L + 1)).
    + apply in_map_iff. exists (S m). split; [reflexivity|].
      apply in_seq. lia.
    + rewrite !py_slice_length. nia.
  - intros Hlen.
    assert (Hn : n = 1%nat).
    { subst n. rewrite Hlen. apply Nat.div_same. lia. }
    rewrite Hn. cbn [seq map training_shakespeare.stack forallb].
    eexists. split; [reflexivity|]. rewrite py_slice_length. lia.
  - intros Hlen.
    assert (Hn : n = 0%nat).
    { subst n. apply Nat.div_small. exact Hlen. }
    rewrite Hn. cbn [seq map training_shakespeare.stack]. split; eexists; reflexivity.
Qed.

Lemma training_windows_witness :
  (exists rows, training_shakespeare.y 2 [1; 2; 3; 4; 5]%nat = inr rows /\
                is_matrix 2 2 rows = true) /\
  (exists msg, training_shakespeare.y 2 [1; 2; 3; 4]%nat = inl (ValueError msg)).
Proof.
  split.
  - destruct (proj1 (proj2 (training_windows 2 [1; 2; 3; 4; 5]%nat (le_S 1 1 (le_n 1))))
                    ltac:(cbn; lia) ltac:(cbn; lia)) as (rows & Hy & Hm & _).
    exists rows. split; [exact Hy | exact Hm].
  - exact (proj1 (proj2 (proj2 (training_windows 2 [1; 2; 3; 4]%nat (le_S 1 1 (le_n 1)))))
                 ltac:(cbn; lia) ltac:(reflexivity)).
Defined.

(** ** The training scripts: the vocabulary *)

Module vocabulary.

(** Characters are given by their code points. *)
Fixpoint insert (c : nat) (l : list nat) : list nat :=
  match l with
  | [] => [c]
  | x :: rest => if (c <=? x)%nat then c :: l else x :: insert c rest
  end.

(** [sorted(l)]. *)
Definition sorted (l : list nat) : list nat := fold_right insert [] l.

(** [chars = sorted(list(set(data)))]: the distinct characters of the
    text, in ascending order whatever order the set yields them in. *)
Definition chars (data : list nat) : list nat := sorted (nodup Nat.eq_dec data).

(** A dictionary built by inserting the pairs of a list one after the
    other: a later pair with the same key replaces an earlier one. *)
Fixpoint get (d : list (nat * nat)) (k : nat) : option nat :=
  match d with
  | [] => None
  | (k', v) :: rest =>
      match get rest k with
      | Some v' => Some v'
      | None => if (k' =? k)%nat then Some v else None
      end
  end.

(** [enumerate(l)]. *)
Definition enumerate (l : list nat) : list (nat * nat) := combine (seq 0 (length l)) l.

(** [tokenizer.vocab = {i: c for i, c in enumerate(chars)}]. *)
Definition vocab (data : list nat) : list (nat * nat) := enumerate (chars data).

(** [tokenizer.ivocab = {c: i for i, c in enumerate(chars)}]. *)
Definition ivocab (data : list nat) : list (nat * nat) :=
  map (fun ic => (snd ic, fst ic)) (enumerate (chars data)).

End vocabulary.

Lemma insert_perm (c : nat) (l : list nat) : Permutation (vocabulary.insert c l) (c :: l).
Proof.
  induction l as [|x l IH]; cbn [vocabulary.insert]; [reflexivity|].
  destruct (c <=? x)%nat; [reflexivity|].
  rewrite IH. apply perm_swap.
Qed.

Lemma sorted_perm (l : list nat) : Permutation (vocabulary.sorted l) l.
Proof.
  induction l as [|x l IH]; cbn; [reflexivity|].
  rewrite insert_perm. now constructor.
Qed.

Lemma insert_sorted (c : nat) (l : list nat) :
  StronglySorted le l -> StronglySorted le (vocabulary.insert c l).
Proof.
  induction l as [|x l IH]; intros Hs; cbn [vocabulary.insert].
  - constructor; constructor.
  - inversion Hs as [|x0 l0 Hl Hx]; subst.
    destruct (Nat.leb_spec c x) as [Hle|Hgt].
    + constructor; [exact Hs|]. constructor; [exact Hle|].
      eapply Forall_impl; [|exact Hx]. intros a Ha. cbv beta in *. lia.
    + constructor; [now apply IH|].
      assert (Hp := insert_perm c l).
      apply Forall_forall. intros a Ha.
      apply (Permutation_in _ Hp) in Ha. destruct Ha as [<- | Ha]; [lia|].
      rewrite Forall_forall in Hx. now apply Hx.
Qed.

Lemma sorted_sorted (l : list nat) : StronglySorted le (vocabulary.sorted l).
Proof.
  induction l as [|x l IH]; cbn; [constructor | now apply insert_sorted].
Qed.

Lemma sorted_strict (l : list nat) :
  StronglySorted le l -> NoDup l -> StronglySorted lt l.
Proof.
  induction l as [|x l IH]; intros Hs Hn; [constructor|].
  inversion Hs as [|x0 l0 Hl Hx]; subst. inversion Hn as [|x1 l1 Hni Hn']; subst.
  constructor; [now apply IH|].
  apply Forall_forall. intros a Ha. rewrite Forall_forall in Hx.
  specialize (Hx a Ha). assert (a <> x) by (intros ->; contradiction). lia.
Qed.

Lemma strict_nth (l : list nat) :
  StronglySorted lt l ->
  forall i j, (i < j)%nat -> (j < length l)%nat -> (nth i l 0 < nth j l 0)%nat.
Proof.
  induction l as [|x l IH]; intros Hs i j Hij Hj; [cbn in Hj; lia|].
  inversion Hs as [|x0 l0 Hl Hx]; subst. cbn [length] in Hj.
  destruct j as [|j]; [lia|]. destruct i as [|i]; cbn [nth].
  - rewrite Forall_forall in Hx. apply Hx. apply nth_In. lia.
  - apply IH; [assumption | lia | lia].
Qed.

Lemma chars_spec (data : list nat) :
  NoDup (vocabulary.chars data) /\
  (forall c, In c (vocabulary.chars data) <-> In c data) /\
  StronglySorted lt (vocabulary.chars data).
Proof.
  unfold vocabulary.chars.
  pose proof (sorted_perm (nodup Nat.eq_dec data)) as Hp.
  assert (Hn : NoDup (vocabulary.sorted (nodup Nat.eq_dec data))).
  { eapply Permutation_NoDup; [symmetry; exact Hp | apply NoDup_nodup]. }
  split; [exact Hn|]. split.
  - intros c. split; intros H.
    + apply (nodup_In Nat.eq_dec). eapply Permutation_in; [exact Hp | exact H].
    + eapply Permutation_in; [symmetry; exact Hp|]. apply (nodup_In Nat.eq_dec). exact H.
  - apply sorted_strict; [apply sorted_sorted | exact Hn].
Qed.

Lemma get_unique_keys (d : list (nat * nat)) :
  NoDup (map fst d) ->
  forall k v, vocabulary.get d k = Some v <-> In (k, v) d.
Proof.
  induction d as [|[k' v'] d IH]; intros Hn k v; cbn [vocabulary.get In].
  - split; [discriminate | contradiction].
  - cbn [map fst] in Hn. inversion Hn as [|x l Hni Hn']; subst.
    specialize (IH Hn' k).
    destruct (vocabulary.get d k) as [v0|] eqn:Hg.
    + assert (Hin : In (k, v0) d) by (now apply IH).
      assert (Hk : k' <> k).
      { intros ->. apply Hni. apply in_map_iff. exists (k, v0). now split. }
      split.
      * intros H. right. apply IH. exact H.
      * intros [H | H]; [injection H as -> _; contradiction | now apply IH].
    + destruct (Nat.eqb_spec k' k) as [->|Hk].
      * split.
        -- intros H. injection H as ->. now left.
        -- intros [H | H]; [now injection H as -> | apply IH in H; discriminate].
      * split; [discriminate|].
        intros [H | H]; [injection H as -> _; contradiction | apply IH in H; discriminate].
Qed.

Lemma enumerate_from_spec (l : list nat) :
  forall s i c, In (i, c) (combine (seq s (length l)) l) <->
                (s <= i)%nat /\ nth_error l (i - s) = Some c.
Proof.
  induction l as [|x l IH]; intros s i c; cbn [length seq combine In].
  - split; [contradiction|]. intros [_ H]. destruct (i - s)%nat; discriminate.
  - rewrite IH. split.
    + intros [H | [Hle Hn]].
      * injection H as <- <-. split; [lia|]. now rewrite Nat.sub_diag.
      * split; [lia|]. replace (i - s)%nat with (S (i - S s)) by lia. exact Hn.
    + intros [Hle Hn]. destruct (Nat.eq_dec i s) as [->|Hne].
      * left. rewrite Nat.sub_diag in Hn. cbn in Hn. now injection Hn as ->.
      * right. split; [lia|].
        replace (i - s)%nat with (S (i - S s)) in Hn by lia. exact Hn.
Qed.

Lemma enumerate_spec (l : list nat) (i c : nat) :
  In (i, c) (vocabulary.enumerate l) <-> nth_error l i = Some c.
Proof.
  unfold vocabulary.enumerate. rewrite enumerate_from_spec, Nat.sub_0_r.
  split; [now intros [_ H] | intros H; split; [lia | exact H]].
Qed.

Lemma enumerate_fst (l : list nat) : map fst (vocabulary.enumerate l) = seq 0 (length l).
Proof.
  unfold vocabulary.enumerate.
  generalize 0%nat. induction l as [|x l IH]; intros s; cbn; [reflexivity|].
  now rewrite IH.
Qed.

Lemma enumerate_snd (l : list nat) : map snd (vocabulary.enumerate l) = l.
Proof.
  unfold vocabulary.enumerate.
  generalize 0%nat. induction l as [|x l IH]; intros s; cbn; [reflexivity|].
  now rewrite IH.
Qed.

Lemma vocab_get (data : list nat) (i c : nat) :
  vocabulary.get (vocabulary.vocab data) i = Some c <->
  nth_error (vocabulary.chars data) i = Some c.
Proof.
  unfold vocabulary.vocab. rewrite get_unique_keys.
  - apply enumerate_spec.
  - rewrite enumerate_fst. apply seq_NoDup.
Qed.

Lemma ivocab_get (data : list nat) (i c : nat) :
  vocabulary.get (vocabulary.ivocab data) c = Some i <->
  nth_error (vocabulary.chars data) i = Some c.
Proof.
  unfold vocabulary.ivocab. rewrite get_unique_keys.
  - rewrite <- enumerate_spec, in_map_iff. split.
    + intros ([i' c'] & H & Hin). cbn in H. now injection H as -> ->.
    + intros Hin. exists (i, c). split; [reflexivity | exact Hin].
  - rewrite map_map. cbn [fst].
    erewrite map_ext; [rewrite enumerate_snd; apply chars_spec|].
    intros [a b]. reflexivity.
Qed.

(** X15.  The vocabulary the training scripts build from the text.
    [vocab] and [ivocab] are inverse to each other: [vocab[i]] is [c]
    exactly when [ivocab[c]] is [i].  The characters with an index are
    exactly the characters of the text, the indices are [0 .. n - 1] for
    [n] distinct characters, and a character with a smaller code point
    has a smaller index. *)
Theorem vocabulary_inverse (data : list nat) :
  (forall i c,
      vocabulary.get (vocabulary.vocab data) i = Some c <->
      vocabulary.get (vocabulary.ivocab data) c = Some i) /\
  (forall c, In c data <-> exists i, vocabulary.get (vocabulary.ivocab data) c = Some i) /\
  (forall i, (i < length (nodup Nat.eq_dec data))%nat <->
             exists c, vocabulary.get (vocabulary.vocab data) i = Some c) /\
  (forall i j ci cj,
      vocabulary.get (vocabulary.vocab data) i = Some ci ->
      vocabulary.get (vocabulary.vocab data) j = Some cj ->
      (i < j)%nat -> (ci < cj)%nat).
Proof.
  destruct (chars_spec data) as (Hnd & Hin & Hs).
  split; [|split; [|split]].
  - intros i c. now rewrite vocab_get, ivocab_get.
  - intros c. rewrite <- Hin. split.
    + intros H. apply In_nth_error in H. destruct H as [i Hi].
      exists i. now apply ivocab_get.
    + intros [i Hi]. apply ivocab_get in Hi. eapply nth_error_In; eassumption.
  - intros i.
    assert (Hl : length (vocabulary.chars data) = length (nodup Nat.eq_dec data)).
    { unfold vocabulary.chars. apply Permutation_length, sorted_perm. }
    rewrite <- Hl. split.
    + intros Hi. destruct (nth_error (vocabulary.chars data) i) as [c|] eqn:Hc.
      * exists c. now apply vocab_get.
      * apply nth_error_None in Hc. lia.
    + intros [c Hc]. apply vocab_get in Hc. apply nth_error_Some. congruence.
  - intros i j ci cj Hi Hj Hij. apply vocab_get in Hi, Hj.
    assert (Hjl : (j < length (vocabulary.chars data))%nat)
      by (apply nth_error_Some; congruence).
    pose proof (strict_nth _ Hs i j Hij Hjl) as Hlt.
    rewrite (nth_error_nth _ _ 0%nat Hi), (nth_error_nth _ _ 0%nat Hj) in Hlt.
    exact Hlt.
Qed.

(** ** The positions the top-level models look up *)

(** What is taken of the embedding kernel here: looking up a batch of
    rows of indices gives, row by row and index by index, one vector, so
    that the result has the two axes of the indices before its own. *)
Definition embedding_keeps_shape (K : Kernels) : Prop :=
  forall w rows, exists t,
    FEmbedding_forward w (I2 rows) = T3 t /\ map (@length _) t = map (@length _) rows.

Lemma madd_broadcast_raises (m pm : matrix) :
  length m <> length pm -> length m <> 1%nat -> length pm <> 1%nat ->
  madd_broadcast m pm = None.
Proof.
  intros Hne Hm Hp. unfold madd_broadcast, broadcast.
  destruct (Nat.eqb_spec (length m) (length pm)) as [He|_]; [contradiction|].
  destruct m as [|a [|a' m]]; destruct pm as [|b [|b' pm]];
    cbn [length] in *; try reflexivity; contradiction.
Qed.

Lemma add_broadcast_raises (m pm : matrix) (ts : tensor3) :
  length m <> length pm -> length m <> 1%nat -> length pm <> 1%nat ->
  add_broadcast (m :: ts) [pm] = None.
Proof.
  intros Hne Hm Hp. unfold add_broadcast, broadcast.
  destruct ts as [|t ts]; cbn [length Nat.eqb zip_with map sequence];
    now rewrite (madd_broadcast_raises m pm Hne Hm Hp).
Qed.

(** X16.  The indices the forward pass of the top-level model hands to
    its two embeddings, for a batch of sequences of [S] tokens.  The token
    embedding is given the batch itself.  In [transformer_s.py] the
    positional embedding is given one row, the slice [self.pos[:, :S]]
    of the stored positions, which holds the positions
    [0 .. min(S, max_seq_len) - 1]; in [transformer.py] it is given the
    positions [0 .. S - 1] as a vector.  The slice of [transformer_s.py]
    does not make a longer sequence pass: with an embedding kernel that
    keeps the shape of its indices, on a batch that is not empty of
    sequences longer than a [max_seq_len] of two or more, the sum of
    the [S] token rows and the [max_seq_len] positional rows does not
    broadcast and the forward pass raises.  A forward pass on a longer
    sequence can return only where the positional rows broadcast, as the
    one row of a model with [max_seq_len = 1] does. *)
Theorem Transformer_forward_positions
        {Blk LN : Type} {K : Kernels} {LB : Layer Blk} {LL : Layer LN} :
  (forall (self self' : transformer_s.Transformer Blk LN) x h y (max_seq_len : nat),
      transformer_s.pos self = [seq 0 max_seq_len] ->
      transformer_s.Transformer_forward self x h = Some (self', y) ->
      hd_error (emb_cache (transformer_s.token_emb self')) = Some (I2 x) /\
      hd_error (emb_cache (transformer_s.pos_emb self')) =
      Some (I2 [seq 0 (Nat.min (transformer_s.last_dim x) max_seq_len)])) /\
  (forall (self : transformer_s.Transformer Blk LN) x h (max_seq_len : nat),
      embedding_keeps_shape K ->
      transformer_s.pos self = [seq 0 max_seq_len] ->
      x <> [] ->
      (2 <= max_seq_len < transformer_s.last_dim x)%nat ->
      transformer_s.Transformer_forward self x h = None) /\
  (forall (self self' : transformer.Transformer Blk LN) x h y,
      transformer.Transformer_forward self x h = Some (self', y) ->
      hd_error (emb_cache (transformer.token_emb self')) = Some (I2 x) /\
      hd_error (emb_cache (transformer.pos_emb self')) =
      Some (I1 (seq 0 (transformer_s.last_dim x)))).
Proof.
  split; [|split].
  - intros self self' x h y L Hpos Hf.
    unfold transformer_s.Transformer_forward, Embedding_forward in Hf.
    rewrite Hpos in Hf. cbn [map] in Hf. rewrite firstn_seq in Hf.
    destruct (nth_error h (emb_w (transformer_s.token_emb self))) as [pt|]; [|discriminate].
    destruct (nth_error h (emb_w (transformer_s.pos_emb self))) as [pp|]; [|discriminate].
    destruct (add_embeddings _ _) as [e|]; [|discriminate].
    destruct (transformer_s.forward_blocks _ _) as [[bs xb]|]; [|discriminate].
    destruct (forward (transformer_s.ln self) xb) as [[ln' xn]|]; [|discriminate].
    destruct (Linear_forward _ _ _) as [[lm yy]|]; [|discriminate].
    injection Hf as <- _. cbn. split; reflexivity.
  - intros self x h L Hk Hpos Hx [HL HS].
    unfold transformer_s.Transformer_forward, Embedding_forward.
    rewrite Hpos. cbn [map]. rewrite firstn_seq.
    destruct (nth_error h (emb_w (transformer_s.token_emb self))) as [pt|]; [|reflexivity].
    destruct (nth_error h (emb_w (transformer_s.pos_emb self))) as [pp|]; [|reflexivity].
    destruct (Hk (data pt) x) as (t & -> & Ht).
    destruct (Hk (data pp) [seq 0 (Nat.min (transformer_s.last_dim x) L)]) as (tp & -> & Hp).
    destruct x as [|r xs]; [contradiction|]. cbn [transformer_s.last_dim] in *.
    destruct t as [|m ts]; [discriminate|]. cbn [map] in Ht. injection Ht as Hm _.
    destruct tp as [|pm [|pm' tp]]; try discriminate. cbn [map] in Hp. injection Hp as Hp.
    rewrite length_seq in Hp.
    cbn [add_embeddings].
    rewrite add_broadcast_raises by lia. reflexivity.
  - intros self self' x h y Hf.
    unfold transformer.Transformer_forward, Embedding_forward in Hf.
    destruct (nth_error h (emb_w (transformer.token_emb self))) as [pt|]; [|discriminate].
    destruct (nth_error h (emb_w (transformer.pos_emb self))) as [pp|]; [|discriminate].
    destruct (add_embeddings _ _) as [e|]; [|discriminate].
    destruct (transformer_s.forward_blocks _ _) as [[bs xb]|]; [|discriminate].
    destruct (forward (transformer.ln self) xb) as [[ln' xn]|]; [|discriminate].
    destruct (Linear_forward _ _ _) as [[lm yy]|]; [|discriminate].
    injection Hf as <- _. cbn. split; reflexivity.
Qed.


Lemma lookup_kernels_keep_shape : embedding_keeps_shape lookup_kernels.
Proof.
  intros w rows. eexists. split; [reflexivity|].
  rewrite map_map. apply map_ext. intros r. apply length_map.
Qed.

(** A model of [transformer_s.py] with a single position, on the store of
    the model with four. *)
Definition one_position_model : transformer_s.Transformer unit unit :=
  transformer_s.mkTransformer (mkEmbedding 0%nat []) (mkEmbedding 1%nat []) [] tt
    (mkLinear 0%nat (Some 3%nat) []) [[0%nat]].

Lemma one_position_model_forward_run :
  exists r,
    @transformer_s.Transformer_forward unit unit lookup_kernels Identity_Layer Identity_Layer
      one_position_model [[0; 0]%nat] tied_heap = Some r.
Proof. run. eexists; reflexivity. Qed.

(** X16 on two runs.  The model with four positions raises on a sequence
    of five tokens.  The model with one position returns on a sequence of
    two tokens, its one positional row added to both, and the positional
    embedding was given the position [0] only. *)
Lemma Transformer_forward_positions_witness :
  @transformer_s.Transformer_forward unit unit lookup_kernels Identity_Layer Identity_Layer
    tied_model [[0; 0; 0; 0; 0]%nat] tied_heap = None /\
  exists self' y,
    @transformer_s.Transformer_forward unit unit lookup_kernels Identity_Layer Identity_Layer
      one_position_model [[0; 0]%nat] tied_heap = Some (self', y) /\
    hd_error (emb_cache (transformer_s.pos_emb self')) = Some (I2 [[0%nat]]).
Proof.
  split.
  - apply (proj1 (proj2 (@Transformer_forward_positions unit unit lookup_kernels
                           Identity_Layer Identity_Layer))
                 tied_model [[0; 0; 0; 0; 0]%nat] tied_heap 4%nat
                 lookup_kernels_keep_shape eq_refl).
    + discriminate.
    + cbn. lia.
  - destruct one_position_model_forward_run as [[self' y] H]. exists self', y.
    split; [exact H|].
    exact (proj2 (proj1 (@Transformer_forward_positions unit unit lookup_kernels
                           Identity_Layer Identity_Layer)
                        one_position_model self' [[0; 0]%nat] tied_heap y 1%nat
                        eq_refl H)).
Defined.

(** ** The two attention functions agree *)

(** X17.  On inputs with a positive head size the attention function of
    [transformer.py] and that of [transformer_s.py] compute the same
    thing: the outputs are equal, whatever the cache holds and whether or
    not weights or a gradient function are asked for, and the gradient
    function the former returns gives the gradients the backward of the
    latter gives on the cache of its forward call.  The one scales the
    scores by [head_size ** -0.5] and the other divides them by
    [sqrt(head_size)]. *)
Theorem attention_variants_agree (q k v : tensor3) :
  (0 < width q)%nat ->
  (forall cache mask p ret rgf dmap,
      fst (snd (transformer_s.FSDPAttention_forward cache q k v mask p ret dmap)) =
      fst (transformer.scaled_dot_product_attention q k v mask p rgf dmap)) /\
  (forall cache mask p ret dmap,
      exists grad_fn,
        snd (transformer.scaled_dot_product_attention q k v mask p true dmap) =
        Some grad_fn /\
        forall dy,
          transformer_s.FSDPAttention_backward
            (fst (transformer_s.FSDPAttention_forward cache q k v mask p ret dmap)) dy =
          Some (cache, grad_fn dy)).
Proof.
  intros Hw.
  assert (Hc : Rpower (INR (width q)) (- / 2) = / sqrt (INR (width q))).
  { apply Rpower_neg_half. apply lt_0_INR. exact Hw. }
  split.
  - intros cache mask p ret rgf dmap.
    unfold transformer_s.FSDPAttention_forward, transformer.scaled_dot_product_attention,
      FSoftmax_forward, FDropout_forward, softmax_fn, dropout_fn.
    rewrite Hc, mul_scalar_inv.
    destruct mask, (Rltb 0 p), rgf; reflexivity.
  - intros cache mask p ret dmap.
    unfold transformer.scaled_dot_product_attention, softmax_fn, dropout_fn.
    destruct (Rltb 0 p) eqn:Hp; eexists; (split; [reflexivity|]); intros dy;
      rewrite FSDPAttention_backward_forward, Hp;
      unfold spec_attention_grads, spec_weights, spec_probs, call;
      rewrite Hc, !mul_scalar_inv; destruct mask; reflexivity.
Qed.

Lemma attention_variants_agree_witness :
  fst (snd (transformer_s.FSDPAttention_forward
              empty_cache [[[1]; [2]]] [[[3]; [4]]] [[[5]; [6]]]
              (Some (transformer_s.get_causal_mask (2, 2)%nat)) 0 false [])) =
  fst (transformer.scaled_dot_product_attention
         [[[1]; [2]]] [[[3]; [4]]] [[[5]; [6]]]
         (Some (transformer_s.get_causal_mask (2, 2)%nat)) 0 false []).
Proof.
  exact (proj1 (attention_variants_agree [[[1]; [2]]] [[[3]; [4]]] [[[5]; [6]]] (le_n 1))
               empty_cache (Some (transformer_s.get_causal_mask (2, 2)%nat)) 0 false false []).
Defined.

(** ** Shapes through the attention functions *)

(** A rank-3 array of [b] matrices of [s] rows of [h] entries. *)
Definition shaped {A : Type} (b s h : nat) (x : list (list (list A))) : Prop :=
  length x = b /\ Forall (fun m => length m = s /\ Forall (fun r => length r = h) m) x.

Lemma has_shape_shaped (b s h : nat) (x : tensor3) :
  has_shape b s h x = true <-> shaped b s h x.
Proof.
  unfold has_shape, shaped. rewrite andb_true_iff, Nat.eqb_eq, forallb_forall, Forall_forall.
  split; intros [Hl H]; (split; [exact Hl|]); intros m Hm; apply is_matrix_spec; now apply H.
Qed.

Lemma shaped_map3 {A B : Type} (f : A -> B) (b s h : nat) (x : list (list (list A))) :
  shaped b s h x -> shaped b s h (map3 f x).
Proof.
  unfold shaped, map3. intros [Hl H]. split; [now rewrite length_map|].
  apply Forall_forall. intros m Hm. apply in_map_iff in Hm. destruct Hm as (m0 & <- & Hm0).
  rewrite Forall_forall in H. destruct (H m0 Hm0) as [Hs Hr].
  split; [now rewrite length_map|].
  apply Forall_forall. intros r Hr'. apply in_map_iff in Hr'. destruct Hr' as (r0 & <- & Hr0).
  rewrite Forall_forall in Hr. rewrite length_map. now apply Hr.
Qed.

Lemma shaped_zip3 {A B C : Type} (f : A -> B -> C) (b s h : nat)
      (x : list (list (list A))) (y : list (list (list B))) :
  shaped b s h x -> shaped b s h y ->
  shaped b s h (zip_with (zip_with (zip_with f)) x y).
Proof.
  unfold shaped. intros [Hlx Hx] [Hly Hy]. split.
  - rewrite zip_with_length. lia.
  - rewrite Forall_forall in Hx, Hy. apply Forall_zip_with. intros mx my Hmx Hmy.
    destruct (Hx mx Hmx) as [Hsx Hrx]. destruct (Hy my Hmy) as [Hsy Hry]. split.
    + rewrite zip_with_length. lia.
    + rewrite Forall_forall in Hrx, Hry. apply Forall_zip_with. intros rx ry Hrx' Hry'.
      rewrite zip_with_length, (Hrx rx Hrx'), (Hry ry Hry'). lia.
Qed.

Lemma softmax_row_length (l : list score) : length (softmax_row l) = length l.
Proof.
  unfold softmax_row. now rewrite !length_map.
Qed.

Lemma shaped_softmax (b s h : nat) (x : stensor3) :
  shaped b s h x -> shaped b s h (softmax x).
Proof.
  unfold shaped, softmax. intros [Hl H]. split; [now rewrite length_map|].
  apply Forall_forall. intros m Hm. apply in_map_iff in Hm. destruct Hm as (m0 & <- & Hm0).
  rewrite Forall_forall in H. destruct (H m0 Hm0) as [Hs Hr].
  split; [now rewrite length_map|].
  apply Forall_forall. intros r Hr'. apply in_map_iff in Hr'. destruct Hr' as (r0 & <- & Hr0).
  rewrite Forall_forall in Hr. rewrite softmax_row_length. now apply Hr.
Qed.

Lemma shaped_add_mask (b s : nat) (x : tensor3) (m : smatrix) :
  shaped b s s x -> is_matrix s s m = true -> shaped b s s (add_mask x m).
Proof.
  unfold shaped, add_mask. intros [Hl H] Hm. apply is_matrix_spec in Hm.
  destruct Hm as [Hml Hmr]. split; [now rewrite length_map|].
  apply Forall_forall. intros xb Hxb. apply in_map_iff in Hxb.
  destruct Hxb as (x0 & <- & Hx0). rewrite Forall_forall in H.
  destruct (H x0 Hx0) as [Hs Hr]. split.
  - rewrite zip_with_length. lia.
  - rewrite Forall_forall in Hr, Hmr. apply Forall_zip_with. intros r mr Hr' Hmr'.
    rewrite zip_with_length, (Hr r Hr'), (Hmr mr Hmr'). lia.
Qed.

Lemma slice2_is_matrix {A : Type} (r c s : nat) (m : list (list A)) :
  is_matrix r c m = true -> (s <= r)%nat -> (s <= c)%nat ->
  is_matrix s s (slice2 s s m) = true.
Proof.
  intros Hm Hr Hc. apply is_matrix_spec in Hm. destruct Hm as [Hl Hrows].
  apply is_matrix_spec. unfold slice2. split.
  - rewrite length_map, length_firstn. lia.
  - apply Forall_forall. intros row Hrow. apply in_map_iff in Hrow.
    destruct Hrow as (r0 & <- & Hr0). rewrite length_firstn.
    rewrite Forall_forall in Hrows.
    assert (Hin : In r0 m).
    { rewrite <- (firstn_skipn s m). apply in_or_app. now left. }
    rewrite (Hrows r0 Hin). lia.
Qed.

Lemma shaped_bmm (b s n h : nat) (w v : tensor3) :
  shaped b s n w -> shaped b n h v -> (0 < n)%nat -> shaped b s h (bmm w v).
Proof.
  unfold shaped, bmm. intros [Hlw Hw] [Hlv Hv] Hn. split.
  - rewrite zip_with_length. lia.
  - rewrite Forall_forall in Hw, Hv. apply Forall_zip_with. intros w0 v0 Hw0 Hv0.
    destruct (Hw w0 Hw0) as [Hs _]. destruct (Hv v0 Hv0) as [Hvn Hvr].
    unfold matmul. split; [now rewrite length_map|].
    apply Forall_forall. intros r Hr. apply in_map_iff in Hr. destruct Hr as (r0 & <- & _).
    rewrite length_map, length_seq.
    destruct v0 as [|v00 v0']; [cbn in Hvn; lia|]. cbn [ncols].
    now inversion Hvr.
Qed.

Lemma shaped_T (b s h : nat) (x : tensor3) :
  shaped b s h x -> (0 < s)%nat -> shaped b h s (T x).
Proof.
  unfold shaped, T. intros [Hl H] Hs. split; [now rewrite length_map|].
  apply Forall_forall. intros m Hm. apply in_map_iff in Hm. destruct Hm as (m0 & <- & Hm0).
  rewrite Forall_forall in H. destruct (H m0 Hm0) as [Hms Hmr].
  unfold transpose. rewrite length_map, length_seq.
  destruct m0 as [|r0 m0']; [cbn in Hms; lia|]. cbn [ncols]. split.
  - now inversion Hmr.
  - apply Forall_forall. intros c Hc. apply in_map_iff in Hc. destruct Hc as (j & <- & _).
    unfold col. now rewrite length_map.
Qed.

Lemma shaped_dims (b s h : nat) (q : tensor3) :
  shaped b s h q -> (0 < b)%nat -> (0 < s)%nat -> seq_len q = s /\ width q = h.
Proof.
  intros Hq. apply has_shape_shaped in Hq. now apply has_shape_dims.
Qed.

(** The mask, when there is one, covers the sequence. *)
Definition mask_covers (s : nat) (mask : option smatrix) : Prop :=
  match mask with
  | None => True
  | Some m => exists r c, is_matrix r c m = true /\ (s <= r)%nat /\ (s <= c)%nat
  end.

Lemma shaped_masked (b s h : nat) (q : tensor3) (x : tensor3) (mask : option smatrix) :
  shaped b s h q -> (0 < b)%nat -> (0 < s)%nat ->
  shaped b s s x -> mask_covers s mask ->
  shaped b s s (match mask with
                | Some m => add_mask x (slice2 (seq_len q) (seq_len q) m)
                | None => finite x
                end).
Proof.
  intros Hq Hb Hs Hx Hm. destruct (shaped_dims b s h q Hq Hb Hs) as [-> _].
  destruct mask as [m|].
  - destruct Hm as (r & c & Hm & Hr & Hc).
    apply shaped_add_mask; [exact Hx|]. now apply slice2_is_matrix with (r := r) (c := c).
  - now apply shaped_map3.
Qed.

Lemma softmax_row_backward_length (y dy : vector) :
  length (softmax_row_backward y dy) = Nat.min (length y) (length dy).
Proof.
  unfold softmax_row_backward. apply zip_with_length.
Qed.

Lemma shaped_softmax_backward (b s h : nat) (y dy : tensor3) :
  shaped b s h y -> shaped b s h dy -> shaped b s h (softmax_backward y dy).
Proof.
  unfold shaped, softmax_backward. intros [Hly Hy] [Hld Hd]. split.
  - rewrite zip_with_length. lia.
  - rewrite Forall_forall in Hy, Hd. apply Forall_zip_with. intros my md Hmy Hmd.
    destruct (Hy my Hmy) as [Hsy Hry]. destruct (Hd md Hmd) as [Hsd Hrd]. split.
    + rewrite zip_with_length. lia.
    + rewrite Forall_forall in Hry, Hrd. apply Forall_zip_with. intros ry rd Hry' Hrd'.
      rewrite softmax_row_backward_length, (Hry ry Hry'), (Hrd rd Hrd'). lia.
Qed.

Lemma shaped_spec_probs (b s h : nat) (q k : tensor3) (mask : option smatrix) :
  shaped b s h q -> shaped b s h k -> (0 < b)%nat -> (0 < s)%nat -> (0 < h)%nat ->
  mask_covers s mask -> shaped b s s (spec_probs q k mask).
Proof.
  intros Hq Hk Hb Hs Hh Hm. unfold spec_probs.
  apply shaped_softmax. apply (shaped_masked b s h q); try assumption.
  apply shaped_map3. apply shaped_bmm with (n := h); [exact Hq | | exact Hh].
  now apply shaped_T.
Qed.

Lemma shaped_spec_weights (b s h : nat) (q k : tensor3) (mask : option smatrix)
      (drop : option tensor3) :
  shaped b s h q -> shaped b s h k -> (0 < b)%nat -> (0 < s)%nat -> (0 < h)%nat ->
  mask_covers s mask ->
  (forall d, drop = Some d -> shaped b s s d) ->
  shaped b s s (spec_weights q k mask drop).
Proof.
  intros Hq Hk Hb Hs Hh Hm Hd. unfold spec_weights.
  pose proof (shaped_spec_probs b s h q k mask Hq Hk Hb Hs Hh Hm) as Hp.
  destruct drop as [d|]; [|exact Hp].
  apply shaped_zip3; [exact Hp | now apply Hd].
Qed.

(** X18.  Shapes through the attention function of [transformer_s.py].
    For [q], [k] and [v] of shape [(b, s, h)], all three positive, a mask
    that covers the sequence and, when dropout is active, a dropout map
    of shape [(b, s, s)]: the output has shape [(b, s, h)], the weights
    returned have shape [(b, s, s)], and the backward call on the cache
    of the forward call returns, for an output gradient of shape
    [(b, s, h)], three gradients of the shape of [q], [k] and [v]. *)
Theorem attention_shapes (b s h : nat) (q k v : tensor3) :
  has_shape b s h q = true -> has_shape b s h k = true -> has_shape b s h v = true ->
  (0 < b)%nat -> (0 < s)%nat -> (0 < h)%nat ->
  forall cache mask p ret dmap,
    mask_covers s mask ->
    (0 < p -> has_shape b s s dmap = true) ->
    has_shape b s h
      (fst (snd (transformer_s.FSDPAttention_forward cache q k v mask p ret dmap))) = true /\
    (forall w,
        snd (snd (transformer_s.FSDPAttention_forward cache q k v mask p ret dmap)) = Some w ->
        has_shape b s s w = true) /\
    (forall dy,
        has_shape b s h dy = true ->
        exists dq dk dv,
          transformer_s.FSDPAttention_backward
            (fst (transformer_s.FSDPAttention_forward cache q k v mask p ret dmap)) dy =
          Some (cache, (dq, dk, dv)) /\
          has_shape b s h dq = true /\ has_shape b s h dk = true /\
          has_shape b s h dv = true).
Proof.
  intros Hq Hk Hv Hb Hs Hh cache mask p ret dmap Hm Hd.
  apply has_shape_shaped in Hq, Hk, Hv.
  set (drop := if Rltb 0 p then Some dmap else None).
  assert (Hdrop : forall d, drop = Some d -> shaped b s s d).
  { intros d Hd'. subst drop. destruct (Rltb 0 p) eqn:Hp; [|discriminate].
    injection Hd' as <-. apply has_shape_shaped, Hd. now apply Rltb_true_iff. }
  pose proof (shaped_spec_weights b s h q k mask drop Hq Hk Hb Hs Hh Hm Hdrop) as Hw.
  pose proof (shaped_spec_probs b s h q k mask Hq Hk Hb Hs Hh Hm) as Hp.
  assert (Hfw : fst (snd (transformer_s.FSDPAttention_forward cache q k v mask p ret dmap)) =
                bmm (spec_weights q k mask drop) v /\
                forall w,
                  snd (snd (transformer_s.FSDPAttention_forward
                              cache q k v mask p ret dmap)) = Some w ->
                  w = spec_weights q k mask drop).
  { subst drop.
    unfold transformer_s.FSDPAttention_forward, FSoftmax_forward, FDropout_forward,
      spec_weights, spec_probs.
    destruct (Rltb 0 p), ret; cbn; (split; [reflexivity|]); intros w Hw';
      try discriminate; now injection Hw' as <-. }
  destruct Hfw as [Hy Hret]. split; [|split].
  - rewrite Hy. apply has_shape_shaped. now apply shaped_bmm with (n := s).
  - intros w Hw'. rewrite (Hret w Hw'). now apply has_shape_shaped.
  - intros dy Hdy. apply has_shape_shaped in Hdy.
    rewrite FSDPAttention_backward_forward. fold drop.
    unfold spec_attention_grads. do 3 eexists. split; [reflexivity|].
    assert (Hda : shaped b s s
                    (match drop with
                     | Some d => mul (bmm dy (T v)) d
                     | None => bmm dy (T v)
                     end)).
    { assert (H0 : shaped b s s (bmm dy (T v))).
      { apply shaped_bmm with (n := h); [exact Hdy | now apply shaped_T | exact Hh]. }
      destruct drop as [d|]; [|exact H0].
      apply shaped_zip3; [exact H0 | now apply Hdrop]. }
    assert (Hds : shaped b s s
                    (div_scalar
                       (softmax_backward (spec_probs q k mask)
                          (match drop with
                           | Some d => mul (bmm dy (T v)) d
                           | None => bmm dy (T v)
                           end)) (sqrt (INR (width q))))).
    { apply shaped_map3. now apply shaped_softmax_backward. }
    split; [|split]; apply has_shape_shaped.
    + now apply shaped_bmm with (n := s).
    + apply shaped_bmm with (n := s); [now apply shaped_T | exact Hq | exact Hs].
    + apply shaped_bmm with (n := s); [now apply shaped_T | exact Hdy | exact Hs].
Qed.

Lemma attention_shapes_witness :
  has_shape 1 2 1
    (fst (snd (transformer_s.FSDPAttention_forward
                 empty_cache [[[1]; [2]]] [[[3]; [4]]] [[[5]; [6]]]
                 (Some (transformer_s.get_causal_mask (3, 3)%nat)) 0 true []))) = true.
Proof.
  refine (proj1 (attention_shapes 1 2 1 [[[1]; [2]]] [[[3]; [4]]] [[[5]; [6]]]
                   eq_refl eq_refl eq_refl (le_n 1) (le_S 1 1 (le_n 1)) (le_n 1)
                   empty_cache (Some (transformer_s.get_causal_mask (3, 3)%nat)) 0 true []
                   _ _)).
  - exists 3%nat, 3%nat. split; [reflexivity | split; lia].
  - intros Hp. lra.
Defined.

(** ** The attention weights under the causal mask *)

Lemma row_max_finite (l : list R) : l <> [] -> exists m, row_max (map Fin l) = Fin m.
Proof.
  induction l as [|a l IH]; intros Hne; [contradiction|].
  destruct l as [|a' l].
  - exists a. reflexivity.
  - destruct IH as [m Hm]; [discriminate|].
    exists (Rmax a m). unfold row_max in *. cbn [map fold_right] in *.
    rewrite Hm. reflexivity.
Qed.

Lemma sum_scale (c : R) (e : vector) :
  compyute.sum (map (fun a => a / c) e) = compyute.sum e / c.
Proof.
  unfold compyute.sum. induction e as [|x e IH]; cbn [map fold_right].
  - unfold Rdiv. now rewrite Rmult_0_l.
  - rewrite IH. unfold Rdiv. ring.
Qed.

Lemma sum_exp_pos (m : R) (l : list R) :
  l <> [] -> 0 < compyute.sum (map (fun a => exp (a - m)) l).
Proof.
  unfold compyute.sum. induction l as [|a l IH]; intros Hne; [contradiction|].
  cbn [map fold_right]. pose proof (exp_pos (a - m)) as Ha.
  destruct l as [|a' l]; [cbn; lra|].
  assert (H : 0 < fold_right Rplus 0 (map (fun a0 => exp (a0 - m)) (a' :: l)))
    by (apply IH; discriminate).
  lra.
Qed.

Lemma softmax_row_finite (l : list R) :
  l <> [] ->
  compyute.sum (softmax_row (map Fin l)) = 1 /\
  Forall (fun a => 0 <= a) (softmax_row (map Fin l)).
Proof.
  intros Hne. destruct (row_max_finite l Hne) as [m Hm].
  assert (He : map (exp_shift (Fin m)) (map Fin l) = map (fun a => exp (a - m)) l)
    by (rewrite map_map; reflexivity).
  unfold softmax_row. rewrite Hm, He.
  pose proof (sum_exp_pos m l Hne) as Hpos.
  set (e := map (fun a => exp (a - m)) l) in *. split.
  - rewrite sum_scale. field. lra.
  - apply Forall_forall. intros a Ha. apply in_map_iff in Ha.
    destruct Ha as (x & <- & Hx). subst e. apply in_map_iff in Hx.
    destruct Hx as (y & <- & _). pose proof (exp_pos (y - m)) as Hy.
    apply Rlt_le. apply Rdiv_lt_0_compat; assumption.
Qed.

(** A row of causal attention weights for position [i]: non-negative,
    zero beyond position [i], of sum one. *)
Definition causal_row (i : nat) (w : vector) : Prop :=
  tail_zero (S i) w /\ Forall (fun a => 0 <= a) w /\ compyute.sum w = 1.

Lemma canon_weight_row_causal (c : R) (s : nat) (kn : matrix) (r : vector) (i : nat) :
  kn <> [] -> causal_row i (canon_weight_row c s kn r i).
Proof.
  intros Hne. split; [apply canon_weight_row_tail; lia|].
  unfold canon_weight_row.
  set (u := map (fun a => a / c) (map (dot r) (firstn (S i) kn))).
  assert (Hu : u <> []).
  { subst u. destruct kn as [|k0 kn]; [contradiction | discriminate]. }
  replace (map (fun x => Fin (x + 0)) u) with (map Fin (map (fun x => x + 0) u))
    by (now rewrite map_map).
  assert (Hu' : map (fun x => x + 0) u <> []) by (destruct u; [contradiction | discriminate]).
  destruct (softmax_row_finite _ Hu') as [Hsum Hnn]. split.
  - apply Forall_app. split; [exact Hnn|].
    apply Forall_forall. intros a Ha. apply repeat_spec in Ha. subst a. lra.
  - rewrite sum_app, sum_repeat_0, Hsum. lra.
Qed.

Lemma causal_weights_rows (c : R) (s h : nat) (q k : matrix) :
  is_matrix s h q = true -> is_matrix s h k = true -> (0 < s)%nat -> (0 < h)%nat ->
  length (causal_weights c s q k) = s /\
  forall i, (i < s)%nat -> causal_row i (nth i (causal_weights c s q k) []).
Proof.
  intros Hq Hk Hs Hh.
  pose proof (proj1 (is_matrix_spec s h q) Hq) as [Hlq _].
  pose proof (proj1 (is_matrix_spec s h k) Hk) as [Hlk _].
  pose proof (causal_weights_prefix c s h s q k Hk Hh (le_n s)) as Hp.
  assert (Hlen : length (causal_weights c s q k) = s).
  { unfold causal_weights. rewrite get_causal_mask_entries.
    rewrite length_map, zip_with_length, !length_map, length_seq.
    unfold matmul. rewrite length_map. lia. }
  rewrite firstn_all2 in Hp by lia.
  rewrite (firstn_all2 k), (firstn_all2 q) in Hp by lia.
  split; [exact Hlen|]. intros i Hi. rewrite Hp.
  rewrite nth_zip_with with (da := []) (db := 0%nat) by (rewrite ?length_seq; lia).
  rewrite seq_nth by assumption. cbn [Nat.add].
  apply canon_weight_row_causal. destruct k; [cbn in Hlk; lia | discriminate].
Qed.

Lemma spec_probs_causal (b s h l1 l2 : nat) (q k : tensor3) :
  has_shape b s h q = true -> (0 < b)%nat -> (0 < s)%nat ->
  (s <= l1)%nat -> (s <= l2)%nat ->
  spec_probs q k (Some (transformer_s.get_causal_mask (l1, l2))) =
  zip_with (causal_weights (sqrt (INR (width q))) s) q k.
Proof.
  intros Hq Hb Hs Hl1 Hl2.
  destruct (has_shape_dims b s h q Hq Hb Hs) as [Hseq _].
  unfold spec_probs. rewrite Hseq, causal_mask_slice by assumption.
  unfold softmax, add_mask, div_scalar, map3, bmm, T, causal_weights.
  rewrite !map_map, map_zip_with.
  replace q with (map (fun m : matrix => m) q) at 1 by apply map_id.
  rewrite zip_with_map. reflexivity.
Qed.

Lemma sum_all_zero (w : vector) : (forall j, nth j w 0 = 0) -> compyute.sum w = 0.
Proof.
  unfold compyute.sum. induction w as [|x w IH]; intros H; [reflexivity|].
  cbn [fold_right]. rewrite IH.
  - pose proof (H 0%nat) as H0. cbn in H0. lra.
  - intros j. exact (H (S j)).
Qed.

Lemma causal_row_0_dot (w c : vector) (c0 : R) :
  causal_row 0 w -> firstn 1 c = [c0] -> dot w c = c0.
Proof.
  intros (Ht & _ & Hs) Hc. rewrite (dot_tail_zero 1 w c Ht), Hc.
  destruct w as [|x0 w'].
  - unfold compyute.sum in Hs. cbn in Hs. lra.
  - assert (Hz : compyute.sum w' = 0).
    { apply sum_all_zero. intros j. apply (Ht (S j)). lia. }
    unfold dot, compyute.sum in *. cbn [zip_with fold_right] in *.
    replace (zip_with Rmult w' []) with (@nil R) by (destruct w'; reflexivity).
    cbn [fold_right]. nra.
Qed.

(** X19.  The attention weights of [FSDPAttention.forward] under the
    causal mask, without dropout, for [q], [k] and [v] of shape
    [(b, s, h)], all three positive, and a causal mask at least as large
    as the sequence.  The weights returned have one matrix per batch
    entry, and in each the row of position [i] is non-negative, is zero
    at every later position and sums to one.  The row of the first
    position gives all its weight to itself: the output at position 0 is
    the value vector at position 0. *)
Theorem causal_attention_weights (b s h l1 l2 : nat) (q k v : tensor3) :
  has_shape b s h q = true -> has_shape b s h k = true -> has_shape b s h v = true ->
  (0 < b)%nat -> (0 < s)%nat -> (0 < h)%nat -> (s <= l1)%nat -> (s <= l2)%nat ->
  forall cache p dmap,
    p <= 0 ->
    exists w,
      snd (snd (transformer_s.FSDPAttention_forward
                  cache q k v (Some (transformer_s.get_causal_mask (l1, l2))) p true dmap)) =
      Some w /\
      length w = b /\
      (forall bi i, (bi < b)%nat -> (i < s)%nat -> causal_row i (nth i (nth bi w []) [])) /\
      (forall bi, (bi < b)%nat ->
                  nth 0 (nth bi (fst (snd (transformer_s.FSDPAttention_forward
                                             cache q k v
                                             (Some (transformer_s.get_causal_mask (l1, l2)))
                                             p true dmap))) []) [] =
                  nth 0 (nth bi v []) []).
Proof.
  intros Hq Hk Hv Hb Hs Hh Hl1 Hl2 cache p dmap Hp.
  apply Rltb_false_iff in Hp.
  pose proof (spec_probs_causal b s h l1 l2 q k Hq Hb Hs Hl1 Hl2) as Hw.
  set (c := sqrt (INR (width q))) in *.
  set (mask := Some (transformer_s.get_causal_mask (l1, l2))) in *.
  assert (Hf : snd (transformer_s.FSDPAttention_forward cache q k v mask p true dmap) =
               (bmm (spec_probs q k mask) v, Some (spec_probs q k mask))).
  { unfold transformer_s.FSDPAttention_forward, FSoftmax_forward, FDropout_forward, spec_probs.
    rewrite Hp. reflexivity. }
  rewrite Hf. cbn [fst snd]. rewrite Hw.
  pose proof (proj1 (has_shape_shaped _ _ _ _) Hq) as [Hlq Hfq].
  pose proof (proj1 (has_shape_shaped _ _ _ _) Hk) as [Hlk Hfk].
  pose proof (proj1 (has_shape_shaped _ _ _ _) Hv) as [Hlv Hfv].
  assert (Hrows : forall bi, (bi < b)%nat ->
             length (nth bi (zip_with (causal_weights c s) q k) []) = s /\
             forall i, (i < s)%nat ->
                       causal_row i (nth i (nth bi (zip_with (causal_weights c s) q k) []) [])).
  { intros bi Hbi.
    rewrite nth_zip_with with (da := []) (db := []) by lia.
    apply causal_weights_rows with (h := h); try assumption.
    - apply has_shape_Forall in Hq. rewrite Forall_forall in Hq.
      apply Hq, nth_In. lia.
    - apply has_shape_Forall in Hk. rewrite Forall_forall in Hk.
      apply Hk, nth_In. lia. }
  eexists. split; [reflexivity|]. split; [|split].
  - rewrite zip_with_length. lia.
  - intros bi i Hbi Hi. now apply (Hrows bi Hbi).
  - intros bi Hbi. destruct (Hrows bi Hbi) as [Hlen Hrow].
    unfold bmm. rewrite nth_zip_with with (da := []) (db := [])
      by (rewrite ?zip_with_length; lia).
    set (wb := nth bi (zip_with (causal_weights c s) q k) []) in *.
    rewrite Forall_forall in Hfv.
    destruct (Hfv (nth bi v []) ltac:(apply nth_In; lia)) as [Hvs Hvr].
    destruct (nth bi v []) as [|v0 vb'] eqn:Hvb; [cbn in Hvs; lia|].
    unfold matmul. rewrite nth_map_lt with (da := []) by lia.
    cbn [ncols nth].
    rewrite <- (map_nth_seq v0 0) at 2.
    apply map_ext. intros j.
    apply causal_row_0_dot; [apply Hrow; lia | reflexivity].
Qed.

Lemma causal_attention_weights_witness :
  exists w,
    snd (snd (transformer_s.FSDPAttention_forward
                empty_cache [[[1]; [2]]] [[[3]; [4]]] [[[5]; [6]]]
                (Some (transformer_s.get_causal_mask (2, 2)%nat)) 0 true [])) = Some w /\
    length w = 1%nat.
Proof.
  destruct (causal_attention_weights 1 2 1 2 2 [[[1]; [2]]] [[[3]; [4]]] [[[5]; [6]]]
              eq_refl eq_refl eq_refl (le_n 1) (le_S 1 1 (le_n 1)) (le_n 1) (le_n 2) (le_n 2)
              empty_cache 0 [] (Rle_refl 0)) as (w & Hw & Hl & _).
  exists w. split; [exact Hw | exact Hl].
Defined.

(** ** The tables of the two embeddings of [transformer.py] *)

Module transformer_tables.

(** [Transformer.__init__] of [transformer.py] with the shapes of the
    matrices it draws.  [embedding_init] and [linear_init] are the
    initialisers of the library's [Embedding] and [Linear], and
    [normal shape std] is the library's [normal]; the replacement table
    of the positional embedding is drawn with [n_embeddings] rows, like
    that of the token embedding. *)
Definition Transformer_new {Blk LN : Type}
           (embedding_init linear_init : nat * nat -> matrix)
           (normal : nat * nat -> R -> matrix)
           (h : heap) (n_embeddings embedding_dim sequence_length : nat) (n_layers : Z)
           (new_block : transformer_build.pynum -> nat -> exn + Blk) (new_ln : LN)
  : exn + (heap * transformer.Transformer Blk LN) :=
  transformer_build.Transformer_new h n_layers new_block new_ln
    (embedding_init (n_embeddings, embedding_dim))
    (normal (n_embeddings, embedding_dim) (2 / 100))
    (embedding_init (sequence_length, embedding_dim))
    (normal (n_embeddings, embedding_dim) (1 / 100))
    (linear_init (n_embeddings, embedding_dim)).

End transformer_tables.

Lemma Transformer_init_tables {Blk LN : Type} (h : heap) (n_layers : Z)
      (new_block : nat -> exn + Blk) (new_ln : LN)
      (w_token w_token_normal w_pos w_pos_normal w_head : matrix) h' self :
  transformer.Transformer_init h n_layers new_block new_ln
    w_token w_token_normal w_pos w_pos_normal w_head = inr (h', self) ->
  option_map data (nth_error h' (emb_w (transformer.token_emb self))) = Some w_token_normal /\
  option_map data (nth_error h' (emb_w (transformer.pos_emb self))) = Some w_pos_normal /\
  lin_w (transformer.lm_head self) = emb_w (transformer.token_emb self).
Proof.
  unfold transformer.Transformer_init, Embedding_new, Linear_new, alloc. cbn.
  destruct (transformer_s.build_blocks new_block 0 (Z.to_nat n_layers)) as [e|bs];
    [discriminate|].
  intros H. injection H as <- <-. cbn [transformer.token_emb transformer.pos_emb
                                       transformer.lm_head emb_w lin_w].
  split; [|split; [|reflexivity]].
  - rewrite <- !app_assoc. cbn [app].
    rewrite nth_error_app2 by (rewrite length_app; cbn; lia).
    rewrite ?length_app. cbn [length].
    match goal with
    | |- context [nth_error _ ?n] => replace n with 1%nat by lia
    end. reflexivity.
  - rewrite <- !app_assoc. cbn [app].
    rewrite nth_error_app2 by (rewrite !length_app; cbn; lia).
    rewrite ?length_app. cbn [length].
    match goal with
    | |- context [nth_error _ ?n] => replace n with 3%nat by lia
    end. reflexivity.
Qed.

Lemma is_matrix_repeat {A : Type} (r c : nat) (x : A) :
  is_matrix r c (repeat (repeat x c) r) = true.
Proof.
  apply is_matrix_spec. split; [apply repeat_length|].
  apply Forall_forall. intros row Hrow. apply repeat_spec in Hrow. subst row.
  apply repeat_length.
Qed.

(** X20.  The tables of the embeddings of a model built by
    [Transformer.__init__] of [transformer.py], given that [normal]
    draws matrices of the shape it is asked for.  Both the token and the
    positional embedding end up with a table of [n_embeddings] rows of
    [embedding_dim] entries: the table of the positional embedding is
    replaced by one drawn with the shape of the token table, so it has
    [sequence_length] rows only when the two numbers are equal.  The head
    holds the table of the token embedding. *)
Theorem positional_table_rows {Blk LN : Type}
        (embedding_init linear_init : nat * nat -> matrix)
        (normal : nat * nat -> R -> matrix)
        (h : heap) (n_embeddings embedding_dim sequence_length : nat) (n_layers : Z)
        (new_block : transformer_build.pynum -> nat -> exn + Blk) (new_ln : LN)
        (h' : heap) (self : transformer.Transformer Blk LN) :
  (forall shape std, is_matrix (fst shape) (snd shape) (normal shape std) = true) ->
  transformer_tables.Transformer_new embedding_init linear_init normal h
    n_embeddings embedding_dim sequence_length n_layers new_block new_ln = inr (h', self) ->
  exists w_token w_pos,
    option_map data (nth_error h' (emb_w (transformer.token_emb self))) = Some w_token /\
    option_map data (nth_error h' (emb_w (transformer.pos_emb self))) = Some w_pos /\
    option_map data (nth_error h' (lin_w (transformer.lm_head self))) = Some w_token /\
    is_matrix n_embeddings embedding_dim w_token = true /\
    is_matrix n_embeddings embedding_dim w_pos = true /\
    (sequence_length <> n_embeddings ->
     is_matrix sequence_length embedding_dim w_pos = false).
Proof.
  intros Hnormal Hb.
  unfold transformer_tables.Transformer_new, transformer_build.Transformer_new in Hb.
  destruct (transformer_build.out_proj_std n_layers) as [e|std]; [discriminate|].
  apply Transformer_init_tables in Hb. destruct Hb as (Ht & Hp & Hl).
  do 2 eexists. split; [exact Ht|]. split; [exact Hp|]. split; [now rewrite Hl|].
  pose proof (Hnormal (n_embeddings, embedding_dim) (2 / 100)) as H1.
  pose proof (Hnormal (n_embeddings, embedding_dim) (1 / 100)) as H2.
  cbn [fst snd] in H1, H2.
  split; [exact H1|]. split; [exact H2|].
  intros Hne. apply is_matrix_spec in H2. destruct H2 as [Hlen _].
  unfold is_matrix. rewrite Hlen.
  destruct (Nat.eqb_spec n_embeddings sequence_length) as [Heq|_]; [congruence | reflexivity].
Qed.

Lemma positional_table_rows_witness :
  exists h' self w_pos,
    @transformer_tables.Transformer_new unit unit
      (fun shape => repeat (repeat 0 (snd shape)) (fst shape))
      (fun shape => repeat (repeat 0 (snd shape)) (fst shape))
      (fun shape _ => repeat (repeat 0 (snd shape)) (fst shape))
      [] 3 2 5 1 (fun _ _ => inr tt) tt = inr (h', self) /\
    option_map data (nth_error h' (emb_w (transformer.pos_emb self))) = Some w_pos /\
    is_matrix 3 2 w_pos = true /\ is_matrix 5 2 w_pos = false.
Proof.
  assert (Hrun : exists r,
             @transformer_tables.Transformer_new unit unit
               (fun shape => repeat (repeat 0 (snd shape)) (fst shape))
               (fun shape => repeat (repeat 0 (snd shape)) (fst shape))
               (fun shape _ => repeat (repeat 0 (snd shape)) (fst shape))
               [] 3 2 5 1 (fun _ _ => inr tt) tt = inr r).
  { run. eexists. reflexivity. }
  destruct Hrun as [[h' self] Hrun].
  destruct (positional_table_rows _ _ _ _ _ _ _ _ _ _ h' self
              (fun shape _ => is_matrix_repeat (fst shape) (snd shape) 0) Hrun)
    as (w_token & w_pos & _ & Hp & _ & _ & H3 & H5).
  exists h', self, w_pos. split; [exact Hrun|]. split; [exact Hp|].
  split; [exact H3 | apply H5; discriminate].
Defined.
